(** * QuizMe: the quiz lifecycle, the provider layer and content selection

    A shallow embedding of the extension's JavaScript
    (background/background.js, lib/llm.js, content/content.js,
    popup/popup.js) together with the properties proved about it.

    JavaScript strings are sequences of UTF-16 code units; they are
    modelled as [list N].  The browser store [chrome.storage.local] is a
    finite map from key names to JSON values.

    What the model leaves to its environment:
    - the engine: [JSON.parse] and [JSON.stringify] follow ECMAScript,
      with numbers as exact decimals instead of doubles and without the
      reordering of integer-like property names; the texts of the engine's
      own error messages are parameters ([Engine]);
    - the browser: the active tab, the result of the injected script and
      the answer of a provider are inputs of the handlers; the store
      accepts every read and write;
    - scheduling: a handler runs without interruption from one call of a
      provider to the next, so [handleGenerateQuiz] is cut in two at its
      [await] of the provider, and the explanation call runs when its
      answer is there;
    - types: the state, the provider name and [maxQuestions] are read as
      the strings and the integer that the extension itself stores under
      these keys; the views of the popup are left out;
    - the page: the scripts that read it work on a clone of a subtree,
      which is not rendered, so that its [innerText] is the text of its
      text nodes; the clone is a tree of HTML elements, text and
      comments. *)

From Stdlib Require Import ZArith QArith List String Ascii Lia Bool.
From stdpp Require Import gmap strings list.

Set Warnings "-register-all".

Local Open Scope N_scope.

(** ** JavaScript strings *)

Module JS.

Definition jsstring := list N.

(** A string literal of the source, as code units. *)
Definition js (s : string) : jsstring :=
  map N_of_ascii (list_ascii_of_string s).

(** ECMAScript [WhiteSpace] and [LineTerminator]: the class [\s] of
    regular expressions and the characters removed by
    [String.prototype.trim]. *)
Definition is_space (c : N) : bool :=
  (c =? 9) || (c =? 10) || (c =? 11) || (c =? 12) || (c =? 13) || (c =? 32)
  || (c =? 160) || (c =? 5760) || ((8192 <=? c) && (c <=? 8202))
  || (c =? 8232) || (c =? 8233) || (c =? 8239) || (c =? 8287)
  || (c =? 12288) || (c =? 65279).

Fixpoint trimStart (s : jsstring) : jsstring :=
  match s with
  | c :: r => if is_space c then trimStart r else s
  | [] => []
  end.

Definition trimEnd (s : jsstring) : jsstring := rev (trimStart (rev s)).

(** [s.trim()] *)
Definition trim (s : jsstring) : jsstring := trimEnd (trimStart s).

(** [p] is a prefix of [s]: the rest of [s] after [p]. *)
Fixpoint strip_prefix (p s : jsstring) : option jsstring :=
  match p, s with
  | [], _ => Some s
  | a :: p', b :: s' => if a =? b then strip_prefix p' s' else None
  | _ :: _, [] => None
  end.

Definition starts_with (p s : jsstring) : bool :=
  match strip_prefix p s with Some _ => true | None => false end.

(** [s.includes(p)] *)
Fixpoint includes (p s : jsstring) : bool :=
  starts_with p s ||
  match s with
  | [] => false
  | _ :: r => includes p r
  end.

(** The decimal digits of [n] in front of [acc]; the fuel is at least
    the number of digits. *)
Fixpoint digits_of_pos (fuel : nat) (n : N) (acc : jsstring) : jsstring :=
  match fuel with
  | O => acc
  | S fuel =>
      let acc' := (48 + n mod 10) :: acc in
      if n / 10 =? 0 then acc' else digits_of_pos fuel (n / 10) acc'
  end.

(** [String(n)] for a non-negative integer. *)
Definition string_of_N (n : N) : jsstring :=
  digits_of_pos (S (N.to_nat (N.log2 n))) n [].

(** [String(z)] for an integer. *)
Definition string_of_Z (z : Z) : jsstring :=
  match z with
  | Zneg p => 45 :: string_of_N (Npos p)
  | _ => string_of_N (Z.to_N z)
  end.

End JS.
Export JS.

(** ** JSON values and [JSON.parse] *)

Module JSON.

(** The values [JSON.parse] can return.  Numbers are kept as exact
    reduced rationals (the decimal the text denotes); the rounding of the
    literal to a double is not modelled.  Objects list their properties in
    creation order. *)
Inductive value :=
| JNull
| JBool (b : bool)
| JNum (q : Q)
| JStr (s : jsstring)
| JArr (l : list value)
| JObj (m : list (jsstring * value)).

Fixpoint jsstring_eqb (a b : jsstring) : bool :=
  match a, b with
  | [], [] => true
  | x :: a', y :: b' => (x =? y) && jsstring_eqb a' b'
  | _, _ => false
  end.

(** [o[k]] on the property list of an object; [None] is [undefined]. *)
Fixpoint obj_get (k : jsstring) (m : list (jsstring * value)) : option value :=
  match m with
  | [] => None
  | (k', v) :: m' => if jsstring_eqb k k' then Some v else obj_get k m'
  end.

(** [o[k] = v]: an existing property keeps its place, a new one is added
    last. *)
Fixpoint obj_set (k : jsstring) (v : value) (m : list (jsstring * value))
  : list (jsstring * value) :=
  match m with
  | [] => [(k, v)]
  | (k', v') :: m' =>
      if jsstring_eqb k k' then (k', v) :: m' else (k', v') :: obj_set k v m'
  end.

(** The object built from the members of an object literal, left to
    right (a repeated key keeps the last value). *)
Definition build_object (ms : list (jsstring * value)) : list (jsstring * value) :=
  fold_left (fun o kv => obj_set (fst kv) (snd kv) o) ms [].

(** JSON white space: tab, line feed, carriage return, space. *)
Definition is_json_ws (c : N) : bool :=
  (c =? 9) || (c =? 10) || (c =? 13) || (c =? 32).

Fixpoint skip_ws (s : jsstring) : jsstring :=
  match s with
  | c :: r => if is_json_ws c then skip_ws r else s
  | [] => []
  end.

Definition is_digit (c : N) : bool := (48 <=? c) && (c <=? 57).

Fixpoint take_digits (s : jsstring) : list N * jsstring :=
  match s with
  | c :: r =>
      if is_digit c
      then let '(ds, r') := take_digits r in (c :: ds, r')
      else ([], s)
  | [] => ([], [])
  end.

Definition digits_value (ds : list N) : Z :=
  fold_left (fun acc c => (10 * acc + (Z.of_N c - 48))%Z) ds 0%Z.

Definition hex_val (c : N) : option N :=
  if (48 <=? c) && (c <=? 57) then Some (c - 48)
  else if (97 <=? c) && (c <=? 102) then Some (c - 87)
  else if (65 <=? c) && (c <=? 70) then Some (c - 55)
  else None.

Definition hex4 (a b c d : N) : option N :=
  match hex_val a, hex_val b, hex_val c, hex_val d with
  | Some x, Some y, Some z, Some w => Some (((x * 16 + y) * 16 + z) * 16 + w)
  | _, _, _, _ => None
  end.

(** The character a one-letter escape stands for. *)
Definition simple_escape (e : N) : option N :=
  if e =? 34 then Some 34          (* quote *)
  else if e =? 92 then Some 92     (* backslash *)
  else if e =? 47 then Some 47     (* slash *)
  else if e =? 98 then Some 8      (* b: backspace *)
  else if e =? 102 then Some 12    (* f: form feed *)
  else if e =? 110 then Some 10    (* n: line feed *)
  else if e =? 114 then Some 13    (* r: carriage return *)
  else if e =? 116 then Some 9     (* t: tab *)
  else None.

(** The characters of a string literal after its opening quote, up to and
    including the closing quote. *)
Fixpoint parse_string_body (s : jsstring) : option (jsstring * jsstring) :=
  match s with
  | [] => None
  | c :: r =>
      if c =? 34 then Some ([], r)
      else if c =? 92 then
        match r with
        | [] => None
        | e :: r1 =>
            match simple_escape e with
            | Some d =>
                match parse_string_body r1 with
                | Some (str, rest) => Some (d :: str, rest)
                | None => None
                end
            | None =>
                if e =? 117 then
                  match r1 with
                  | h1 :: h2 :: h3 :: h4 :: r2 =>
                      match hex4 h1 h2 h3 h4 with
                      | Some d =>
                          match parse_string_body r2 with
                          | Some (str, rest) => Some (d :: str, rest)
                          | None => None
                          end
                      | None => None
                      end
                  | _ => None
                  end
                else None
            end
        end
      else if c <? 32 then None
      else
        match parse_string_body r with
        | Some (str, rest) => Some (c :: str, rest)
        | None => None
        end
  end.

(** The value of a number literal: mantissa [m] times ten to the [k]. *)
Definition decimal (m k : Z) : Q :=
  if (0 <=? k)%Z then Qred (Qmake (m * 10 ^ k) 1)
  else Qred (Qmake m (Z.to_pos (10 ^ (- k)))).

(** A number literal: an optional minus sign; an integer part that is a
    single zero or starts with a non-zero digit; an optional fraction (a
    dot and at least one digit); an optional exponent (e or E, an optional
    sign, at least one digit). *)
Definition parse_sign (s : jsstring) : bool * jsstring :=
  match s with
  | c :: r => if c =? 45 then (true, r) else (false, s)
  | [] => (false, s)
  end.

Definition parse_int (s : jsstring) : option (list N * jsstring) :=
  match s with
  | c :: r =>
      if c =? 48 then Some ([48], r)
      else if is_digit c then Some (take_digits s)
      else None
  | [] => None
  end.

Definition parse_frac (s : jsstring) : option (list N * jsstring) :=
  match s with
  | c :: r =>
      if c =? 46 then
        match take_digits r with
        | ([], _) => None
        | (fds, rest) => Some (fds, rest)
        end
      else Some ([], s)
  | [] => Some ([], s)
  end.

Definition parse_exp_sign (s : jsstring) : bool * jsstring :=
  match s with
  | d :: r =>
      if d =? 45 then (true, r)
      else if d =? 43 then (false, r)
      else (false, s)
  | [] => (false, s)
  end.

Definition parse_exp (s : jsstring) : option (Z * jsstring) :=
  match s with
  | c :: r =>
      if (c =? 101) || (c =? 69) then
        let '(eneg, r1) := parse_exp_sign r in
        match take_digits r1 with
        | ([], _) => None
        | (eds, rest) =>
            Some ((if eneg then - digits_value eds else digits_value eds)%Z, rest)
        end
      else Some (0%Z, s)
  | [] => Some (0%Z, s)
  end.

Definition parse_number (s : jsstring) : option (Q * jsstring) :=
  let '(neg, s1) := parse_sign s in
  match parse_int s1 with
  | None => None
  | Some (ids, s2) =>
      match parse_frac s2 with
      | None => None
      | Some (fds, s3) =>
          match parse_exp s3 with
          | None => None
          | Some (e, s4) =>
              let m := digits_value (ids ++ fds) in
              Some (decimal (if neg then - m else m)%Z (e - Z.of_nat (length fds))%Z, s4)
          end
      end
  end.

(** [null], [true], [false] or a number. *)
Definition parse_literal (s : jsstring) : option (value * jsstring) :=
  match strip_prefix (js "null") s with
  | Some rest => Some (JNull, rest)
  | None =>
      match strip_prefix (js "true") s with
      | Some rest => Some (JBool true, rest)
      | None =>
          match strip_prefix (js "false") s with
          | Some rest => Some (JBool false, rest)
          | None =>
              match parse_number s with
              | Some (q, rest) => Some (JNum q, rest)
              | None => None
              end
          end
      end
  end.

(** The key of a member, its colon and the white space around the
    colon. *)
Definition parse_key (s : jsstring) : option (jsstring * jsstring) :=
  match s with
  | c :: r =>
      if c =? 34 then
        match parse_string_body r with
        | Some (k, r1) =>
            match skip_ws r1 with
            | c1 :: r2 => if c1 =? 58 then Some (k, skip_ws r2) else None
            | [] => None
            end
        | None => None
        end
      else None
  | [] => None
  end.

Definition wrap {A B : Type} (f : A -> B) (o : option (A * jsstring)) : option (B * jsstring) :=
  match o with
  | Some (x, rest) => Some (f x, rest)
  | None => None
  end.

(** Recursive descent on the JSON grammar.  The fuel bounds the nesting
    of calls; [parse_value_stable] below shows that the fuel [JSON_parse]
    gives is always enough. *)
Fixpoint parse_value (n : nat) (s : jsstring) {struct n} : option (value * jsstring) :=
  match n with
  | O => None
  | S n =>
      match s with
      | [] => None
      | c :: r =>
          if c =? 34 then wrap JStr (parse_string_body r)
          else if c =? 91 then
            match skip_ws r with
            | c' :: r' =>
                if c' =? 93 then Some (JArr [], r')
                else wrap JArr (parse_elements n (c' :: r'))
            | [] => None
            end
          else if c =? 123 then
            match skip_ws r with
            | c' :: r' =>
                if c' =? 125 then Some (JObj [], r')
                else wrap (fun ms => JObj (build_object ms)) (parse_members n (c' :: r'))
            | [] => None
            end
          else parse_literal s
      end
  end
with parse_elements (n : nat) (s : jsstring) {struct n} : option (list value * jsstring) :=
  match n with
  | O => None
  | S n =>
      match parse_value n s with
      | None => None
      | Some (v, r) =>
          match skip_ws r with
          | c :: r1 =>
              if c =? 44 then wrap (cons v) (parse_elements n (skip_ws r1))
              else if c =? 93 then Some ([v], r1)
              else None
          | [] => None
          end
      end
  end
with parse_members (n : nat) (s : jsstring) {struct n}
  : option (list (jsstring * value) * jsstring) :=
  match n with
  | O => None
  | S n =>
      match parse_key s with
      | None => None
      | Some (k, r2) =>
          match parse_value n r2 with
          | None => None
          | Some (v, r3) =>
              match skip_ws r3 with
              | c :: r4 =>
                  if c =? 44 then wrap (cons (k, v)) (parse_members n (skip_ws r4))
                  else if c =? 125 then Some ([(k, v)], r4)
                  else None
              | [] => None
              end
          end
      end
  end.

(** [JSON.parse(text)]: [None] stands for the [SyntaxError] it throws. *)
Definition JSON_parse (text : jsstring) : option value :=
  let s := skip_ws text in
  match parse_value (2 * length s + 1) s with
  | Some (v, r) =>
      match skip_ws r with
      | [] => Some v
      | _ :: _ => None
      end
  | None => None
  end.

End JSON.
Export JSON.


(** *** [JSON.stringify] on quiz documents *)

Module Stringify.

Definition is_high_surrogate (c : N) : bool := (55296 <=? c) && (c <=? 56319).
Definition is_low_surrogate (c : N) : bool := (56320 <=? c) && (c <=? 57343).

(** A lower-case hexadecimal digit. *)
Definition hex_digit (n : N) : N := if n <? 10 then 48 + n else 87 + n.

(** [UnicodeEscape]: backslash, u and four hexadecimal digits. *)
Definition unicode_escape (c : N) : jsstring :=
  [92; 117; hex_digit (c / 4096); hex_digit ((c / 256) mod 16);
   hex_digit ((c / 16) mod 16); hex_digit (c mod 16)].

(** One code unit that is not a surrogate, as [QuoteJSONString] writes
    it. *)
Definition quote_unit (c : N) : jsstring :=
  if c =? 8 then [92; 98]
  else if c =? 9 then [92; 116]
  else if c =? 10 then [92; 110]
  else if c =? 12 then [92; 102]
  else if c =? 13 then [92; 114]
  else if c =? 34 then [92; 34]
  else if c =? 92 then [92; 92]
  else if c <? 32 then unicode_escape c
  else [c].

(** The body of a quoted string: a surrogate pair is copied, a lone
    surrogate is escaped. *)
Fixpoint quote_chars (s : jsstring) : jsstring :=
  match s with
  | [] => []
  | c :: r =>
      if is_high_surrogate c then
        match r with
        | d :: r' =>
            if is_low_surrogate d then c :: d :: quote_chars r'
            else unicode_escape c ++ quote_chars r
        | [] => unicode_escape c
        end
      else if is_low_surrogate c then unicode_escape c ++ quote_chars r
      else quote_unit c ++ quote_chars r
  end.

(** [QuoteJSONString] *)
Definition quote (s : jsstring) : jsstring := 34 :: quote_chars s ++ [34].

(** The elements of an array or the members of an object, separated by
    commas (no indentation is asked for). *)
Fixpoint join_comma (parts : list jsstring) : jsstring :=
  match parts with
  | [] => []
  | [p] => p
  | p :: ps => p ++ 44 :: join_comma ps
  end.

Definition stringify_array {A} (f : A -> jsstring) (l : list A) : jsstring :=
  91 :: join_comma (map f l) ++ [93].

Definition stringify_member (k v : jsstring) : jsstring := quote k ++ 58 :: v.

End Stringify.
Export Stringify.

(** ** The quiz document of the prompt *)

(** The shape the prompt asks the model for: the keys [question],
    [options], [correctIndex] and [explanation], in this order. *)
Record Question := {
  question : jsstring;
  options : list jsstring;
  correctIndex : nat;
  explanation : jsstring;
}.

Record QuizDocument := { questions : list Question }.

(** The JavaScript object of a document. *)
Definition value_of_question (q : Question) : value :=
  JObj [ (js "question", JStr (question q));
         (js "options", JArr (map JStr (options q)));
         (js "correctIndex", JNum (inject_Z (Z.of_nat (correctIndex q))));
         (js "explanation", JStr (explanation q)) ].

Definition value_of_document (d : QuizDocument) : value :=
  JObj [ (js "questions", JArr (map value_of_question (questions d))) ].

(** [JSON.stringify] of that object. *)
Definition stringify_question (q : Question) : jsstring :=
  123 :: join_comma
    [ stringify_member (js "question") (quote (question q));
      stringify_member (js "options") (stringify_array quote (options q));
      stringify_member (js "correctIndex") (string_of_N (N.of_nat (correctIndex q)));
      stringify_member (js "explanation") (quote (explanation q)) ] ++ [125].

Definition stringify_document (d : QuizDocument) : jsstring :=
  123 :: stringify_member (js "questions")
           (stringify_array stringify_question (questions d)) ++ [125].

(** ** lib/llm.js *)

Module Llm.

(** What a property is read off when the reading throws. *)
Inductive Nullish := Undefined | Null.

(** The exceptions of the model: the [SyntaxError] of [JSON.parse] on a
    text, the [TypeError] for reading a property of [undefined] or of
    [null], and any other error object, with its message. *)
Inductive exn :=
| SyntaxError (text : jsstring)
| ReadingError (base : Nullish) (property : jsstring)
| Error (message : jsstring).

(** The texts the engine chooses for its own errors. *)
Record Engine := {
  syntaxErrorMessage : jsstring -> jsstring;
  propertyErrorMessage : Nullish -> jsstring -> jsstring;
}.

(** [error.message] *)
Definition message (eng : Engine) (e : exn) : jsstring :=
  match e with
  | SyntaxError txt => syntaxErrorMessage eng txt
  | ReadingError base p => propertyErrorMessage eng base p
  | Error m => m
  end.

Inductive result (A : Type) :=
| Return (a : A)
| Throw (e : exn).
Arguments Return {A} a.
Arguments Throw {A} e.

(** Three backquotes. *)
Definition fence : jsstring := [96; 96; 96].

(** The text after the first fence of [s]. *)
Fixpoint after_fence (s : jsstring) : option jsstring :=
  match strip_prefix fence s with
  | Some r => Some r
  | None =>
      match s with
      | [] => None
      | _ :: r => after_fence r
      end
  end.

(** The text of [s] before its first fence. *)
Fixpoint before_fence (s : jsstring) : option jsstring :=
  if starts_with fence s then Some []
  else
    match s with
    | [] => None
    | c :: r =>
        match before_fence r with
        | Some b => Some (c :: b)
        | None => None
        end
    end.

(** Group 1 of [raw.match(/```(?:json)?\s*([\s\S]*?)```/)]: the regular
    expression matches at the first fence, takes the tag json when it is
    there, then all white space, and captures lazily up to the next
    fence.  Giving back the tag or some white space never finds a closing
    fence that the greedy choice misses (a fence starts with a backquote,
    which is neither in the tag nor white space), and neither does a later
    start, so the first attempt decides. *)
Definition codeBlockMatch (raw : jsstring) : option jsstring :=
  match after_fence raw with
  | None => None
  | Some r =>
      let r1 := match strip_prefix (js "json") r with
                | Some r' => r'
                | None => r
                end in
      before_fence (trimStart r1)
  end.

Definition parseQuizJSON (raw : jsstring) : result value :=
  match JSON_parse raw with
  | Some v => Return v
  | None =>
      (* Try extracting JSON from markdown code blocks *)
      match codeBlockMatch raw with
      | Some inner =>
          match JSON_parse (trim inner) with
          | Some v => Return v
          | None => Throw (SyntaxError (trim inner))
          end
      | None => Throw (Error (js "Failed to parse quiz response as JSON"))
      end
  end.

Inductive Provider := Ollama | OpenAI | Anthropic.

Definition provider_of (name : jsstring) : option Provider :=
  if jsstring_eqb name (js "ollama") then Some Ollama
  else if jsstring_eqb name (js "openai") then Some OpenAI
  else if jsstring_eqb name (js "anthropic") then Some Anthropic
  else None.

Definition provider_label (p : Provider) : jsstring :=
  match p with
  | Ollama => js "Ollama"
  | OpenAI => js "OpenAI"
  | Anthropic => js "Anthropic"
  end.

(** What one call of [generateWithOllama], [generateWithOpenAI] or
    [generateWithAnthropic] comes back with: the [fetch] or the decoding
    of the response envelope fails with an exception, the response is not
    ok (its status and the text of its body, empty when the body cannot be
    read), or the text field of the response. *)
Inductive ProviderReply :=
| Rejected (e : exn)
| HttpError (status : Z) (errorText : jsstring)
| RawText (raw : jsstring).

(** The result of the [generateWith...] function of provider [p]. *)
Definition generateWith (p : Provider) (reply : ProviderReply) : result jsstring :=
  match reply with
  | Rejected e => Throw e
  | HttpError status errorText =>
      Throw (Error (provider_label p ++ js " request failed (" ++ string_of_Z status
                    ++ js "): " ++ errorText))
  | RawText raw => Return raw
  end.

(** The part of [generateQuiz] and of [generateExplanations] after the
    provider has answered. *)
Definition parseReply (p : Provider) (reply : ProviderReply) : result value :=
  match generateWith p reply with
  | Return raw => parseQuizJSON raw
  | Throw e => Throw e
  end.

End Llm.
Export Llm.

(** ** content/content.js and the page *)

Module Content.

(** An element of the page as the scripts see it: its tag (lower case),
    its [role] attribute, its classes, what [getComputedStyle] and
    [getBoundingClientRect] say about it, its [innerText] and its child
    elements. *)
Inductive Element :=
  mkElement (tagName : string) (role : string) (classList : list string)
            (displayNone visibilityHidden : bool) (width height : Q)
            (innerText : jsstring) (children : list Element).

Definition tagName (el : Element) := let '(mkElement t _ _ _ _ _ _ _ _) := el in t.
Definition role (el : Element) := let '(mkElement _ r _ _ _ _ _ _ _) := el in r.
Definition classList (el : Element) := let '(mkElement _ _ c _ _ _ _ _ _) := el in c.
Definition displayNone (el : Element) := let '(mkElement _ _ _ d _ _ _ _ _) := el in d.
Definition visibilityHidden (el : Element) := let '(mkElement _ _ _ _ v _ _ _ _) := el in v.
Definition width (el : Element) := let '(mkElement _ _ _ _ _ w _ _ _) := el in w.
Definition height (el : Element) := let '(mkElement _ _ _ _ _ _ h _ _) := el in h.
Definition innerText (el : Element) := let '(mkElement _ _ _ _ _ _ _ t _) := el in t.
Definition children (el : Element) := let '(mkElement _ _ _ _ _ _ _ _ c) := el in c.

(** The element and its descendants in document order. *)
Fixpoint subtree (el : Element) : list Element :=
  el :: (fix all (l : list Element) : list Element :=
           match l with
           | [] => []
           | c :: l' => subtree c ++ all l'
           end) (children el).

Record Document := {
  documentElement : Element;
  body : Element;
}.

(** The selectors the scripts use: a tag name, [[role="..."]], a class. *)
Inductive Selector :=
| ByTag (t : string)
| ByRole (r : string)
| ByClass (c : string).

Definition matches (sel : Selector) (el : Element) : bool :=
  match sel with
  | ByTag t => String.eqb (tagName el) t
  | ByRole r => String.eqb (role el) r
  | ByClass c => existsb (String.eqb c) (classList el)
  end.

Definition querySelectorAll (doc : Document) (sel : Selector) : list Element :=
  List.filter (matches sel) (subtree (documentElement doc)).

Definition querySelector (doc : Document) (sel : Selector) : option Element :=
  head (querySelectorAll doc sel).

Definition Qltb (a b : Q) : bool := negb (Qle_bool b a).

Definition isHiddenOrTiny (el : Element) : bool :=
  if displayNone el || visibilityHidden el then true
  else if Qltb (width el) 50 || Qltb (height el) 50 then true
  else false.

(** [textLen / childCount]; a quotient of two integers, kept exact. *)
Definition scoreElement (el : Element) : Q :=
  let textLen := length (trim (innerText el)) in
  let childCount := match length (children el) with O => 1%nat | n => n end in
  Qmake (Z.of_nat textLen) (Pos.of_nat childCount).

Definition selectors : list Selector :=
  [ ByTag "article"; ByTag "main"; ByRole "main"; ByClass "content";
    ByClass "post"; ByClass "article"; ByClass "entry-content" ].

(** One turn of the inner loop on [(best, bestScore)]. *)
Definition consider (st : option Element * Q) (el : Element) : option Element * Q :=
  if isHiddenOrTiny el then st
  else
    let score := scoreElement el in
    if Qltb (snd st) score then (Some el, score) else st.

Definition findContentContainer (doc : Document) : Element :=
  let st :=
    fold_left (fun st selector => fold_left consider (querySelectorAll doc selector) st)
              selectors (None, 0%Q) in
  match fst st with
  | Some best => best
  | None => body doc
  end.

(** The elements the loops of [findContentContainer] score, in the order
    they come: the matches of each selector that are neither hidden nor
    tiny. *)
Definition candidates (doc : Document) : list Element :=
  List.filter (fun el => negb (isHiddenOrTiny el))
    (flat_map (querySelectorAll doc) selectors).

End Content.
Export Content.

(** ** background/background.js *)

Module Background.

(** [chrome.storage.local.set(updates)]: the keys of [updates] are
    written, the others keep their value. *)
Definition storage_set (updates store : gmap string value) : gmap string value :=
  updates ∪ store.

(** [chrome.storage.local.get(defaults)]: the keys of [defaults], each
    with its stored value or, when there is none, its default. *)
Definition storage_get (defaults store : gmap string value) : gmap string value :=
  map_imap (fun k d => Some (default d (store !! k))) defaults.

Definition num (z : Z) : value := JNum (inject_Z z).
Definition str (s : string) : value := JStr (js s).

Definition settings_defaults : gmap string value :=
  list_to_map
    [ ("provider", str "ollama");
      ("ollamaBaseUrl", str "http://localhost:11434");
      ("ollamaModel", str "llama3");
      ("openaiKey", JStr []);
      ("openaiModel", str "gpt-4o-mini");
      ("anthropicKey", JStr []);
      ("anthropicModel", str "claude-sonnet-4-5-20250929");
      ("maxQuestions", num 15) ].

Definition getSettings (store : gmap string value) : gmap string value :=
  storage_get settings_defaults store.

Definition session_defaults : gmap string value :=
  list_to_map
    [ ("quizState", str "idle");
      ("quizData", JNull);
      ("quizCurrentQuestion", num 0);
      ("quizUserAnswers", JArr []);
      ("quizError", JNull);
      ("quizSourceText", JNull);
      ("quizExplanations", JNull) ].

Definition getQuizSession (store : gmap string value) : gmap string value :=
  storage_get session_defaults store.

Definition setQuizSession (updates store : gmap string value) : gmap string value :=
  storage_set updates store.

Definition clearQuizSession (store : gmap string value) : gmap string value :=
  storage_set session_defaults store.

(** What [extractPageText] returns. *)
Record PageText := { text : jsstring; wordCount : Z }.

Definition pageSelectors : list Selector :=
  [ ByTag "article"; ByRole "main"; ByTag "main"; ByClass "post-content";
    ByClass "article-content"; ByClass "entry-content" ].

(** The first loop of [extractPageText]: the first match of the first
    selector that matches anything, else the body.  (The rest of the
    function reads [innerText] off a clone of this root.) *)
Fixpoint firstMatch (doc : Document) (sels : list Selector) : option Element :=
  match sels with
  | [] => None
  | selector :: rest =>
      match querySelector doc selector with
      | Some root => Some root
      | None => firstMatch doc rest
      end
  end.

Definition extractPageText_root (doc : Document) : Element :=
  match firstMatch doc pageSelectors with
  | Some root => root
  | None => body doc
  end.

(** [new LLMProvider(settings)] *)
Record LLMProvider := {
  settings : gmap string value;
  provider : jsstring;
}.

(** What is asked of the provider: [generateQuiz(text, questionCount)] or
    [generateExplanations(text, questions)]; the prompt is built from
    these arguments. *)
Inductive Request :=
| GenerateQuiz (text : jsstring) (questionCount : Z)
| GenerateExplanations (text : jsstring) (questions : value).

(** What the service worker does to the outside. *)
Inductive Event :=
| Responded (response : value)
| ProviderCall (llm : LLMProvider) (p : Provider) (request : Request)
| NotifyReady (count : option value)
| NotifyError (message : jsstring).

Record World := {
  store : gmap string value;
  trace : list Event;
}.

Definition write (updates : gmap string value) (w : World) : World :=
  {| store := setQuizSession updates (store w); trace := trace w |}.

Definition emit (e : Event) (w : World) : World :=
  {| store := store w; trace := trace w ++ [e] |}.

Definition failure (error : string) : value :=
  JObj [ (js "success", JBool false); (js "error", str error) ].

(** [x || d] on a stored setting that the options page writes as a string:
    anything else counts as unset. *)
Definition string_or (v : option value) (d : jsstring) : jsstring :=
  match v with
  | Some (JStr (c :: s)) => c :: s
  | _ => d
  end.

(** A stored integer; the options page stores [parseInt]'s result under
    [maxQuestions], anything that is not an integer counts as unset. *)
Definition int_or_zero (v : option value) : Z :=
  match v with
  | Some (JNum q) => if (Qden q =? 1)%positive then Qnum q else 0%Z
  | _ => 0%Z
  end.

(** [Math.min(Math.max(Math.floor(wordCount / 150), 3), maxQuestions || 15)] *)
Definition questionCount (wordCount maxQuestions : Z) : Z :=
  Z.min (Z.max (wordCount / 150) 3)
        (if (maxQuestions =? 0)%Z then 15 else maxQuestions).

(** The session and the answer of the handler once the text is there. *)
Definition generatingSession (page : PageText) : gmap string value :=
  list_to_map
    [ ("quizState", str "generating");
      ("quizData", JNull);
      ("quizCurrentQuestion", num 0);
      ("quizUserAnswers", JArr []);
      ("quizError", JNull);
      ("quizSourceText", JStr (text page));
      ("quizExplanations", JNull) ].

Definition generatingResponse : value :=
  JObj [ (js "success", JBool true);
         (js "data", JObj [ (js "state", str "generating") ]) ].

Definition errorSession (error : jsstring) : gmap string value :=
  list_to_map [ ("quizState", str "error"); ("quizError", JStr error) ].

Definition newLLMProvider (settings : gmap string value) : LLMProvider :=
  {| settings := settings;
     provider := string_or (settings !! "provider") (js "ollama") |}.

(** The session is marked as generating and the popup is answered. *)
Definition started (page : PageText) (w : World) : World :=
  emit (Responded generatingResponse) (write (generatingSession page) w).

(** The [catch] clause of [handleGenerateQuiz]. *)
Definition catch (eng : Engine) (e : exn) (w : World) : World :=
  emit (NotifyError (js "Quiz generation failed: " ++ message eng e))
    (write (errorSession (message eng e)) w).

(** An early exit of [handleGenerateQuiz] with a fixed message. *)
Definition refuse (error : string) (w : World) : World :=
  emit (Responded (failure error)) (write (errorSession (js error)) w).

(** The call in flight between the two halves of [handleGenerateQuiz]. *)
Record Pending := {
  llm : LLMProvider;
  llmProvider : Provider;
  sourceText : jsstring;
}.

(** [handleGenerateQuiz] up to the point where it waits for the provider.
    [tab] is what [chrome.tabs.query] gives ([tab?.id]), [script] what
    [chrome.scripting.executeScript] gives ([result?.result]). *)
Definition handleGenerateQuiz (eng : Engine) (tab : result (option Z))
    (script : result (option PageText)) (w : World) : World * option Pending :=
  match tab with
  | Throw e => (catch eng e w, None)
  | Return tabId =>
      if match tabId with Some id => (id =? 0)%Z | None => true end then
        (refuse "No active tab found" w, None)
      else
        match script with
        | Throw e => (catch eng e w, None)
        | Return None => (refuse "Failed to extract text from page" w, None)
        | Return (Some page) =>
            if (wordCount page <? 50)%Z then
              (refuse "Not enough readable content on this page" w, None)
            else
              (* Text extracted - mark as generating and respond immediately *)
              let w1 := started page w in
              (* Now do the slow LLM call *)
              let settings := getSettings (store w1) in
              let count := questionCount (wordCount page)
                             (int_or_zero (settings !! "maxQuestions")) in
              let llm := newLLMProvider settings in
              match provider_of (provider llm) with
              | None =>
                  (catch eng (Error (js "Unknown provider: " ++ provider llm)) w1, None)
              | Some p =>
                  (emit (ProviderCall llm p (GenerateQuiz (text page) count)) w1,
                   Some {| llm := llm; llmProvider := p; sourceText := text page |})
              end
        end
  end.

(** [v.length] for the values that have one; [None] is [undefined]. *)
Definition length_of (v : value) : option value :=
  match v with
  | JArr l => Some (num (Z.of_nat (length l)))
  | JStr s => Some (num (Z.of_nat (length s)))
  | JObj m => obj_get (js "length") m
  | _ => None
  end.

(** [quiz.questions] when [quiz.questions.length] can be read: reading
    [questions] off [null], or [length] off [undefined] or off [null],
    throws; a value that is not an object has no property [questions]. *)
Definition questions_of (quiz : value) : result value :=
  match quiz with
  | JNull => Throw (ReadingError Null (js "questions"))
  | JObj m =>
      match obj_get (js "questions") m with
      | None => Throw (ReadingError Undefined (js "length"))
      | Some JNull => Throw (ReadingError Null (js "length"))
      | Some qs => Return qs
      end
  | _ => Throw (ReadingError Undefined (js "length"))
  end.

(** [generateExplanations] gets as far as the provider when
    [questions.map] and every [q.options.map] exist. *)
Definition formattable (questions : value) : bool :=
  match questions with
  | JArr l =>
      forallb (fun q =>
                 match q with
                 | JObj m =>
                     match obj_get (js "options") m with
                     | Some (JArr _) => true
                     | _ => false
                     end
                 | _ => false
                 end) l
  | _ => false
  end.

Definition readySession (quiz : value) : gmap string value :=
  list_to_map
    [ ("quizState", str "ready");
      ("quizData", quiz);
      ("quizCurrentQuestion", num 0);
      ("quizUserAnswers", JArr []);
      ("quizError", JNull) ].

(** [handleGenerateQuiz] from the provider's answer on.  The second
    component is the explanation call it leaves in flight. *)
Definition handleGenerateQuiz_resume (eng : Engine) (pending : Pending)
    (reply : ProviderReply) (w : World) : World * option Pending :=
  match parseReply (llmProvider pending) reply with
  | Throw e => (catch eng e w, None)
  | Return quiz =>
      let w1 := write (readySession quiz) w in
      match questions_of quiz with
      | Throw e => (catch eng e w1, None)
      | Return questions =>
          let w2 := emit (NotifyReady (length_of questions)) w1 in
          (* Generate detailed explanations in the background *)
          if formattable questions then
            (emit (ProviderCall (llm pending) (llmProvider pending)
                     (GenerateExplanations (sourceText pending) questions)) w2,
             Some pending)
          else (w2, None)
      end
  end.

(** [generateExplanationsInBackground] from the provider's answer on. *)
Definition generateExplanationsInBackground (pending : Pending)
    (reply : ProviderReply) (w : World) : World :=
  match parseReply (llmProvider pending) reply with
  | Throw _ => w    (* Non-critical: only a warning is logged *)
  | Return (JObj m) =>
      match obj_get (js "explanations") m with
      | Some (JArr explanations) =>
          write {[ "quizExplanations" := JArr explanations ]} w
      | _ => w
      end
  | Return _ => w
  end.

(** The messages the popup sends. *)
Inductive Message :=
| generateQuiz
| saveProgress (state currentQuestion userAnswers : option value)
| clearQuiz.

Definition success : value := JObj [ (js "success", JBool true) ].

Definition optional (k : string) (v : option value) : gmap string value :=
  match v with
  | Some x => {[ k := x ]}
  | None => ∅
  end.

Definition handleSaveProgress (state currentQuestion userAnswers : option value)
    (w : World) : World :=
  emit (Responded success)
    (write (optional "quizUserAnswers" userAnswers
              ∪ optional "quizCurrentQuestion" currentQuestion
              ∪ optional "quizState" state) w).

Definition handleClearQuiz (w : World) : World :=
  emit (Responded success)
    {| store := clearQuizSession (store w); trace := trace w |}.

(** The listener of the service worker, on the messages of the popup.
    (Its branches for [testConnection], which the options page sends, for
    [getQuizSession] and for an unknown action are left out.) *)
Definition onMessage (eng : Engine) (tab : result (option Z))
    (script : result (option PageText)) (m : Message) (w : World)
  : World * option Pending :=
  match m with
  | generateQuiz => handleGenerateQuiz eng tab script w
  | saveProgress state currentQuestion userAnswers =>
      (handleSaveProgress state currentQuestion userAnswers w, None)
  | clearQuiz => (handleClearQuiz w, None)
  end.

(** The service worker after a run of messages. *)
Definition deliver (eng : Engine) (tab : result (option Z))
    (script : result (option PageText)) (msgs : list Message) (w : World) : World :=
  fold_left (fun w m => fst (onMessage eng tab script m w)) msgs w.

End Background.
Export Background.

(** ** popup/popup.js *)

Module Popup.

(** The variables of the script.  [quiz] is [None] while it is
    [undefined]; a slot of [userAnswers] is [None] while it is a hole of
    the array.  [polling] says whether the interval of
    [pollForQuizReady] is running.  (The views are the display's
    business and are left out.) *)
Record Popup := {
  quiz : option value;
  currentQuestion : nat;
  userAnswers : list (option value);
  polling : bool;
}.

Definition initial : Popup :=
  {| quiz := None; currentQuestion := 0; userAnswers := []; polling := false |}.

(** [a[i] = v] on an array: a write past the end leaves holes. *)
Fixpoint array_set {A} (i : nat) (v : A) (a : list (option A)) : list (option A) :=
  match i, a with
  | O, [] => [Some v]
  | O, _ :: a' => Some v :: a'
  | S i', [] => None :: array_set i' v []
  | S i', x :: a' => x :: array_set i' v a'
  end.

(** [a[i]]; [None] is [undefined], for a hole as for an index past the
    end. *)
Definition array_get {A} (i : nat) (a : list (option A)) : option A :=
  match a !! i with
  | Some x => x
  | None => None
  end.

(** An array as a message carries it: a hole arrives as [null]. *)
Definition send_array (a : list (option value)) : value :=
  JArr (map (fun x => match x with Some v => v | None => JNull end) a).

(** [saveProgress(state, question, answers)] *)
Definition saveProgressMsg (state : string) (question : nat)
    (answers : list (option value)) : Message :=
  saveProgress (Some (str state)) (Some (num (Z.of_nat question)))
               (Some (send_array answers)).

(** [data.quizCurrentQuestion || 0]: a stored index. *)
Definition index_or_zero (v : option value) : nat :=
  Z.to_nat (int_or_zero v).

(** [data.quizUserAnswers || []]: a stored array of answers. *)
Definition answers_or_empty (v : option value) : list (option value) :=
  match v with
  | Some (JArr l) => map Some l
  | _ => []
  end.

(** [data.quizState || 'idle'] *)
Definition state_or_idle (data : gmap string value) : jsstring :=
  string_or (data !! "quizState") (js "idle").

Definition is_state (s : jsstring) (name : string) : bool := jsstring_eqb s (js name).

(** [restoreSession]: the variables after it and the messages it sends. *)
Definition restoreSession (data : gmap string value) (p : Popup) : Popup * list Message :=
  let state := state_or_idle data in
  if is_state state "generating" then
    ({| quiz := quiz p; currentQuestion := currentQuestion p;
        userAnswers := userAnswers p; polling := true |}, [])
  else if is_state state "ready" then
    (* Mark as in_progress now that they're viewing it *)
    ({| quiz := data !! "quizData"; currentQuestion := 0; userAnswers := [];
        polling := polling p |},
     [saveProgressMsg "in_progress" 0 []])
  else if is_state state "in_progress" then
    ({| quiz := data !! "quizData";
        currentQuestion := index_or_zero (data !! "quizCurrentQuestion");
        userAnswers := answers_or_empty (data !! "quizUserAnswers");
        polling := polling p |}, [])
  else if is_state state "completed" then
    ({| quiz := data !! "quizData"; currentQuestion := currentQuestion p;
        userAnswers := answers_or_empty (data !! "quizUserAnswers");
        polling := polling p |}, [])
  else (p, []).

(** One tick of the interval of [pollForQuizReady]. *)
Definition pollTick (data : gmap string value) (p : Popup) : Popup * list Message :=
  if negb (polling p) then (p, [])
  else
    match data !! "quizState" with
    | Some (JStr s) =>
        if is_state s "ready" then
          ({| quiz := data !! "quizData"; currentQuestion := 0; userAnswers := [];
              polling := false |},
           [saveProgressMsg "in_progress" 0 []])
        else if is_state s "error" then
          ({| quiz := quiz p; currentQuestion := currentQuestion p;
              userAnswers := userAnswers p; polling := false |}, [])
        else (p, [])
    | _ => (p, [])
    end.

Definition selectOption (index : nat) (p : Popup) : Popup * list Message :=
  let answers := array_set (currentQuestion p) (num (Z.of_nat index)) (userAnswers p) in
  ({| quiz := quiz p; currentQuestion := currentQuestion p; userAnswers := answers;
      polling := polling p |},
   [saveProgressMsg "in_progress" (currentQuestion p) answers]).

(** [quiz.questions.length] as a number; [None] when it is not one (for
    [undefined], for which every comparison fails). *)
Definition length_number (questions : value) : option Q :=
  match length_of questions with
  | Some (JNum q) => Some q
  | _ => None
  end.

(** [currentQuestion < quiz.questions.length - 1] *)
Definition before_last (current : nat) (questions : value) : bool :=
  match length_number questions with
  | Some n => Qltb (inject_Z (Z.of_nat current)) (n - 1)
  | None => false
  end.

(** [nextQuestion]; when reading [quiz.questions.length] throws, the
    handler stops there with nothing done. *)
Definition nextQuestion (p : Popup) : Popup * list Message :=
  match array_get (currentQuestion p) (userAnswers p) with
  | None => (p, [])
  | Some _ =>
      match quiz p with
      | None => (p, [])
      | Some q =>
          match questions_of q with
          | Throw _ => (p, [])
          | Return questions =>
              if before_last (currentQuestion p) questions then
                ({| quiz := quiz p; currentQuestion := S (currentQuestion p);
                    userAnswers := userAnswers p; polling := polling p |},
                 [saveProgressMsg "in_progress" (S (currentQuestion p)) (userAnswers p)])
              else
                (p, [saveProgressMsg "completed" (currentQuestion p) (userAnswers p)])
          end
      end
  end.

Definition redoQuiz (p : Popup) : Popup * list Message :=
  ({| quiz := quiz p; currentQuestion := 0; userAnswers := []; polling := polling p |},
   [saveProgressMsg "in_progress" 0 []]).

(** Whether a value counts as true; [None] is [undefined]. *)
Definition truthy (v : option value) : bool :=
  match v with
  | None | Some JNull | Some (JBool false) | Some (JStr []) => false
  | Some (JNum q) => negb (Qeq_bool q 0)
  | Some _ => true
  end.

Definition js_and (a b : option value) : option value := if truthy a then b else a.
Definition js_or (a b : option value) : option value := if truthy a then a else b.

(** [v[i]] for an array and [v.name] for an object; [None] is
    [undefined]. *)
Definition at_index (v : option value) (i : nat) : option value :=
  match v with
  | Some (JArr l) => l !! i
  | Some (JStr s) => (fun c => JStr [c]) <$> s !! i
  | _ => None
  end.

Definition property (v : value) (name : string) : option value :=
  match v with
  | JObj m => obj_get (js name) m
  | _ => None
  end.

(** The explanation [showResults] prints under question [i]:
    [(detailedExplanations && detailedExplanations[i]) || q.explanation || '']
    (for a question that is an object; the loop has read [q.correctIndex]
    before). *)
Definition shownExplanation (detailedExplanations : option value) (i : nat) (q : value)
  : option value :=
  js_or (js_or (js_and detailedExplanations (at_index detailedExplanations i))
               (property q "explanation"))
        (Some (JStr [])).

End Popup.
Export Popup.

(** ** popup/popup.js: configuration, actions and score *)

Module PopupMore.

(** [isConfigured(data)] *)
Definition isConfigured (data : gmap string value) : bool :=
  if negb (truthy (data !! "provider")) then false
  else
    match data !! "provider" with
    | Some (JStr s) =>
        if jsstring_eqb s (js "ollama") then true
        else if jsstring_eqb s (js "openai") then truthy (data !! "openaiKey")
        else if jsstring_eqb s (js "anthropic") then truthy (data !! "anthropicKey")
        else false
    | _ => false
    end.

(** What the user can do in the quiz and results views. *)
Inductive Action :=
| Select (index : nat)
| Next
| Redo.

Definition act (a : Action) (p : Popup) : Popup * list Message :=
  match a with
  | Select index => selectOption index p
  | Next => nextQuestion p
  | Redo => redoQuiz p
  end.

(** An action of the user, and the service worker on the messages it
    sends. *)
Definition perform (eng : Engine) (tab : result (option Z))
    (script : result (option PageText)) (pw : Popup * World) (a : Action)
  : Popup * World :=
  (fst (act a (fst pw)), deliver eng tab script (snd (act a (fst pw))) (snd pw)).

(** The popup opened on a world, with the worker on the messages of the
    opening. *)
Definition openPopup (eng : Engine) (tab : result (option Z))
    (script : result (option PageText)) (w : World) : Popup * World :=
  (fst (restoreSession (store w) Popup.initial),
   deliver eng tab script (snd (restoreSession (store w) Popup.initial)) w).

(** [a === b]; [None] is [undefined].  Two arrays or objects are never the
    same one here: the answers and the quiz are separate values. *)
Definition strict_eq (a b : option value) : bool :=
  match a, b with
  | None, None => true
  | Some JNull, Some JNull => true
  | Some (JBool x), Some (JBool y) => Bool.eqb x y
  | Some (JNum x), Some (JNum y) => Qeq_bool x y
  | Some (JStr x), Some (JStr y) => jsstring_eqb x y
  | _, _ => false
  end.

(** The first loop of [showResults], from question [i] on: the number of
    questions whose answer is their [correctIndex].  Reading
    [correctIndex] off a question that is [null] throws. *)
Fixpoint countCorrect (i : nat) (questions : list value) (answers : list (option value))
  : result nat :=
  match questions with
  | [] => Return 0%nat
  | q :: rest =>
      match q with
      | JNull => Throw (ReadingError Null (js "correctIndex"))
      | _ =>
          match countCorrect (S i) rest answers with
          | Throw e => Throw e
          | Return n =>
              Return (if strict_eq (array_get i answers) (property q "correctIndex")
                      then S n else n)
          end
      end
  end.

(** The callback of [startQuiz] on the response to [generateQuiz]
    ([None] when there is none, for [chrome.runtime.lastError] as for
    [undefined]): polling starts when the response has a true
    [success]. *)
Definition startQuiz_callback (response : option value) (p : Popup) : Popup :=
  if truthy (js_and response
               match response with
               | Some r => property r "success"
               | None => None
               end)
  then {| quiz := quiz p; currentQuestion := currentQuestion p;
          userAnswers := userAnswers p; polling := true |}
  else p.

(** What the worker has answered among the events [t]. *)
Definition responseIn (t : list Event) : option value :=
  head (omap (fun e => match e with Responded v => Some v | _ => None end) t).

(** [closeQuiz]: the session is cleared and the window closes. *)
Definition closeQuiz (p : Popup) : Popup * list Message := (p, [clearQuiz]).

End PopupMore.
Export PopupMore.

(** ** The text of a page *)

Module Text.

(** One more character in front of the first of the pieces. *)
Definition add (c : N) (pieces : list jsstring) : list jsstring :=
  match pieces with
  | piece :: rest => (c :: piece) :: rest
  | [] => [[c]]
  end.

(** [s.replace(/\s+/g, ' ')]: every maximal run of white space becomes one
    space.  [after_space] says that the character before [s] was white
    space. *)
Fixpoint collapse_from (after_space : bool) (s : jsstring) : jsstring :=
  match s with
  | [] => []
  | c :: r =>
      if is_space c then
        if after_space then collapse_from true r else 32 :: collapse_from true r
      else c :: collapse_from false r
  end.

Definition collapse (s : jsstring) : jsstring := collapse_from false s.

(** [s.split(/\s+/)]: the pieces between the maximal runs of white space;
    the first piece is empty when [s] starts with white space, the last
    one when it ends with white space, and the empty string gives one
    empty piece. *)
Fixpoint split_from (after_space : bool) (s : jsstring) : list jsstring :=
  match s with
  | [] => [[]]
  | c :: r =>
      if is_space c then
        if after_space then split_from true r else [] :: split_from true r
      else add c (split_from false r)
  end.

Definition split_spaces (s : jsstring) : list jsstring := split_from false s.

(** [Boolean(s)], [s.length > 0] *)
Definition nonempty (s : jsstring) : bool :=
  match s with
  | [] => false
  | _ :: _ => true
  end.

(** [s.split(/\s+/).filter(Boolean)] *)
Definition words (s : jsstring) : list jsstring :=
  List.filter nonempty (split_spaces s).

(** [l.join(sep)] *)
Fixpoint join (sep : jsstring) (l : list jsstring) : jsstring :=
  match l with
  | [] => []
  | x :: rest =>
      match rest with
      | [] => x
      | _ :: _ => x ++ sep ++ join sep rest
      end
  end.

(** The end of [extractPageText], from [clone.innerText] on. *)
Definition pageText (innerText : jsstring) : PageText :=
  let cleaned := trim (collapse innerText) in
  {| text := cleaned; wordCount := Z.of_nat (length (words cleaned)) |}.

(** [s.split('\n')] *)
Fixpoint split_lines (s : jsstring) : list jsstring :=
  match s with
  | [] => [[]]
  | c :: r => if c =? 10 then [] :: split_lines r else add c (split_lines r)
  end.

(** [processText(rawText)] *)
Definition processText (rawText : jsstring) : jsstring :=
  let lines := split_lines rawText in
  let cleaned :=
    List.filter (fun line => (20 <=? length line)%nat)
      (map (fun line => trim (collapse line)) lines) in
  join [10] cleaned.

(** The end of [extractText], from [cleaned.innerText] on (the title is
    left out). *)
Definition extractText_result (rawText : jsstring) : PageText :=
  let text := processText rawText in
  {| text := text; wordCount := Z.of_nat (length (words text)) |}.

End Text.
Export Text.

(** ** The clone of the content: background/background.js and
    content/content.js *)

Module Clone.

(** A node of a cloned subtree: an element with its local name, its
    attributes and its child nodes, a text node, or a comment.  The tree
    is that of an HTML page: the names of the elements are in lower case,
    and what is not an HTML element is below an [svg] element. *)
Inductive Node :=
| ElementNode (localName : string) (attributes : list (string * jsstring))
              (childNodes : list Node)
| TextNode (data : jsstring)
| CommentNode (data : jsstring).

(** What a script looks at to decide on an element: its name and its
    attributes. *)
Definition Test := string -> list (string * jsstring) -> bool.

(** [el.getAttribute(name)]; [None] is [null]. *)
Definition getAttribute (attributes : list (string * jsstring)) (name : string)
  : option jsstring :=
  match List.find (fun a => String.eqb (fst a) name) attributes with
  | Some a => Some (snd a)
  | None => None
  end.

(** [clone.querySelectorAll(...).forEach(el => el.remove())] for a
    selector, or a condition in the loop, that [test] decides: the list
    holds the matching elements below [clone], never [clone] itself, and
    removing each of them from its parent leaves the tree without every
    subtree whose root matches. *)
Fixpoint prune (test : Test) (n : Node) : Node :=
  match n with
  | ElementNode name attrs kids =>
      ElementNode name attrs
        ((fix each (l : list Node) : list Node :=
            match l with
            | [] => []
            | k :: l' =>
                match k with
                | ElementNode name' attrs' _ =>
                    if test name' attrs' then each l' else prune test k :: each l'
                | _ => k :: each l'
                end
            end) kids)
  | _ => n
  end.

(** The child nodes of a pruned element. *)
Fixpoint pruneAll (test : Test) (l : list Node) : list Node :=
  match l with
  | [] => []
  | k :: l' =>
      match k with
      | ElementNode name attrs _ =>
          if test name attrs then pruneAll test l' else prune test k :: pruneAll test l'
      | _ => k :: pruneAll test l'
      end
  end.

(** [clone.querySelectorAll('*')]: the elements below a node, in document
    order. *)
Fixpoint elementsBelow (n : Node) : list Node :=
  match n with
  | ElementNode _ _ kids =>
      (fix all (l : list Node) : list Node :=
         match l with
         | [] => []
         | k :: l' =>
             match k with
             | ElementNode _ _ _ => k :: elementsBelow k ++ all l'
             | _ => all l'
             end
         end) kids
  | _ => []
  end.

(** [clone.innerText] of a clone, which is not rendered: the data of the
    text nodes below it, in document order. *)
Fixpoint textContent (n : Node) : jsstring :=
  match n with
  | ElementNode _ _ kids =>
      (fix all (l : list Node) : jsstring :=
         match l with
         | [] => []
         | k :: l' => textContent k ++ all l'
         end) kids
  | TextNode data => data
  | CommentNode _ => []
  end.

(** The [value] of an attribute, or the empty string. *)
Definition attribute (attributes : list (string * jsstring)) (name : string) : jsstring :=
  match getAttribute attributes name with
  | Some v => v
  | None => []
  end.

(** [name], [[attr="value"]] and [.name] as selectors. *)
Definition hasName (names : list string) : Test :=
  fun name _ => existsb (String.eqb name) names.

Definition hasAttribute (attr : string) (value : string) : Test :=
  fun _ attributes =>
    match getAttribute attributes attr with
    | Some v => jsstring_eqb v (js value)
    | None => false
    end.

(** The white space that separates the classes of a [class] attribute. *)
Definition is_ascii_space (c : N) : bool :=
  (c =? 9) || (c =? 10) || (c =? 12) || (c =? 13) || (c =? 32).

Fixpoint classes (v : jsstring) : list jsstring :=
  match v with
  | [] => [[]]
  | c :: r =>
      if is_ascii_space c then [] :: classes r
      else match classes r with
           | cl :: rest => (c :: cl) :: rest
           | [] => [[c]]
           end
  end.

(** A class selector, in a document that is not in quirks mode. *)
Definition hasClass (class : string) : Test :=
  fun _ attributes => existsb (jsstring_eqb (js class)) (classes (attribute attributes "class")).

Definition either (tests : list Test) : Test :=
  fun name attributes => existsb (fun test => test name attributes) tests.

(** The selector of [excluded] in [extractPageText]. *)
Definition excluded : Test :=
  either
    [ hasName ["nav"; "header"; "footer"; "aside"; "script"; "style"; "noscript";
               "iframe"; "svg"];
      hasAttribute "role" "navigation"; hasAttribute "role" "banner";
      hasAttribute "role" "complementary"; hasAttribute "aria-hidden" "true";
      hasClass "ad"; hasClass "ads"; hasClass "advertisement"; hasClass "sidebar";
      hasClass "nav"; hasClass "menu"; hasClass "footer"; hasClass "header";
      hasClass "comments" ].

(** [extractPageText] from the root it has chosen on. *)
Definition extractPageText_from (root : Node) : PageText :=
  pageText (textContent (prune excluded root)).

(** *** content/content.js *)

Definition NOISE_SELECTORS : list string :=
  [ "nav"; "header"; "footer"; "aside"; "iframe"; "script"; "style"; "noscript"; "svg" ].

(** The class of word characters of a regular expression, and a character
    as the flag [i] compares it with a letter of the pattern. *)
Definition is_word_char (c : N) : bool :=
  ((48 <=? c) && (c <=? 57)) || ((65 <=? c) && (c <=? 90)) || (c =? 95)
  || ((97 <=? c) && (c <=? 122)).

Definition lower (c : N) : N := if (65 <=? c) && (c <=? 90) then c + 32 else c.

Definition noiseWords : list jsstring :=
  map js [ "ad"; "ads"; "advertisement"; "banner"; "sidebar"; "widget"; "nav"; "menu";
           "footer"; "header"; "cookie"; "consent"; "popup"; "modal"; "social"; "share";
           "comment" ]%string.

(** A word boundary between two characters, [None] at either end. *)
Definition is_word (c : option N) : bool :=
  match c with
  | Some c => is_word_char c
  | None => false
  end.

Definition boundary (before after : option N) : bool := xorb (is_word before) (is_word after).

(** [w] in front of [s], whatever the case of the letters of [s]: the
    matched text and the rest. *)
Fixpoint strip_word (w s : jsstring) : option jsstring :=
  match w, s with
  | [], _ => Some s
  | a :: w', b :: s' => if a =? lower b then strip_word w' s' else None
  | _ :: _, [] => None
  end.

(** The pattern matches at the start of [s], after the character
    [before]: a boundary, one of the words, a boundary. *)
Definition noiseAt (before : option N) (s : jsstring) : bool :=
  boundary before (head s)
  && existsb (fun w =>
                match strip_word w s with
                | Some rest => boundary (last w) (head rest)
                | None => false
                end) noiseWords.

(** [NOISE_CLASS_PATTERNS.test(s)]: the pattern matches somewhere. *)
Fixpoint noiseFrom (before : option N) (s : jsstring) : bool :=
  noiseAt before s ||
  match s with
  | [] => false
  | c :: r => noiseFrom (Some c) r
  end.

Definition NOISE_CLASS_PATTERNS (s : jsstring) : bool := noiseFrom None s.

(** The two passes of [removeNoiseNodes]. *)
Definition noiseName : Test := hasName NOISE_SELECTORS.

Definition noiseClass : Test :=
  fun _ attributes =>
    let classAndId := attribute attributes "class" ++ js " " ++ attribute attributes "id" in
    NOISE_CLASS_PATTERNS classAndId.

Definition removeNoiseNodes (container : Node) : Node :=
  prune noiseClass (prune noiseName container).

(** The pass of [extractText] over the clone: inline styles and the
    attributes [hidden] and [aria-hidden]. *)
Definition hiddenInline : Test :=
  fun _ attributes =>
    let style := attribute attributes "style" in
    (includes (js "display:none") style || includes (js "display: none") style
     || includes (js "visibility:hidden") style || includes (js "visibility: hidden") style)
    || (match getAttribute attributes "hidden" with Some _ => true | None => false end
        || match getAttribute attributes "aria-hidden" with
           | Some v => jsstring_eqb v (js "true")
           | None => false
           end).

(** [extractText] from the container it has chosen on (the title is left
    out). *)
Definition extractText_from (container : Node) : PageText :=
  extractText_result (textContent (prune hiddenInline (removeNoiseNodes container))).

End Clone.
Export Clone.

(** ** lib/llm.js: the prompt *)

Module Prompt.

(** A string of the template between its double quotes. *)
Definition quoted (s : string) : jsstring := [34] ++ js s ++ [34].

(** [QUIZ_PROMPT_TEMPLATE] up to [{count}] and from there to [{text}]. *)
Definition promptHead : jsstring :=
  js "You are a quiz generator. Based on the following text, generate exactly ".

Definition promptBody : jsstring :=
  js " multiple choice questions that test understanding of the KEY CONCEPTS and IMPORTANT FACTS in the text."
  ++ [10; 10]
  ++ js "IMPORTANT RULES:" ++ [10]
  ++ js "- Focus ONLY on substantive, educational content" ++ [10]
  ++ js "- IGNORE any advertisements, promotional content, navigation text, or irrelevant information" ++ [10]
  ++ js "- Each question should have exactly 4 options (A, B, C, D)" ++ [10]
  ++ js "- Only one correct answer per question" ++ [10]
  ++ js "- Include a brief explanation for the correct answer" ++ [10]
  ++ js "- Questions should test comprehension, not trivial details" ++ [10; 10]
  ++ js "Respond with ONLY a JSON object in this exact format:" ++ [10]
  ++ js "{" ++ [10]
  ++ js "  " ++ quoted "questions" ++ js ": [" ++ [10]
  ++ js "    {" ++ [10]
  ++ js "      " ++ quoted "question" ++ js ": " ++ quoted "What is...?" ++ js "," ++ [10]
  ++ js "      " ++ quoted "options" ++ js ": [" ++ quoted "Option A" ++ js ", "
       ++ quoted "Option B" ++ js ", " ++ quoted "Option C" ++ js ", " ++ quoted "Option D"
       ++ js "]," ++ [10]
  ++ js "      " ++ quoted "correctIndex" ++ js ": 0," ++ [10]
  ++ js "      " ++ quoted "explanation" ++ js ": "
       ++ quoted "Brief explanation of why this is correct" ++ [10]
  ++ js "    }" ++ [10]
  ++ js "  ]" ++ [10]
  ++ js "}" ++ [10; 10]
  ++ js "TEXT TO QUIZ ON:" ++ [10].

Definition QUIZ_PROMPT_TEMPLATE : jsstring :=
  promptHead ++ js "{count}" ++ promptBody ++ js "{text}".

(** The first occurrence of [pattern] in [s]: the text before it and the
    text after it. *)
Fixpoint cut (pattern s : jsstring) : option (jsstring * jsstring) :=
  match strip_prefix pattern s with
  | Some after => Some ([], after)
  | None =>
      match s with
      | [] => None
      | c :: r =>
          match cut pattern r with
          | Some (before, after) => Some (c :: before, after)
          | None => None
          end
      end
  end.

(** The replacement text of [replace] for a pattern that is a string:
    a dollar sign followed by a dollar sign, an ampersand, a backquote or
    a quote stands for a dollar sign, the match, the text before it and
    the text after it; there are no groups, so that every other dollar
    sign stands for itself. *)
Fixpoint getSubstitution (matched before after replacement : jsstring) : jsstring :=
  match replacement with
  | [] => []
  | c :: r =>
      if c =? 36 then
        match r with
        | d :: r' =>
            if d =? 36 then 36 :: getSubstitution matched before after r'
            else if d =? 38 then matched ++ getSubstitution matched before after r'
            else if d =? 96 then before ++ getSubstitution matched before after r'
            else if d =? 39 then after ++ getSubstitution matched before after r'
            else 36 :: getSubstitution matched before after r
        | [] => [36]
        end
      else c :: getSubstitution matched before after r
  end.

(** [s.replace(pattern, replacement)] for two strings. *)
Definition replace (pattern replacement s : jsstring) : jsstring :=
  match cut pattern s with
  | None => s
  | Some (before, after) =>
      before ++ getSubstitution pattern before after replacement ++ after
  end.

(** [buildQuizPrompt(text, questionCount)], for a count that [String]
    writes in digits (an integer below 10^21 in absolute value). *)
Definition buildQuizPrompt (text : jsstring) (questionCount : Z) : jsstring :=
  replace (js "{text}") text
    (replace (js "{count}") (string_of_Z questionCount) QUIZ_PROMPT_TEMPLATE).

End Prompt.
Export Prompt.

(** The spec's [clamp(x, lo, hi)]. *)
Definition clamp (x lo hi : Z) : Z :=
  if (x <? lo)%Z then lo else if (hi <? x)%Z then hi else x.

(** The number of [generateQuiz] calls that went out to a provider. *)
Definition is_generate_call (e : Event) : bool :=
  match e with
  | ProviderCall _ _ (GenerateQuiz _ _) => true
  | _ => false
  end.

Definition generateCalls (t : list Event) : nat :=
  length (List.filter is_generate_call t).

(** ** Vocabulary of the proofs *)

(** One more character in front of a string that was read. *)
Definition consed (c : N) (o : option (jsstring * jsstring)) : option (jsstring * jsstring) :=
  match o with
  | Some (str, rest) => Some (c :: str, rest)
  | None => None
  end.

(** One more digit behind a number that was read. *)
Definition digit_step (acc : Z) (c : N) : Z := (10 * acc + (Z.of_N c - 48))%Z.

(** What may follow a value in the texts [JSON.stringify] writes: a
    comma, a closing bracket or brace, or the end. *)
Definition closes (rest : jsstring) : Prop :=
  match rest with
  | [] => True
  | c :: _ => c = 44 \/ c = 93 \/ c = 125
  end.

(** A text [it] that reads as the value [v] whenever what follows closes
    it, and that starts like a string, an array, an object or a number. *)
Definition opens (it : jsstring) : Prop :=
  exists c tl, it = c :: tl /\ is_json_ws c = false /\ c <> 93 /\ c <> 125.

Definition reads_as (it : jsstring) (v : value) : Prop :=
  opens it
  /\ forall rest, closes rest -> exists n, parse_value n (it ++ rest) = Some (v, rest).

(** What the loop leaves in [(best, bestScore)] after a run of visible
    candidates. *)
Definition loop_invariant (b : option Element) (s : Q) (l : list Element)
    (st : option Element * Q) : Prop :=
  (s <= snd st)%Q
  /\ (forall c, In c l -> (scoreElement c <= snd st)%Q)
  /\ ((st = (b, s))
      \/ exists pre best post,
           l = pre ++ best :: post
           /\ st = (Some best, scoreElement best)
           /\ (s < scoreElement best)%Q
           /\ forall c, In c pre -> (scoreElement c < scoreElement best)%Q).

(** The invariant of the spec on a stored question: four options and a
    correct index among 0, 1, 2, 3. *)
Definition question_invariant (q : value) : bool :=
  match q with
  | JObj m =>
      match obj_get (js "options") m, obj_get (js "correctIndex") m with
      | Some (JArr l), Some (JNum i) =>
          (length l =? 4)%nat
          && (Qden i =? 1)%positive && (0 <=? Qnum i)%Z && (Qnum i <? 4)%Z
      | _, _ => false
      end
  | _ => false
  end.

(** The same invariant on a question of the prompt's shape. *)
Definition well_formed (q : Question) : bool :=
  (length (options q) =? 4)%nat && (correctIndex q <? 4)%nat.

(** The questions of the stored quiz. *)
Definition stored_questions (store : gmap string value) : list value :=
  match store !! "quizData" with
  | Some (JObj m) =>
      match obj_get (js "questions") m with
      | Some (JArr l) => l
      | _ => []
      end
  | _ => []
  end.

(** An answer given through [selectOption]. *)
Definition chosen (a : option value) : Prop :=
  exists index : nat, a = Some (num (Z.of_nat index)).

(** What holds of the popup and the store while the user works through a
    quiz whose questions are [qs]: the current index is one of the
    questions, the answers reach up to it with no hole, and the store has
    what the popup has. *)
Definition session_invariant (m : list (jsstring * value)) (qs : list value)
    (pw : Popup * World) : Prop :=
  quiz (fst pw) = Some (JObj m)
  /\ polling (fst pw) = false
  /\ (currentQuestion (fst pw) < length qs)%nat
  /\ (currentQuestion (fst pw) <= length (userAnswers (fst pw)))%nat
  /\ (length (userAnswers (fst pw)) <= S (currentQuestion (fst pw)))%nat
  /\ Forall chosen (userAnswers (fst pw))
  /\ store (snd pw) !! "quizData" = Some (JObj m)
  /\ store (snd pw) !! "quizCurrentQuestion"
     = Some (num (Z.of_nat (currentQuestion (fst pw))))
  /\ store (snd pw) !! "quizUserAnswers" = Some (send_array (userAnswers (fst pw)))
  /\ (store (snd pw) !! "quizState" = Some (str "in_progress")
      \/ (store (snd pw) !! "quizState" = Some (str "completed")
          /\ length (userAnswers (fst pw)) = length qs)).

(** The keys of the session and of the settings. *)
Definition session_keys : list string :=
  [ "quizState"; "quizData"; "quizCurrentQuestion"; "quizUserAnswers"; "quizError";
    "quizSourceText"; "quizExplanations" ].

(** A run of characters without white space, and a word: such a run that
    is not empty. *)
Definition spacefree (s : jsstring) : Prop := Forall (fun c => is_space c = false) s.

Definition word (s : jsstring) : Prop := s <> [] /\ spacefree s.

(** Pieces that are words, but for the last, which may be empty. *)
Definition words_then (l : list jsstring) : Prop :=
  exists ws last, l = ws ++ [last] /\ Forall word ws /\ spacefree last.

(** [p] in front of the first of the pieces. *)
Definition prepend (p : jsstring) (l : list jsstring) : list jsstring :=
  match l with
  | h :: t => (p ++ h) :: t
  | [] => [p]
  end.

(** The lines that [processText] keeps. *)
Definition kept_lines (rawText : jsstring) : list jsstring :=
  List.filter (fun line => (20 <=? length line)%nat)
    (map (fun line => trim (collapse line)) (split_lines rawText)).

(** Whether [test] holds of a node. *)
Definition tested (test : Test) (n : Node) : bool :=
  match n with
  | ElementNode name attrs _ => test name attrs
  | _ => false
  end.

(** The elements in and below the nodes of a list, in document order. *)
Fixpoint elementsIn (l : list Node) : list Node :=
  match l with
  | [] => []
  | k :: l' =>
      match k with
      | ElementNode _ _ _ => k :: elementsBelow k ++ elementsIn l'
      | _ => elementsIn l'
      end
  end.

(** The text of the nodes of a list. *)
Fixpoint textOf (l : list Node) : jsstring :=
  match l with
  | [] => []
  | k :: l' => textContent k ++ textOf l'
  end.

(** A character that starts no JSON text: neither white space nor the
    first character of a string, a number, an array, an object or a
    literal. *)
Definition starts_no_value (c : N) : bool :=
  negb (is_json_ws c || (c =? 34) || (c =? 45) || is_digit c || (c =? 91) || (c =? 123)
        || (c =? 110) || (c =? 116) || (c =? 102)).

(** A small letter. *)
Definition is_small (c : N) : bool := (97 <=? c) && (c <=? 122).

(** The last character of [pre], or [before] when [pre] is empty. *)
Definition last_or (before : option N) (pre : jsstring) : option N :=
  match last pre with
  | Some c => Some c
  | None => before
  end.


(** ** Sample data *)

Module Sample.

Definition engine : Engine :=
  {| syntaxErrorMessage := fun _ => js "Unexpected token";
     propertyErrorMessage :=
       fun base p =>
         js "Cannot read properties of "
         ++ match base with Undefined => js "undefined" | Null => js "null" end
         ++ js " (reading '" ++ p ++ js "')" |}.

Definition fresh : World := {| store := ∅; trace := [] |}.

Definition longPage : PageText := {| text := js "a long article"; wordCount := 1000 |}.
Definition shortPage : PageText := {| text := js "a few words"; wordCount := 12 |}.

Definition tab : result (option Z) := Return (Some 7%Z).

(** The world after a first start on the long page. *)
Definition generating : World :=
  fst (handleGenerateQuiz engine tab (Return (Some longPage)) fresh).

(** A call in flight with the default provider. *)
Definition pending : Pending :=
  {| llm := newLLMProvider (getSettings ∅); llmProvider := Ollama;
     sourceText := js "a long article" |}.

Definition terse : value :=
  JObj [ (js "question", str "Which one?");
         (js "options", JArr [str "a"; str "b"; str "c"; str "d"]);
         (js "correctIndex", num 1);
         (js "explanation", str "Because b.") ].

(** A popup on the first of two questions, not answered yet, and the same
    popup once the question is answered. *)
Definition unanswered : Popup :=
  {| quiz := Some (JObj [ (js "questions", JArr [terse; terse]) ]);
     currentQuestion := 0; userAnswers := []; polling := false |}.

Definition answered : Popup := fst (selectOption 2 unanswered).

(** A world whose quiz is ready. *)
Definition ready : World :=
  {| store := {[ "quizState" := str "ready" ]}; trace := [] |}.

(** No [role] attribute. *)
Definition noRole : string := EmptyString.

(** A page with a sparse article before a dense main region. *)
Definition sparseArticle : Element :=
  mkElement "article" noRole [] false false 800 600 (js "Menu Home About")
    [ mkElement "a" noRole [] false false 100 60 (js "Menu") [];
      mkElement "a" noRole [] false false 100 60 (js "Home") [];
      mkElement "a" noRole [] false false 100 60 (js "About") [] ].

Definition denseMain : Element :=
  mkElement "main" noRole [] false false 800 900
    (js "A long paragraph of text about the subject of the page, with no markup around it.")
    [].

Definition pageBody (content : list Element) : Element :=
  mkElement "body" noRole [] false false 1024 2000 [] content.

Definition pageOf (content : list Element) : Document :=
  {| documentElement := mkElement "html" noRole [] false false 1024 2000 [] [pageBody content];
     body := pageBody content |}.

Definition twoRegions : Document := pageOf [sparseArticle; denseMain].

(** A page whose only article is visible and large but has no text. *)
Definition blankArticle : Element :=
  mkElement "article" noRole [] false false 800 600 [] [].

Definition blankPage : Document := pageOf [blankArticle].

(** A quiz of one well-formed question, the same with a fence in its
    text, and one with two options and the correct index 7. *)
Definition plainQuiz : QuizDocument :=
  {| questions := [ {| question := js "Which one?";
                       options := [js "a"; js "b"; js "c"; js "d"];
                       correctIndex := 1;
                       explanation := js "Because b." |} ] |}.

Definition codeQuiz : QuizDocument :=
  {| questions := [ {| question := js "What does ``` open in Markdown?";
                       options := [js "a list"; js "a code block"; js "a table"; js "a link"];
                       correctIndex := 1;
                       explanation := js "Three backquotes open a code block." |} ] |}.

Definition malformed : QuizDocument :=
  {| questions := [ {| question := js "Which one?";
                       options := [js "a"; js "b"];
                       correctIndex := 7;
                       explanation := [] |} ] |}.

(** A fenced block with the tag [tag] around a text. *)
Definition fenced (tag : string) (inner : jsstring) : jsstring :=
  fence ++ js tag ++ [10] ++ inner ++ [10] ++ fence.

(** The world after the provider has answered a call in flight with the
    text of a document. *)
Definition answeredWith (d : QuizDocument) : World :=
  fst (handleGenerateQuiz_resume engine pending (RawText (stringify_document d)) generating).

(** The start on the short page. *)
Definition refused : World * option Pending :=
  handleGenerateQuiz engine tab (Return (Some shortPage)) fresh.

(** A store in which the options page has saved a maximum of 5. *)
Definition configured : World :=
  {| store := {[ "maxQuestions" := num 5 ]}; trace := [] |}.

(** A world whose quiz of two questions is ready. *)
Definition twoQuestions : list (jsstring * value) :=
  [ (js "questions", JArr [terse; terse]) ].

(** A store in which a provider is set that the extension does not know. *)
Definition misconfigured : World :=
  {| store := {[ "provider" := str "gemini" ]}; trace := [] |}.

(** The answer of a provider that has no explanation to give. *)
Definition noExplanations : jsstring :=
  [123] ++ quote (js "explanations") ++ js ": [] }".

(** A store in which the options page has saved the provider. *)
Definition withOllama : World :=
  {| store := {[ "provider" := str "ollama" ]}; trace := [] |}.

(** Answer the first question, go on, answer the second, finish. *)
Definition clicks : list Action := [Select 1; Next; Select 0; Next].

(** A popup that waits for the quiz. *)
Definition waiting : Popup :=
  {| quiz := None; currentQuestion := 0; userAnswers := []; polling := true |}.

(** A reply whose questions are [null]. *)
Definition nullQuestions : jsstring :=
  [123] ++ quote (js "questions") ++ js ": null }".



Definition readyQuiz : World :=
  {| store := {[ "quizState" := str "ready"; "quizData" := JObj twoQuestions ]};
     trace := [] |}.

End Sample.

(** * Properties *)

(** ** The parser *)

Section Parser.

Local Open Scope N_scope.

Lemma strip_prefix_app (p s : jsstring) : strip_prefix p (p ++ s) = Some s.
Proof. induction p as [|c p IH]; [reflexivity |]. cbn. rewrite N.eqb_refl. exact IH. Qed.


Lemma skip_ws_length (s : jsstring) : (length (skip_ws s) <= length s)%nat.
Proof.
  induction s as [|c s IH]; [reflexivity |]. cbn. destruct (is_json_ws c); cbn; lia.
Qed.

Lemma strip_prefix_length (p s r : jsstring) :
  strip_prefix p s = Some r -> length s = (length p + length r)%nat.
Proof.
  revert s. induction p as [|a p IH]; intros s H.
  - injection H as ->. reflexivity.
  - destruct s as [|b s]; [discriminate |]. cbn in H.
    destruct (a =? b); [| discriminate]. cbn. rewrite (IH s H). reflexivity.
Qed.

Lemma take_digits_length (s : jsstring) :
  length s = (length (fst (take_digits s)) + length (snd (take_digits s)))%nat.
Proof.
  induction s as [|c s IH]; [reflexivity |]. cbn.
  destruct (is_digit c); [| reflexivity].
  destruct (take_digits s) as [ds r]. cbn in *. lia.
Qed.

Lemma parse_string_body_length (s str rest : jsstring) :
  parse_string_body s = Some (str, rest) -> (length rest < length s)%nat.
Proof.
  remember (length s) as n eqn:Hn. revert s str rest Hn.
  induction n as [n IH] using lt_wf_ind. intros s str rest Hn H.
  destruct s as [|c r]; [discriminate |]. cbn [parse_string_body] in H.
  destruct (c =? 34). { injection H as _ <-. subst n. cbn. lia. }
  destruct (c =? 92).
  - destruct r as [|e r1]; [discriminate |].
    destruct (simple_escape e).
    + destruct (parse_string_body r1) as [[str' rest']|] eqn:E; [| discriminate].
      injection H as _ <-. apply (IH (length r1)) in E; subst n; cbn in *; try lia.
    + destruct (e =? 117); [| discriminate].
      destruct r1 as [|h1 [|h2 [|h3 [|h4 r2]]]]; try discriminate.
      destruct (hex4 h1 h2 h3 h4); [| discriminate].
      destruct (parse_string_body r2) as [[str' rest']|] eqn:E; [| discriminate].
      injection H as _ <-. apply (IH (length r2)) in E; subst n; cbn in *; try lia.
  - destruct (c <? 32); [discriminate |].
    destruct (parse_string_body r) as [[str' rest']|] eqn:E; [| discriminate].
    injection H as _ <-. apply (IH (length r)) in E; subst n; cbn in *; try lia.
Qed.

Lemma take_digits_shorter (s ds rest : jsstring) :
  take_digits s = (ds, rest) -> length s = (length ds + length rest)%nat.
Proof. intros H. rewrite (take_digits_length s), H. reflexivity. Qed.

Lemma parse_sign_length (s : jsstring) : (length (snd (parse_sign s)) <= length s)%nat.
Proof. destruct s as [|c r]; cbn; [lia |]. destruct (c =? 45); cbn; lia. Qed.

Lemma parse_int_length (s ds rest : jsstring) :
  parse_int s = Some (ds, rest) -> (length rest < length s)%nat.
Proof.
  destruct s as [|c r]; [discriminate |]. cbn [parse_int].
  destruct (c =? 48). { intros [= _ <-]. cbn. lia. }
  destruct (is_digit c) eqn:E; [| discriminate].
  intros [= H]. cbn [take_digits] in H. rewrite E in H.
  destruct (take_digits r) as [ds' r'] eqn:E'. injection H as _ <-.
  apply take_digits_shorter in E'. cbn. lia.
Qed.

Lemma parse_frac_length (s ds rest : jsstring) :
  parse_frac s = Some (ds, rest) -> (length rest <= length s)%nat.
Proof.
  destruct s as [|c r]; cbn [parse_frac]. { intros [= _ <-]. lia. }
  destruct (c =? 46); [| intros [= _ <-]; lia].
  destruct (take_digits r) as [[|d ds'] r'] eqn:E; [discriminate |].
  intros [= _ <-]. apply take_digits_shorter in E. cbn in *. lia.
Qed.

Lemma parse_exp_length (s rest : jsstring) (e : Z) :
  parse_exp s = Some (e, rest) -> (length rest <= length s)%nat.
Proof.
  destruct s as [|c r]; cbn [parse_exp]. { intros [= _ <-]. lia. }
  destruct ((c =? 101) || (c =? 69)); [| intros [= _ <-]; lia].
  assert (Hs : (length (snd (parse_exp_sign r)) <= length r)%nat).
  { destruct r as [|d r']; cbn; [lia |].
    destruct (d =? 45); [cbn; lia |]. destruct (d =? 43); cbn; lia. }
  destruct (parse_exp_sign r) as [eneg r1]. cbn [snd] in Hs.
  destruct (take_digits r1) as [[|d ds'] r'] eqn:E; [discriminate |].
  intros [= _ <-]. apply take_digits_shorter in E. cbn in *. lia.
Qed.

Lemma parse_number_length (s rest : jsstring) (q : Q) :
  parse_number s = Some (q, rest) -> (length rest < length s)%nat.
Proof.
  unfold parse_number. pose proof (parse_sign_length s) as Hs.
  destruct (parse_sign s) as [neg s1]. cbn [snd] in Hs.
  destruct (parse_int s1) as [[ids s2]|] eqn:E1; [| discriminate].
  destruct (parse_frac s2) as [[fds s3]|] eqn:E2; [| discriminate].
  destruct (parse_exp s3) as [[e s4]|] eqn:E3; [| discriminate].
  intros [= _ <-].
  apply parse_int_length in E1. apply parse_frac_length in E2. apply parse_exp_length in E3.
  lia.
Qed.

Lemma parse_literal_length (s rest : jsstring) (v : value) :
  parse_literal s = Some (v, rest) -> (length rest < length s)%nat.
Proof.
  unfold parse_literal.
  destruct (strip_prefix (js "null") s) eqn:E1.
  { intros [= _ <-]. apply strip_prefix_length in E1. rewrite E1. cbn. lia. }
  destruct (strip_prefix (js "true") s) eqn:E2.
  { intros [= _ <-]. apply strip_prefix_length in E2. rewrite E2. cbn. lia. }
  destruct (strip_prefix (js "false") s) eqn:E3.
  { intros [= _ <-]. apply strip_prefix_length in E3. rewrite E3. cbn. lia. }
  destruct (parse_number s) as [[q r]|] eqn:E4; [| discriminate].
  intros [= _ <-]. exact (parse_number_length _ _ _ E4).
Qed.

Lemma parse_key_length (s k rest : jsstring) :
  parse_key s = Some (k, rest) -> (length rest + 3 <= length s)%nat.
Proof.
  destruct s as [|c r]; [discriminate |]. cbn [parse_key].
  destruct (c =? 34); [| discriminate].
  destruct (parse_string_body r) as [[k' r1]|] eqn:E; [| discriminate].
  pose proof (skip_ws_length r1) as H1.
  destruct (skip_ws r1) as [|c1 r2]; [discriminate |].
  destruct (c1 =? 58); [| discriminate].
  intros [= _ <-]. apply parse_string_body_length in E.
  pose proof (skip_ws_length r2). cbn in *. lia.
Qed.

Lemma wrap_Some {A B : Type} (f : A -> B) (o : option (A * jsstring)) (y : B) (r : jsstring) :
  wrap f o = Some (y, r) -> exists x, o = Some (x, r) /\ y = f x.
Proof.
  destruct o as [[x r']|]; [| discriminate]. intros [= <- <-]. eauto.
Qed.

Lemma parse_value_S (n : nat) (c : N) (r : jsstring) :
  parse_value (S n) (c :: r) =
    if c =? 34 then wrap JStr (parse_string_body r)
    else if c =? 91 then
      match skip_ws r with
      | c' :: r' =>
          if c' =? 93 then Some (JArr [], r')
          else wrap JArr (parse_elements n (c' :: r'))
      | [] => None
      end
    else if c =? 123 then
      match skip_ws r with
      | c' :: r' =>
          if c' =? 125 then Some (JObj [], r')
          else wrap (fun ms => JObj (build_object ms)) (parse_members n (c' :: r'))
      | [] => None
      end
    else parse_literal (c :: r).
Proof. reflexivity. Qed.

Lemma parse_elements_S (n : nat) (s : jsstring) :
  parse_elements (S n) s =
    match parse_value n s with
    | None => None
    | Some (v, r) =>
        match skip_ws r with
        | c :: r1 =>
            if c =? 44 then wrap (cons v) (parse_elements n (skip_ws r1))
            else if c =? 93 then Some ([v], r1)
            else None
        | [] => None
        end
    end.
Proof. reflexivity. Qed.

Lemma parse_members_S (n : nat) (s : jsstring) :
  parse_members (S n) s =
    match parse_key s with
    | None => None
    | Some (k, r2) =>
        match parse_value n r2 with
        | None => None
        | Some (v, r3) =>
            match skip_ws r3 with
            | c :: r4 =>
                if c =? 44 then wrap (cons (k, v)) (parse_members n (skip_ws r4))
                else if c =? 125 then Some ([(k, v)], r4)
                else None
            | [] => None
            end
        end
    end.
Proof. reflexivity. Qed.

Lemma parse_lengths (n : nat) :
  (forall s v r, parse_value n s = Some (v, r) -> (length r < length s)%nat)
  /\ (forall s vs r, parse_elements n s = Some (vs, r) -> (length r < length s)%nat)
  /\ (forall s ms r, parse_members n s = Some (ms, r) -> (length r < length s)%nat).
Proof.
  induction n as [|n (IHv & IHe & IHm)]; [repeat split; discriminate |].
  split; [| split].
  - intros [|c r0] v r; [discriminate |]. rewrite parse_value_S.
    destruct (c =? 34).
    { intros H. apply wrap_Some in H as (x & H & _).
      apply parse_string_body_length in H. cbn. lia. }
    destruct (c =? 91).
    { pose proof (skip_ws_length r0) as Hws.
      destruct (skip_ws r0) as [|c' r']; [discriminate |].
      destruct (c' =? 93). { intros [= _ <-]. cbn in *. lia. }
      intros H. apply wrap_Some in H as (x & H & _). apply IHe in H. cbn in *. lia. }
    destruct (c =? 123).
    { pose proof (skip_ws_length r0) as Hws.
      destruct (skip_ws r0) as [|c' r']; [discriminate |].
      destruct (c' =? 125). { intros [= _ <-]. cbn in *. lia. }
      intros H. apply wrap_Some in H as (x & H & _). apply IHm in H. cbn in *. lia. }
    apply parse_literal_length.
  - intros s vs r. rewrite parse_elements_S.
    destruct (parse_value n s) as [[v r0]|] eqn:E; [| discriminate].
    apply IHv in E. pose proof (skip_ws_length r0) as Hws.
    destruct (skip_ws r0) as [|c r1]; [discriminate |].
    destruct (c =? 44).
    { intros H. apply wrap_Some in H as (x & H & _). apply IHe in H.
      pose proof (skip_ws_length r1). cbn in *. lia. }
    destruct (c =? 93); [| discriminate]. intros [= _ <-]. cbn in *. lia.
  - intros s ms r. rewrite parse_members_S.
    destruct (parse_key s) as [[k r2]|] eqn:Ek; [| discriminate].
    apply parse_key_length in Ek.
    destruct (parse_value n r2) as [[v r3]|] eqn:E; [| discriminate].
    apply IHv in E. pose proof (skip_ws_length r3) as Hws.
    destruct (skip_ws r3) as [|c r4]; [discriminate |].
    destruct (c =? 44).
    { intros H. apply wrap_Some in H as (x & H & _). apply IHm in H.
      pose proof (skip_ws_length r4). cbn in *. lia. }
    destruct (c =? 125); [| discriminate]. intros [= _ <-]. cbn in *. lia.
Qed.

(** More fuel does not change a result. *)
Lemma parse_fuel_mono (n : nat) :
  (forall s x, parse_value n s = Some x -> parse_value (S n) s = Some x)
  /\ (forall s x, parse_elements n s = Some x -> parse_elements (S n) s = Some x)
  /\ (forall s x, parse_members n s = Some x -> parse_members (S n) s = Some x).
Proof.
  induction n as [|n (IHv & IHe & IHm)]; [repeat split; discriminate |].
  split; [| split].
  - intros [|c r0] x; [discriminate |]. rewrite (parse_value_S (S n)), parse_value_S.
    destruct (c =? 34); [tauto |].
    destruct (c =? 91).
    { destruct (skip_ws r0) as [|c' r']; [tauto |]. destruct (c' =? 93); [tauto |].
      destruct (parse_elements n (c' :: r')) as [y|] eqn:E; [| discriminate].
      rewrite (IHe _ _ E). tauto. }
    destruct (c =? 123); [| tauto].
    destruct (skip_ws r0) as [|c' r']; [tauto |]. destruct (c' =? 125); [tauto |].
    destruct (parse_members n (c' :: r')) as [y|] eqn:E; [| discriminate].
    rewrite (IHm _ _ E). tauto.
  - intros s x. rewrite (parse_elements_S (S n)), parse_elements_S.
    destruct (parse_value n s) as [[v r0]|] eqn:E; [| discriminate].
    rewrite (IHv _ _ E). destruct (skip_ws r0) as [|c r1]; [tauto |].
    destruct (c =? 44); [| tauto].
    destruct (parse_elements n (skip_ws r1)) as [y|] eqn:E'; [| discriminate].
    rewrite (IHe _ _ E'). tauto.
  - intros s x. rewrite (parse_members_S (S n)), parse_members_S.
    destruct (parse_key s) as [[k r2]|]; [| tauto].
    destruct (parse_value n r2) as [[v r3]|] eqn:E; [| discriminate].
    rewrite (IHv _ _ E). destruct (skip_ws r3) as [|c r4]; [tauto |].
    destruct (c =? 44); [| tauto].
    destruct (parse_members n (skip_ws r4)) as [y|] eqn:E'; [| discriminate].
    rewrite (IHm _ _ E'). tauto.
Qed.

(** From the fuel of [JSON_parse] on, more fuel changes nothing, for a
    failure as for a result. *)
Lemma parse_fuel_stable (n : nat) :
  (forall s, (2 * length s + 1 <= n)%nat -> parse_value (S n) s = parse_value n s)
  /\ (forall s, (2 * length s + 2 <= n)%nat -> parse_elements (S n) s = parse_elements n s)
  /\ (forall s, (2 * length s + 2 <= n)%nat -> parse_members (S n) s = parse_members n s).
Proof.
  induction n as [|n (IHv & IHe & IHm)]; [repeat split; intros; lia |].
  split; [| split].
  - intros [|c r0] Hn; [reflexivity |]. rewrite (parse_value_S (S n)), parse_value_S.
    destruct (c =? 34); [reflexivity |]. pose proof (skip_ws_length r0) as Hws.
    destruct (c =? 91).
    { destruct (skip_ws r0) as [|c' r']; [reflexivity |]. destruct (c' =? 93); [reflexivity |].
      rewrite IHe; [reflexivity |]. cbn in *. lia. }
    destruct (c =? 123); [| reflexivity].
    destruct (skip_ws r0) as [|c' r']; [reflexivity |]. destruct (c' =? 125); [reflexivity |].
    rewrite IHm; [reflexivity |]. cbn in *. lia.
  - intros s Hn. rewrite (parse_elements_S (S n)), parse_elements_S.
    rewrite IHv by lia.
    destruct (parse_value n s) as [[v r0]|] eqn:E; [| reflexivity].
    apply (proj1 (parse_lengths n)) in E. pose proof (skip_ws_length r0) as Hws.
    destruct (skip_ws r0) as [|c r1]; [reflexivity |].
    destruct (c =? 44); [| reflexivity].
    pose proof (skip_ws_length r1). rewrite IHe; [reflexivity |]. cbn in *. lia.
  - intros s Hn. rewrite (parse_members_S (S n)), parse_members_S.
    destruct (parse_key s) as [[k r2]|] eqn:Ek; [| reflexivity].
    apply parse_key_length in Ek. rewrite IHv by lia.
    destruct (parse_value n r2) as [[v r3]|] eqn:E; [| reflexivity].
    apply (proj1 (parse_lengths n)) in E. pose proof (skip_ws_length r3) as Hws.
    destruct (skip_ws r3) as [|c r4]; [reflexivity |].
    destruct (c =? 44); [| reflexivity].
    pose proof (skip_ws_length r4). rewrite IHm; [reflexivity |]. cbn in *. lia.
Qed.

Lemma parse_value_mono (n m : nat) (s : jsstring) x :
  (n <= m)%nat -> parse_value n s = Some x -> parse_value m s = Some x.
Proof.
  induction 1 as [|m _ IH]; [tauto |]. intros H. apply parse_fuel_mono, IH, H.
Qed.

Lemma parse_elements_mono (n m : nat) (s : jsstring) x :
  (n <= m)%nat -> parse_elements n s = Some x -> parse_elements m s = Some x.
Proof.
  induction 1 as [|m _ IH]; [tauto |]. intros H. apply parse_fuel_mono, IH, H.
Qed.

Lemma parse_members_mono (n m : nat) (s : jsstring) x :
  (n <= m)%nat -> parse_members n s = Some x -> parse_members m s = Some x.
Proof.
  induction 1 as [|m _ IH]; [tauto |]. intros H. apply parse_fuel_mono, IH, H.
Qed.

(** The fuel of [JSON_parse] decides: any larger fuel gives the same. *)
Lemma parse_value_stable (n : nat) (s : jsstring) :
  (2 * length s + 1 <= n)%nat -> parse_value n s = parse_value (2 * length s + 1) s.
Proof.
  induction 1 as [|m Hm IH]; [reflexivity |].
  rewrite <- IH. apply parse_fuel_stable. exact Hm.
Qed.

(** A text that parses with some fuel parses in [JSON_parse]. *)
Lemma JSON_parse_complete (n : nat) (text : jsstring) (v : value) (rest : jsstring) :
  parse_value n (skip_ws text) = Some (v, rest) -> skip_ws rest = [] ->
  JSON_parse text = Some v.
Proof.
  intros H Hrest. unfold JSON_parse.
  set (s := skip_ws text) in *.
  assert (H' : parse_value (2 * length s + 1) s = Some (v, rest)).
  { destruct (Nat.le_ge_cases n (2 * length s + 1)) as [Hle | Hge].
    - exact (parse_value_mono _ _ _ _ Hle H).
    - rewrite <- (parse_value_stable n s Hge). exact H. }
  rewrite H', Hrest. reflexivity.
Qed.

(** ** Strings written by [quote] are read back *)

Lemma hex_val_digit (n : N) : n < 16 -> hex_val (hex_digit n) = Some n.
Proof.
  intros H. unfold hex_digit, hex_val.
  destruct (N.ltb_spec n 10) as [Hlt | Hge].
  - replace ((48 <=? 48 + n) && (48 + n <=? 57)) with true
      by (symmetry; apply andb_true_iff; split; apply N.leb_le; lia).
    f_equal. lia.
  - replace ((48 <=? 87 + n) && (87 + n <=? 57)) with false
      by (symmetry; apply andb_false_iff; right; apply N.leb_gt; lia).
    replace ((97 <=? 87 + n) && (87 + n <=? 102)) with true
      by (symmetry; apply andb_true_iff; split; apply N.leb_le; lia).
    f_equal. lia.
Qed.

Lemma hex4_unicode (c : N) :
  c < 65536 ->
  hex4 (hex_digit (c / 4096)) (hex_digit ((c / 256) mod 16))
       (hex_digit ((c / 16) mod 16)) (hex_digit (c mod 16)) = Some c.
Proof.
  intros H. unfold hex4.
  rewrite !hex_val_digit.
  - f_equal.
    pose proof (N.div_mod c 16 ltac:(lia)) as H1.
    pose proof (N.div_mod (c / 16) 16 ltac:(lia)) as H2.
    pose proof (N.div_mod (c / 16 / 16) 16 ltac:(lia)) as H3.
    replace (c / 256) with (c / 16 / 16) by (rewrite N.Div0.div_div; reflexivity).
    replace (c / 4096) with (c / 16 / 16 / 16) by (rewrite !N.Div0.div_div; reflexivity).
    pose proof (N.mod_small (c / 16 / 16 / 16) 16) as H4.
    assert (c / 16 / 16 / 16 < 16).
    { rewrite !N.Div0.div_div. apply N.Div0.div_lt_upper_bound. cbn. lia. }
    lia.
  - apply N.mod_lt. lia.
  - apply N.mod_lt. lia.
  - apply N.mod_lt. lia.
  - apply N.Div0.div_lt_upper_bound. lia.
Qed.


Lemma parse_unicode_escape (c : N) (x : jsstring) :
  c < 65536 ->
  parse_string_body (unicode_escape c ++ x) = consed c (parse_string_body x).
Proof.
  intros H. unfold unicode_escape. cbn [app parse_string_body].
  cbn [N.eqb Pos.eqb simple_escape]. rewrite hex4_unicode by exact H. reflexivity.
Qed.

Lemma parse_verbatim (c : N) (x : jsstring) :
  32 <= c -> c <> 34 -> c <> 92 ->
  parse_string_body (c :: x) = consed c (parse_string_body x).
Proof.
  intros H1 H2 H3. cbn [parse_string_body].
  destruct (N.eqb_spec c 34); [contradiction |].
  destruct (N.eqb_spec c 92); [contradiction |].
  destruct (N.ltb_spec c 32); [lia | reflexivity].
Qed.

Lemma parse_quote_unit (c : N) (x : jsstring) :
  parse_string_body (quote_unit c ++ x) = consed c (parse_string_body x).
Proof.
  unfold quote_unit.
  repeat (match goal with
          | |- context [if ?a =? ?b then _ else _] =>
              destruct (N.eqb_spec a b) as [-> | ?]; [reflexivity |]
          end).
  destruct (N.ltb_spec c 32).
  - apply parse_unicode_escape. lia.
  - apply parse_verbatim; assumption.
Qed.

Lemma parse_quote_chars (s rest : jsstring) :
  parse_string_body (quote_chars s ++ 34 :: rest) = Some (s, rest).
Proof.
  remember (length s) as n eqn:Hn. revert s Hn.
  induction n as [n IH] using lt_wf_ind. intros s Hn.
  destruct s as [|c r]; [reflexivity |]. cbn [quote_chars].
  destruct (is_high_surrogate c) eqn:Eh.
  - unfold is_high_surrogate in Eh. apply andb_true_iff in Eh as [E1 E2].
    apply N.leb_le in E1, E2.
    destruct r as [|d r'].
    + rewrite parse_unicode_escape by lia. reflexivity.
    + destruct (is_low_surrogate d) eqn:El.
      * unfold is_low_surrogate in El. apply andb_true_iff in El as [E3 E4].
        apply N.leb_le in E3, E4.
        cbn [app]. rewrite parse_verbatim by lia. rewrite parse_verbatim by lia.
        rewrite (IH (length r')); [reflexivity | subst n; cbn; lia | reflexivity].
      * rewrite <- app_assoc, parse_unicode_escape by lia.
        rewrite (IH (length (d :: r'))); [reflexivity | subst n; cbn; lia | reflexivity].
  - destruct (is_low_surrogate c) eqn:El.
    + unfold is_low_surrogate in El. apply andb_true_iff in El as [E3 E4].
      apply N.leb_le in E3, E4.
      rewrite <- app_assoc, parse_unicode_escape by lia.
      rewrite (IH (length r)); [reflexivity | subst n; cbn; lia | reflexivity].
    + rewrite <- app_assoc, parse_quote_unit.
      rewrite (IH (length r)); [reflexivity | subst n; cbn; lia | reflexivity].
Qed.

(** ** Numbers written by [string_of_N] are read back *)


Lemma digits_value_fold (ds : list N) : digits_value ds = fold_left digit_step ds 0%Z.
Proof. reflexivity. Qed.

Lemma is_digit_char (d : N) : d < 10 -> is_digit (48 + d) = true.
Proof. intros H. unfold is_digit. apply andb_true_iff. split; apply N.leb_le; lia. Qed.

Lemma digits_of_pos_spec (fuel : nat) (n : N) (acc : jsstring) :
  0 < n -> n < 2 ^ N.of_nat fuel ->
  exists c ds,
    digits_of_pos fuel n acc = (c :: ds) ++ acc
    /\ c <> 48
    /\ Forall (fun d => is_digit d = true) (c :: ds)
    /\ forall z, fold_left digit_step (c :: ds) z
                 = (z * 10 ^ Z.of_nat (length (c :: ds)) + Z.of_N n)%Z.
Proof.
  revert n acc. induction fuel as [|fuel IH]; intros n acc Hpos Hlt.
  - cbn in Hlt. lia.
  - cbn [digits_of_pos].
    assert (Hmod : n mod 10 < 10) by (apply N.mod_lt; lia).
    pose proof (N.div_mod n 10 ltac:(lia)) as Hdm.
    destruct (N.eqb_spec (n / 10) 0) as [Hz | Hnz].
    + exists (48 + n mod 10), []. repeat split.
      * lia.
      * constructor; [apply is_digit_char; exact Hmod | constructor].
      * intros z. cbn. unfold digit_step. lia.
    + destruct (IH (n / 10) ((48 + n mod 10) :: acc)) as (c & ds & Heq & Hc & Hall & Hval).
      * lia.
      * rewrite Nat2N.inj_succ, N.pow_succ_r' in Hlt.
        apply N.Div0.div_lt_upper_bound. lia.
      * exists c, (ds ++ [48 + n mod 10]). repeat split.
        -- rewrite Heq. cbn [app]. rewrite <- app_assoc. reflexivity.
        -- exact Hc.
        -- change (c :: ds ++ [48 + n mod 10]) with ((c :: ds) ++ [48 + n mod 10]).
           apply Forall_app. split; [exact Hall |].
           constructor; [apply is_digit_char; exact Hmod | constructor].
        -- intros z.
           change (c :: ds ++ [48 + n mod 10]) with ((c :: ds) ++ [48 + n mod 10]).
           rewrite fold_left_app, Hval, length_app. cbn [fold_left length].
           unfold digit_step. rewrite Nat2Z.inj_add, Z.pow_add_r by lia.
           change (Z.of_nat 1) with 1%Z. rewrite Z.pow_1_r. lia.
Qed.

(** The digits of a number: a single zero, or digits that start with a
    non-zero one; their value is the number. *)
Lemma string_of_N_spec (n : N) :
  (n = 0 /\ string_of_N n = [48])
  \/ (exists c ds,
        string_of_N n = c :: ds /\ c <> 48
        /\ Forall (fun d => is_digit d = true) (c :: ds)
        /\ digits_value (c :: ds) = Z.of_N n).
Proof.
  destruct (N.eq_dec n 0) as [-> | Hn]; [left; split; reflexivity |].
  right. unfold string_of_N.
  destruct (digits_of_pos_spec (S (N.to_nat (N.log2 n))) n []) as (c & ds & Heq & Hc & Hall & Hval).
  - lia.
  - rewrite Nat2N.inj_succ, N2Nat.id. apply N.log2_spec. lia.
  - exists c, ds. rewrite Heq, app_nil_r. repeat split; try assumption.
    rewrite digits_value_fold, Hval. lia.
Qed.


Lemma take_digits_all (ds rest : jsstring) :
  Forall (fun d => is_digit d = true) ds -> closes rest ->
  take_digits (ds ++ rest) = (ds, rest).
Proof.
  intros Hall Hrest. induction Hall as [|d ds Hd _ IH].
  - destruct rest as [|c r]; [reflexivity |]. cbn.
    destruct Hrest as [-> | [-> | ->]]; reflexivity.
  - cbn. rewrite Hd, IH. reflexivity.
Qed.

Lemma parse_number_digits (n : N) (rest : jsstring) :
  closes rest ->
  parse_number (string_of_N n ++ rest) = Some (inject_Z (Z.of_N n), rest).
Proof.
  intros Hrest.
  assert (Hfrac : parse_frac rest = Some ([], rest)).
  { destruct rest as [|c r]; [reflexivity |].
    destruct Hrest as [-> | [-> | ->]]; reflexivity. }
  assert (Hexp : parse_exp rest = Some (0%Z, rest)).
  { destruct rest as [|c r]; [reflexivity |].
    destruct Hrest as [-> | [-> | ->]]; reflexivity. }
  assert (Hdec : forall z, decimal z (0 - Z.of_nat 0)%Z = inject_Z z).
  { intros z. unfold decimal. cbn. rewrite Z.mul_1_r.
    apply Qcanon.Qred_identity. cbn. apply Z.gcd_1_r. }
  destruct (string_of_N_spec n) as [[-> ->] | (c & ds & -> & Hc & Hall & Hval)].
  - unfold parse_number. cbn [app parse_sign N.eqb Pos.eqb parse_int].
    rewrite Hfrac, Hexp. cbn [app length]. rewrite Hdec. reflexivity.
  - unfold parse_number. cbn [app parse_sign].
    assert (Hd : is_digit c = true) by (inversion Hall; assumption).
    assert ((c =? 45) = false) as ->.
    { apply N.eqb_neq. intros ->. discriminate Hd. }
    unfold parse_int. destruct (N.eqb_spec c 48); [contradiction |]. rewrite Hd.
    change (c :: ds ++ rest) with ((c :: ds) ++ rest).
    rewrite (take_digits_all _ _ Hall Hrest), Hfrac, Hexp.
    cbn [length]. rewrite app_nil_r, Hdec, Hval. reflexivity.
Qed.

(** ** Documents written by [stringify_document] are read back *)


Lemma skip_ws_opens (it rest : jsstring) : opens it -> skip_ws (it ++ rest) = it ++ rest.
Proof. intros (c & tl & -> & Hc & _). cbn. rewrite Hc. reflexivity. Qed.

Lemma skip_ws_closes (c : N) (rest : jsstring) :
  c = 44 \/ c = 93 \/ c = 125 -> skip_ws (c :: rest) = c :: rest.
Proof. intros [-> | [-> | ->]]; reflexivity. Qed.

Lemma join_comma_cons (p p' : jsstring) (ps : list jsstring) :
  join_comma (p :: p' :: ps) = p ++ 44 :: join_comma (p' :: ps).
Proof. reflexivity. Qed.

Lemma join_comma_more (p : jsstring) (ps : list jsstring) :
  ps <> [] -> join_comma (p :: ps) = p ++ 44 :: join_comma ps.
Proof. destruct ps; [contradiction | reflexivity]. Qed.

Lemma join_comma_opens (items : list jsstring) (rest : jsstring) :
  items <> [] -> Forall opens items -> opens (join_comma items ++ rest).
Proof.
  intros Hne Hall. destruct Hall as [|it items (c & tl & -> & Hc) _]; [contradiction |].
  destruct items; cbn; exists c; eexists; (split; [reflexivity | exact Hc]).
Qed.

Lemma parse_elements_items (items : list jsstring) (vals : list value) (rest : jsstring) :
  items <> [] ->
  Forall2 reads_as items vals ->
  exists n, parse_elements n (join_comma items ++ 93 :: rest) = Some (vals, rest).
Proof.
  intros Hne Hall. induction Hall as [|it v items vals [Hopen Hread] Hall IH];
    [contradiction |].
  destruct items as [|it' items].
  - inversion Hall; subst. cbn [join_comma].
    destruct (Hread (93 :: rest)) as (n & Hn); [cbn; auto |].
    exists (S n). rewrite parse_elements_S, Hn. reflexivity.
  - rewrite join_comma_cons, <- app_assoc. cbn [app].
    destruct (Hread (44 :: join_comma (it' :: items) ++ 93 :: rest)) as (n1 & Hn1);
      [cbn; auto |].
    destruct IH as (n2 & Hn2); [discriminate |].
    exists (S (Nat.max n1 n2)). rewrite parse_elements_S.
    rewrite (parse_value_mono n1 _ _ _ (Nat.le_max_l n1 n2) Hn1).
    cbn [skip_ws is_json_ws N.eqb Pos.eqb orb].
    assert (Hop : opens (join_comma (it' :: items) ++ 93 :: rest)).
    { apply join_comma_opens; [discriminate |].
      inversion Hall as [|? ? ? ? [Ho _] Hrest]; subst. constructor; [exact Ho |].
      clear -Hrest. induction Hrest as [|? ? ? ? [Ho _] _ IH']; constructor; assumption. }
    destruct Hop as (c & tl & Heq & Hc & _). rewrite Heq in *.
    cbn [skip_ws]. rewrite Hc.
    rewrite (parse_elements_mono n2 _ _ _ (Nat.le_max_r n1 n2) Hn2). reflexivity.
Qed.

Lemma Forall2_reads_opens (items : list jsstring) (vals : list value) :
  Forall2 reads_as items vals -> Forall opens items.
Proof. induction 1 as [|? ? ? ? [Ho _] _ IH]; constructor; assumption. Qed.

Lemma reads_array {A : Type} (f : A -> jsstring) (g : A -> value) (l : list A) :
  (forall x, reads_as (f x) (g x)) ->
  reads_as (stringify_array f l) (JArr (map g l)).
Proof.
  intros Hfg. split.
  - exists 91. eexists. split; [reflexivity |]. repeat split; first [reflexivity | discriminate].
  - intros rest _. unfold stringify_array. cbn [app]. rewrite <- app_assoc. cbn [app].
    destruct l as [|x l].
    + exists 1%nat. reflexivity.
    + assert (Hall : Forall2 reads_as (map f (x :: l)) (map g (x :: l))).
      { induction (x :: l) as [|y l' IH]; constructor; [apply Hfg | exact IH]. }
      assert (Hne : map f (x :: l) <> []) by (cbn; discriminate).
      destruct (parse_elements_items _ _ rest Hne Hall) as (n & Hn).
      exists (S n). rewrite parse_value_S. cbn [N.eqb Pos.eqb].
      pose proof (join_comma_opens (map f (x :: l)) (93 :: rest) Hne
                    (Forall2_reads_opens _ _ Hall)) as (c & tl & Heq & Hc & Hc93 & _).
      rewrite Heq in *. cbn [skip_ws]. rewrite Hc.
      destruct (N.eqb_spec c 93); [contradiction |]. rewrite Hn. reflexivity.
Qed.

Lemma reads_string (s : jsstring) : reads_as (quote s) (JStr s).
Proof.
  split.
  - exists 34. eexists. split; [reflexivity |]. repeat split; first [reflexivity | discriminate].
  - intros rest _. exists 1%nat. unfold quote. cbn [app]. rewrite <- app_assoc.
    rewrite parse_value_S. cbn [N.eqb Pos.eqb app]. rewrite parse_quote_chars. reflexivity.
Qed.

Lemma reads_nat (n : nat) :
  reads_as (string_of_N (N.of_nat n)) (JNum (inject_Z (Z.of_nat n))).
Proof.
  assert (Hfirst : exists c tl, string_of_N (N.of_nat n) = c :: tl /\ is_digit c = true).
  { destruct (string_of_N_spec (N.of_nat n)) as [[_ ->] | (c & ds & -> & _ & Hall & _)].
    - exists 48, []. split; reflexivity.
    - exists c, ds. split; [reflexivity |]. inversion Hall; assumption. }
  destruct Hfirst as (c & tl & Heq & Hd).
  unfold is_digit in Hd. apply andb_true_iff in Hd as [H1 H2]. apply N.leb_le in H1, H2.
  split.
  - exists c, tl. split; [exact Heq |]. repeat split; [| lia | lia].
    unfold is_json_ws. repeat (apply orb_false_iff; split); apply N.eqb_neq; lia.
  - intros rest Hrest. exists 1%nat.
    pose proof (parse_number_digits (N.of_nat n) rest Hrest) as Hnum.
    rewrite nat_N_Z in Hnum. rewrite Heq in *. cbn [app] in *. rewrite parse_value_S.
    destruct (N.eqb_spec c 34); [lia |].
    destruct (N.eqb_spec c 91); [lia |].
    destruct (N.eqb_spec c 123); [lia |].
    unfold parse_literal.
    change (js "null") with [110; 117; 108; 108].
    change (js "true") with [116; 114; 117; 101].
    change (js "false") with [102; 97; 108; 115; 101].
    cbn [strip_prefix].
    destruct (N.eqb_spec 110 c); [lia |].
    destruct (N.eqb_spec 116 c); [lia |].
    destruct (N.eqb_spec 102 c); [lia |].
    rewrite Hnum. reflexivity.
Qed.

Lemma parse_key_member (k item rest : jsstring) :
  opens item ->
  parse_key (stringify_member k item ++ rest) = Some (k, item ++ rest).
Proof.
  intros Hopen. unfold stringify_member, quote. cbn [app]. rewrite <- !app_assoc.
  cbn [app parse_key N.eqb Pos.eqb]. rewrite parse_quote_chars.
  cbn [skip_ws is_json_ws N.eqb Pos.eqb orb]. rewrite skip_ws_opens by exact Hopen.
  reflexivity.
Qed.

Lemma member_opens (k item : jsstring) : opens (stringify_member k item).
Proof.
  exists 34. eexists. split; [reflexivity |]. repeat split; first [reflexivity | discriminate].
Qed.

Lemma parse_members_items (members : list (jsstring * jsstring)) (vals : list value)
    (rest : jsstring) :
  members <> [] ->
  Forall2 (fun m v => reads_as (snd m) v) members vals ->
  exists n,
    parse_members n
      (join_comma (map (fun m => stringify_member (fst m) (snd m)) members) ++ 125 :: rest)
    = Some (combine (map fst members) vals, rest).
Proof.
  intros Hne Hall. induction Hall as [|[k it] v members vals [Hopen Hread] Hall IH];
    [contradiction |].
  cbn [fst snd] in *. destruct members as [|m' members].
  - inversion Hall; subst. cbn [map join_comma combine fst snd].
    destruct (Hread (125 :: rest)) as (n & Hn); [cbn; auto |].
    exists (S n). rewrite parse_members_S, parse_key_member by exact Hopen.
    rewrite Hn. reflexivity.
  - remember (m' :: members) as ms eqn:Hms.
    assert (Hms' : map (fun m => stringify_member (fst m) (snd m)) ms <> [])
      by (subst ms; cbn; discriminate).
    cbn [map fst snd combine]. rewrite (join_comma_more _ _ Hms'), <- app_assoc. cbn [app].
    set (tail := join_comma (map (fun m => stringify_member (fst m) (snd m)) ms)
                 ++ 125 :: rest) in *.
    destruct (Hread (44 :: tail)) as (n1 & Hn1); [cbn; auto |].
    destruct IH as (n2 & Hn2); [subst ms; discriminate |].
    exists (S (Nat.max n1 n2)). rewrite parse_members_S, parse_key_member by exact Hopen.
    rewrite (parse_value_mono n1 _ _ _ (Nat.le_max_l n1 n2) Hn1).
    cbn [skip_ws is_json_ws N.eqb Pos.eqb orb].
    assert (Hop : opens tail).
    { subst tail. apply join_comma_opens; [exact Hms' |].
      clear. induction ms; constructor; [apply member_opens | assumption]. }
    rewrite <- (app_nil_r tail), (skip_ws_opens tail [] Hop), app_nil_r.
    rewrite (parse_members_mono n2 _ _ _ (Nat.le_max_r n1 n2) Hn2). reflexivity.
Qed.

Lemma reads_object (members : list (jsstring * jsstring)) (vals : list value) :
  members <> [] ->
  Forall2 (fun m v => reads_as (snd m) v) members vals ->
  reads_as (123 :: join_comma (map (fun m => stringify_member (fst m) (snd m)) members)
              ++ [125])
           (JObj (build_object (combine (map fst members) vals))).
Proof.
  intros Hne Hall. split.
  - exists 123. eexists. split; [reflexivity |]. repeat split; first [reflexivity | discriminate].
  - intros rest _. cbn [app]. rewrite <- app_assoc. cbn [app].
    destruct (parse_members_items members vals rest Hne Hall) as (n & Hn).
    exists (S n). rewrite parse_value_S. cbn [N.eqb Pos.eqb].
    assert (Hop : opens (join_comma (map (fun m => stringify_member (fst m) (snd m)) members)
                         ++ 125 :: rest)).
    { apply join_comma_opens.
      - destruct members; [contradiction | discriminate].
      - clear. induction members; constructor; [apply member_opens | assumption]. }
    destruct Hop as (c & tl & Heq & Hc & _ & Hc125). rewrite Heq in *.
    cbn [skip_ws]. rewrite Hc. destruct (N.eqb_spec c 125); [contradiction |].
    rewrite Hn. reflexivity.
Qed.

Lemma reads_question (q : Question) :
  reads_as (stringify_question q) (value_of_question q).
Proof.
  exact (reads_object
           [ (js "question", quote (question q));
             (js "options", stringify_array quote (options q));
             (js "correctIndex", string_of_N (N.of_nat (correctIndex q)));
             (js "explanation", quote (explanation q)) ]
           [ JStr (question q); JArr (map JStr (options q));
             JNum (inject_Z (Z.of_nat (correctIndex q))); JStr (explanation q) ]
           ltac:(discriminate)
           ltac:(repeat constructor;
                 first [ apply reads_string | apply reads_nat
                       | apply (reads_array quote JStr); apply reads_string ])).
Qed.

Lemma reads_document (d : QuizDocument) :
  reads_as (stringify_document d) (value_of_document d).
Proof.
  exact (reads_object
           [ (js "questions", stringify_array stringify_question (questions d)) ]
           [ JArr (map value_of_question (questions d)) ]
           ltac:(discriminate)
           ltac:(repeat constructor;
                 apply (reads_array stringify_question value_of_question);
                 apply reads_question)).
Qed.

Lemma JSON_parse_stringify (d : QuizDocument) :
  JSON_parse (stringify_document d) = Some (value_of_document d).
Proof.
  destruct (reads_document d) as [Hopen Hread].
  destruct (Hread [] I) as (n & Hn). rewrite app_nil_r in Hn.
  apply (JSON_parse_complete n _ _ []); [| reflexivity].
  rewrite <- (app_nil_r (stringify_document d)), skip_ws_opens by exact Hopen.
  rewrite app_nil_r. exact Hn.
Qed.

(** ** Fenced blocks *)

Lemma JSON_parse_backquote (x : jsstring) : JSON_parse (96 :: x) = None.
Proof.
  unfold JSON_parse. cbn [skip_ws is_json_ws N.eqb Pos.eqb orb].
  rewrite Nat.add_1_r, parse_value_S. reflexivity.
Qed.

Lemma space_not_backquote (c : N) : is_space c = true -> (96 =? c) = false.
Proof.
  intros H. destruct (N.eqb_spec 96 c) as [<- |]; [discriminate H | reflexivity].
Qed.

Lemma trimStart_spaces (ws x : jsstring) :
  Forall (fun c => is_space c = true) ws -> trimStart (ws ++ x) = trimStart x.
Proof. induction 1 as [|c ws Hc _ IH]; [reflexivity |]. cbn. rewrite Hc. exact IH. Qed.

Lemma before_fence_spaces (ws y : jsstring) :
  Forall (fun c => is_space c = true) ws -> starts_with fence y = true ->
  before_fence (ws ++ y) = Some ws.
Proof.
  intros Hws Hy. induction Hws as [|c ws Hc _ IH].
  - destruct y; cbn [app before_fence]; rewrite Hy; reflexivity.
  - cbn [app before_fence]. unfold starts_with at 1, fence. cbn [strip_prefix].
    rewrite (space_not_backquote c Hc), IH. reflexivity.
Qed.

Lemma includes_cons (p : jsstring) (c : N) (s : jsstring) :
  includes p (c :: s) = false -> starts_with p (c :: s) = false /\ includes p s = false.
Proof. cbn [includes]. apply orb_false_iff. Qed.

Lemma before_fence_closed (b ws y : jsstring) :
  includes fence (b ++ [125]) = false ->
  Forall (fun c => is_space c = true) ws -> starts_with fence y = true ->
  before_fence ((b ++ [125]) ++ ws ++ y) = Some ((b ++ [125]) ++ ws).
Proof.
  intros Hb Hws Hy. induction b as [|c b IH].
  - cbn [app before_fence]. unfold starts_with at 1, fence. cbn [strip_prefix N.eqb Pos.eqb].
    rewrite (before_fence_spaces ws y Hws Hy). reflexivity.
  - change ((c :: b) ++ [125]) with (c :: (b ++ [125])) in *.
    apply includes_cons in Hb as [Hhead Htail].
    cbn [app before_fence]. rewrite (IH Htail).
    assert (Hstart : starts_with fence (c :: (b ++ [125]) ++ ws ++ y) = false).
    { revert Hhead. unfold starts_with, fence. destruct b as [|c2 [|c3 b]];
        cbn [app strip_prefix]; destruct (96 =? c); try reflexivity.
      - destruct (96 =? c2); reflexivity.
      - destruct (96 =? c2); [| reflexivity]. destruct (96 =? c3); [discriminate | reflexivity]. }
    rewrite Hstart. reflexivity.
Qed.

Lemma trim_closed (b ws : jsstring) :
  Forall (fun c => is_space c = true) ws ->
  trim ((123 :: b ++ [125]) ++ ws) = 123 :: b ++ [125].
Proof.
  intros Hws. unfold trim, trimEnd.
  assert (H1 : forall x, trimStart (123 :: x) = 123 :: x) by reflexivity.
  assert (H2 : forall x, trimStart (125 :: x) = 125 :: x) by reflexivity.
  cbn [app]. rewrite H1.
  change (123 :: (b ++ [125]) ++ ws) with (((123 :: b) ++ [125]) ++ ws).
  rewrite !rev_app_distr, trimStart_spaces by (apply Forall_rev; exact Hws).
  cbn [rev app]. rewrite H2. cbn [rev]. rewrite rev_app_distr, rev_involutive.
  reflexivity.
Qed.

Lemma codeBlockMatch_fenced (tag ws1 b ws2 post : jsstring) :
  tag = [] \/ tag = js "json" ->
  Forall (fun c => is_space c = true) ws1 ->
  Forall (fun c => is_space c = true) ws2 ->
  includes fence (123 :: b ++ [125]) = false ->
  codeBlockMatch (fence ++ tag ++ ws1 ++ (123 :: b ++ [125]) ++ ws2 ++ fence ++ post)
  = Some ((123 :: b ++ [125]) ++ ws2).
Proof.
  intros Htag Hws1 Hws2 Hb. unfold codeBlockMatch.
  assert (Hafter : forall x, after_fence (fence ++ x) = Some x).
  { intros x. destruct x; reflexivity. }
  rewrite Hafter.
  set (s := 123 :: b ++ [125]) in *.
  assert (Hrest : trimStart (ws1 ++ s ++ ws2 ++ fence ++ post) = s ++ ws2 ++ fence ++ post).
  { rewrite trimStart_spaces by exact Hws1. reflexivity. }
  assert (Hbefore : before_fence (s ++ ws2 ++ fence ++ post) = Some (s ++ ws2)).
  { subst s. change (123 :: b ++ [125]) with ((123 :: b) ++ [125]) in *.
    apply before_fence_closed; [exact Hb | exact Hws2 | reflexivity]. }
  destruct Htag as [-> | ->].
  - cbn [app].
    assert (Hno : strip_prefix (js "json") (ws1 ++ s ++ ws2 ++ fence ++ post) = None).
    { change (js "json") with [106; 115; 111; 110].
      destruct Hws1 as [|c ws1 Hc _]; [reflexivity |]. cbn [app strip_prefix].
      destruct (N.eqb_spec 106 c) as [<- |]; [discriminate Hc | reflexivity]. }
    rewrite Hno, Hrest. exact Hbefore.
  - rewrite strip_prefix_app, Hrest. exact Hbefore.
Qed.

Lemma parseQuizJSON_fenced (d : QuizDocument) (tag ws1 ws2 post : jsstring) :
  tag = [] \/ tag = js "json" ->
  Forall (fun c => is_space c = true) ws1 ->
  Forall (fun c => is_space c = true) ws2 ->
  includes fence (stringify_document d) = false ->
  parseQuizJSON (fence ++ tag ++ ws1 ++ stringify_document d ++ ws2 ++ fence ++ post)
  = Return (value_of_document d).
Proof.
  intros Htag Hws1 Hws2 Hd. unfold parseQuizJSON.
  change (fence ++ tag ++ ws1 ++ stringify_document d ++ ws2 ++ fence ++ post)
    with (96 :: [96; 96] ++ tag ++ ws1 ++ stringify_document d ++ ws2 ++ fence ++ post) at 1.
  rewrite JSON_parse_backquote.
  unfold stringify_document in *.
  rewrite codeBlockMatch_fenced by assumption.
  rewrite trim_closed by assumption.
  fold (stringify_document d). rewrite JSON_parse_stringify. reflexivity.
Qed.

End Parser.

(** ** The store *)

Section StoreFacts.

Implicit Types (w : World) (u m : gmap string value) (k : string).

Lemma storage_set_lookup u m k :
  storage_set u m !! k = match u !! k with Some v => Some v | None => m !! k end.
Proof.
  unfold storage_set. rewrite lookup_union.
  destruct (u !! k), (m !! k); reflexivity.
Qed.

Lemma write_lookup u w k :
  store (write u w) !! k = match u !! k with Some v => Some v | None => store w !! k end.
Proof. apply storage_set_lookup. Qed.

Lemma write_trace u w : trace (write u w) = trace w.
Proof. reflexivity. Qed.

Lemma emit_store e w : store (emit e w) = store w.
Proof. reflexivity. Qed.

Lemma emit_trace e w : trace (emit e w) = trace w ++ [e].
Proof. reflexivity. Qed.

Lemma storage_get_lookup (d m : gmap string value) k :
  storage_get d m !! k = (fun x => default x (m !! k)) <$> d !! k.
Proof.
  unfold storage_get. rewrite map_lookup_imap.
  destruct (d !! k); reflexivity.
Qed.

End StoreFacts.

Ltac store_simpl :=
  repeat (rewrite ?write_lookup, ?emit_store, ?emit_trace, ?write_trace,
            ?storage_get_lookup, ?storage_set_lookup;
          cbn [list_to_map foldr uncurry fst snd];
          rewrite ?lookup_insert_eq, ?lookup_empty;
          repeat (rewrite lookup_insert_ne by discriminate)).

Example questionCount_examples :
  questionCount 1000 15 = 6%Z /\ questionCount 100 15 = 3%Z /\ questionCount 3000 5 = 5%Z
  /\ questionCount 750 10 = 5%Z.
Proof. repeat split. Qed.

Lemma questionCount_clamp (W M : Z) :
  (3 <= M)%Z -> questionCount W M = clamp (W / 150) 3 M.
Proof.
  intros HM. unfold questionCount, clamp.
  destruct (Z.eqb_spec M 0); [lia |].
  destruct (Z.ltb_spec (W / 150) 3), (Z.ltb_spec M (W / 150)); lia.
Qed.


(** ** The start of a generation *)

Section Start.

Variable eng : Engine.

Lemma started_store (page : PageText) (w : World) (k : string) :
  store (started page w) !! k =
    match generatingSession page !! k with
    | Some v => Some v
    | None => store w !! k
    end.
Proof. unfold started. rewrite emit_store. apply write_lookup. Qed.

Lemma started_state (page : PageText) (w : World) :
  store (started page w) !! "quizState" = Some (str "generating")
  /\ store (started page w) !! "quizData" = Some JNull.
Proof. rewrite !started_store. unfold generatingSession. split; store_simpl; reflexivity. Qed.

Lemma started_trace (page : PageText) (w : World) :
  trace (started page w) = trace w ++ [Responded generatingResponse].
Proof. reflexivity. Qed.

Lemma started_provider (page : PageText) (w : World) :
  provider (newLLMProvider (getSettings (store (started page w))))
  = string_or (store w !! "provider") (js "ollama").
Proof.
  unfold newLLMProvider, getSettings. cbn [provider].
  rewrite storage_get_lookup, started_store.
  unfold settings_defaults, generatingSession. store_simpl.
  cbn [fmap option_fmap option_map].
  destruct (store w !! "provider") as [[| | | [|c s] | |]|]; reflexivity.
Qed.

Lemma started_maxQuestions (page : PageText) (w : World) :
  getSettings (store (started page w)) !! "maxQuestions"
  = Some (default (num 15) (store w !! "maxQuestions")).
Proof.
  unfold getSettings. rewrite storage_get_lookup, started_store.
  unfold settings_defaults, generatingSession. store_simpl. reflexivity.
Qed.

(** When a tab is active, the page gives at least 50 words and the
    configured provider is one of the three, [handleGenerateQuiz] marks the
    session as generating, answers, and asks the provider. *)
Lemma handleGenerateQuiz_dispatch (tabId : Z) (page : PageText) (w : World) (p : Provider) :
  tabId <> 0%Z ->
  (50 <= wordCount page)%Z ->
  provider_of (string_or (store w !! "provider") (js "ollama")) = Some p ->
  handleGenerateQuiz eng (Return (Some tabId)) (Return (Some page)) w =
    (emit (ProviderCall (newLLMProvider (getSettings (store (started page w)))) p
             (GenerateQuiz (text page)
                (questionCount (wordCount page)
                   (int_or_zero (Some (default (num 15) (store w !! "maxQuestions")))))))
          (started page w),
     Some {| llm := newLLMProvider (getSettings (store (started page w)));
             llmProvider := p; sourceText := text page |}).
Proof.
  intros Htab Hwc Hp. unfold handleGenerateQuiz.
  destruct (Z.eqb_spec tabId 0) as [|_]; [contradiction |].
  destruct (Z.ltb_spec (wordCount page) 50) as [|_]; [lia |].
  cbv zeta. rewrite started_provider, Hp, started_maxQuestions. reflexivity.
Qed.

End Start.

(** ** Claims on the start of a generation *)

(** C1, as the code has it: [handleGenerateQuiz] does not look at the
    state of the session.  Started while the state is [generating], with an
    active tab, a page of at least 50 words and one of the three providers
    configured, it writes [generating] again and sends one more
    [generateQuiz] request to the provider. *)
Theorem start_while_generating_dispatches
    (eng : Engine) (tabId : Z) (page : PageText) (w : World) (p : Provider) :
  store w !! "quizState" = Some (str "generating") ->
  tabId <> 0%Z ->
  (50 <= wordCount page)%Z ->
  provider_of (string_or (store w !! "provider") (js "ollama")) = Some p ->
  let r := handleGenerateQuiz eng (Return (Some tabId)) (Return (Some page)) w in
  store (fst r) !! "quizState" = Some (str "generating")
  /\ is_Some (snd r)
  /\ generateCalls (trace (fst r)) = S (generateCalls (trace w)).
Proof.
  intros _ Htab Hwc Hp r. subst r.
  rewrite (handleGenerateQuiz_dispatch eng tabId page w p Htab Hwc Hp).
  cbn [fst snd]. rewrite emit_store, emit_trace, started_trace.
  split; [apply started_state |]. split; [eexists; reflexivity |].
  unfold generateCalls. rewrite !List.filter_app, !length_app. cbn. lia.
Qed.

Lemma start_while_generating_dispatches_witness :
  store Sample.generating !! "quizState" = Some (str "generating")
  /\ generateCalls
       (trace (fst (handleGenerateQuiz Sample.engine Sample.tab
                      (Return (Some Sample.longPage)) Sample.generating)))
     = S (generateCalls (trace Sample.generating)).
Proof.
  split; [vm_compute; reflexivity |].
  apply (start_while_generating_dispatches Sample.engine 7 Sample.longPage
           Sample.generating Ollama).
  - vm_compute. reflexivity.
  - discriminate.
  - vm_compute. discriminate.
  - vm_compute. reflexivity.
Defined.

(** C1 as stated fails: on a fresh store, with the default provider, a
    first start leaves a call in flight and the state [generating]; a
    second start, before any answer of the provider, sends a second
    [generateQuiz] request. *)
Lemma start_not_gated :
  store Sample.generating !! "quizState" = Some (str "generating")
  /\ is_Some (snd (handleGenerateQuiz Sample.engine Sample.tab
                     (Return (Some Sample.longPage)) Sample.fresh))
  /\ generateCalls (trace Sample.generating) = 1%nat
  /\ generateCalls
       (trace (fst (handleGenerateQuiz Sample.engine Sample.tab
                      (Return (Some Sample.longPage)) Sample.generating))) = 2%nat.
Proof.
  vm_compute. repeat split. eexists; reflexivity.
Qed.

Lemma int_or_zero_num (z : Z) : int_or_zero (Some (num z)) = z.
Proof. reflexivity. Qed.

(** C2: for a page of at least 50 words and a stored maximum [M] that
    the options page can save (3 to 15; the proof needs only that it is at
    least 3), the count sent to the provider is
    [clamp (floor (W / 150)) 3 M]; the three examples of the spec. *)
Theorem question_count_is_clamp
    (eng : Engine) (tabId : Z) (page : PageText) (w : World) (p : Provider) (M : Z) :
  tabId <> 0%Z ->
  (50 <= wordCount page)%Z ->
  (3 <= M)%Z ->
  store w !! "maxQuestions" = Some (num M) ->
  provider_of (string_or (store w !! "provider") (js "ollama")) = Some p ->
  questionCount (wordCount page) M = clamp (wordCount page / 150) 3 M
  /\ (exists llm,
        trace (fst (handleGenerateQuiz eng (Return (Some tabId)) (Return (Some page)) w))
        = trace w ++ [ Responded generatingResponse;
                       ProviderCall llm p
                         (GenerateQuiz (text page) (clamp (wordCount page / 150) 3 M)) ])
  /\ questionCount 1000 15 = 6%Z
  /\ questionCount 100 15 = 3%Z
  /\ questionCount 3000 5 = 5%Z.
Proof.
  intros Htab Hwc HM Hmax Hp.
  assert (Hq : questionCount (wordCount page) M = clamp (wordCount page / 150) 3 M)
    by (apply questionCount_clamp; exact HM).
  split; [exact Hq |]. split; [| repeat split].
  rewrite (handleGenerateQuiz_dispatch eng tabId page w p Htab Hwc Hp).
  cbn [fst]. rewrite emit_trace, started_trace, Hmax.
  change (default (num 15) (Some (num M))) with (num M).
  rewrite int_or_zero_num, Hq, <- app_assoc. eexists. reflexivity.
Qed.

Lemma question_count_is_clamp_witness :
  questionCount (wordCount Sample.longPage) 5 = clamp (wordCount Sample.longPage / 150) 3 5
  /\ (exists llm,
        trace (fst (handleGenerateQuiz Sample.engine Sample.tab
                      (Return (Some Sample.longPage)) Sample.configured))
        = trace Sample.configured
            ++ [ Responded generatingResponse;
                 ProviderCall llm Ollama
                   (GenerateQuiz (text Sample.longPage)
                      (clamp (wordCount Sample.longPage / 150) 3 5)) ])
  /\ questionCount 1000 15 = 6%Z
  /\ questionCount 100 15 = 3%Z
  /\ questionCount 3000 5 = 5%Z.
Proof.
  apply (question_count_is_clamp Sample.engine 7 Sample.longPage Sample.configured Ollama 5).
  - discriminate.
  - vm_compute. discriminate.
  - lia.
  - vm_compute. reflexivity.
  - vm_compute. reflexivity.
Defined.

(** C3: when the extracted text has fewer than 50 words,
    [handleGenerateQuiz] stores the state [error] with the message "Not
    enough readable content on this page", answers with that failure, and
    sends nothing to any provider: the failure answer is the only event,
    and no call is left in flight. *)
Theorem short_page_is_refused (eng : Engine) (tabId : Z) (page : PageText) (w : World) :
  tabId <> 0%Z ->
  (wordCount page < 50)%Z ->
  let r := handleGenerateQuiz eng (Return (Some tabId)) (Return (Some page)) w in
  store (fst r) !! "quizState" = Some (str "error")
  /\ store (fst r) !! "quizError" = Some (str "Not enough readable content on this page")
  /\ trace (fst r)
     = trace w ++ [Responded (failure "Not enough readable content on this page")]
  /\ snd r = None.
Proof.
  intros Htab Hwc r. subst r. unfold handleGenerateQuiz.
  destruct (Z.eqb_spec tabId 0) as [|_]; [contradiction |].
  destruct (Z.ltb_spec (wordCount page) 50) as [_|]; [| lia].
  cbn [fst snd]. unfold refuse, errorSession.
  repeat split; store_simpl; reflexivity.
Qed.

Lemma short_page_is_refused_witness :
  store (fst Sample.refused) !! "quizState" = Some (str "error")
  /\ store (fst Sample.refused) !! "quizError"
     = Some (str "Not enough readable content on this page")
  /\ trace (fst Sample.refused)
     = trace Sample.fresh ++ [Responded (failure "Not enough readable content on this page")]
  /\ snd Sample.refused = None.
Proof.
  apply (short_page_is_refused Sample.engine 7 Sample.shortPage Sample.fresh).
  - discriminate.
  - vm_compute. reflexivity.
Defined.

(** ** Failure of the primary generation *)

Lemma optional_lookup (k k' : string) (v : option value) :
  optional k v !! k' = if decide (k = k') then v else None.
Proof.
  unfold optional. destruct v as [x|].
  - rewrite lookup_singleton. reflexivity.
  - rewrite lookup_empty. destruct (decide (k = k')); reflexivity.
Qed.

Lemma handleSaveProgress_lookup (st cq ua : option value) (w : World) (k : string) :
  k <> "quizState" -> k <> "quizCurrentQuestion" -> k <> "quizUserAnswers" ->
  store (handleSaveProgress st cq ua w) !! k = store w !! k.
Proof.
  intros H1 H2 H3. unfold handleSaveProgress.
  rewrite emit_store, write_lookup, !lookup_union, !optional_lookup.
  repeat (destruct (decide _); [congruence |]). reflexivity.
Qed.


Lemma catch_spec (eng : Engine) (e : exn) (w : World) :
  store (catch eng e w) !! "quizState" = Some (str "error")
  /\ store (catch eng e w) !! "quizError" = Some (JStr (message eng e))
  /\ store (catch eng e w) !! "quizData" = store w !! "quizData"
  /\ trace (catch eng e w)
     = trace w ++ [NotifyError (js "Quiz generation failed: " ++ message eng e)].
Proof.
  unfold catch, errorSession. repeat split; store_simpl; reflexivity.
Qed.




(** ** The explanations *)

Lemma shownExplanation_absent (detailed : option value) (i : nat) (q : value) :
  detailed = None \/ detailed = Some JNull ->
  shownExplanation detailed i q = js_or (property q "explanation") (Some (JStr [])).
Proof. intros [-> | ->]; reflexivity. Qed.

(** C5: the explanation call writes at most the key [quizExplanations]
    and sends nothing out.  When it succeeds with an array of
    explanations, the array is stored under that key; when the provider or
    the parser throws, the world stays as it is.  Without stored
    explanations, [showResults] prints the explanation that comes with the
    question (and nothing when that is empty or missing). *)
Theorem enrichment_only_writes_explanations
    (pending : Pending) (reply : ProviderReply) (w : World) :
  (forall k : string, k <> "quizExplanations" ->
     store (generateExplanationsInBackground pending reply w) !! k = store w !! k)
  /\ trace (generateExplanationsInBackground pending reply w) = trace w
  /\ (forall m l, parseReply (llmProvider pending) reply = Return (JObj m) ->
        obj_get (js "explanations") m = Some (JArr l) ->
        store (generateExplanationsInBackground pending reply w) !! "quizExplanations"
        = Some (JArr l))
  /\ (forall e, parseReply (llmProvider pending) reply = Throw e ->
        generateExplanationsInBackground pending reply w = w)
  /\ (forall detailed i q c e,
        detailed = None \/ detailed = Some JNull ->
        property q "explanation" = Some (JStr (c :: e)) ->
        shownExplanation detailed i q = Some (JStr (c :: e))).
Proof.
  unfold generateExplanationsInBackground. repeat split.
  - intros k Hk. destruct (parseReply _ reply) as [[| | | | |m]|]; try reflexivity.
    destruct (obj_get _ m) as [[| | | |l|]|]; try reflexivity.
    rewrite write_lookup, lookup_singleton_ne by congruence. reflexivity.
  - destruct (parseReply _ reply) as [[| | | | |m]|]; try reflexivity.
    destruct (obj_get _ m) as [[| | | |l|]|]; reflexivity.
  - intros m l -> ->. rewrite write_lookup, lookup_singleton_eq. reflexivity.
  - intros e ->. reflexivity.
  - intros detailed i q c e Hd Hq. rewrite shownExplanation_absent by exact Hd.
    rewrite Hq. reflexivity.
Qed.

Lemma enrichment_only_writes_explanations_witness :
  store (generateExplanationsInBackground Sample.pending (HttpError 503 [])
           Sample.generating) !! "quizState"
    = store Sample.generating !! "quizState"
  /\ generateExplanationsInBackground Sample.pending (HttpError 503 []) Sample.generating
     = Sample.generating
  /\ shownExplanation None 0 Sample.terse = Some (str "Because b.").
Proof.
  destruct (enrichment_only_writes_explanations Sample.pending (HttpError 503 [])
              Sample.generating) as (Hframe & _ & _ & Hfail & Hshow).
  split; [apply Hframe; discriminate |].
  split; [eapply Hfail; vm_compute; reflexivity |].
  apply (Hshow None 0%nat Sample.terse); [left; reflexivity | vm_compute; reflexivity].
Defined.

(** ** Answering and advancing *)

Lemma before_last_array (current : nat) (qs : list value) :
  before_last current (JArr qs) = (Z.of_nat current <? Z.of_nat (length qs) - 1)%Z.
Proof.
  unfold before_last, length_number, length_of, num, Qltb, Qle_bool. cbn.
  rewrite !Z.mul_1_r.
  destruct (Z.leb_spec (Z.of_nat (length qs) + -1) (Z.of_nat current)),
           (Z.ltb_spec (Z.of_nat current) (Z.of_nat (length qs) - 1)); cbn; lia.
Qed.

Lemma deliver_saveProgress (eng : Engine) tab script (state : string) (question : nat)
    (answers : list (option value)) (w : World) :
  let w' := deliver eng tab script [saveProgressMsg state question answers] w in
  store w' !! "quizState" = Some (str state)
  /\ store w' !! "quizCurrentQuestion" = Some (num (Z.of_nat question))
  /\ store w' !! "quizUserAnswers" = Some (send_array answers)
  /\ forall k, k <> "quizState" -> k <> "quizCurrentQuestion" -> k <> "quizUserAnswers" ->
       store w' !! k = store w !! k.
Proof.
  intros w'. subst w'. unfold deliver, saveProgressMsg. cbn [fold_left onMessage fst].
  repeat split.
  4: intros k H1 H2 H3; apply handleSaveProgress_lookup; assumption.
  all: unfold handleSaveProgress; rewrite emit_store, write_lookup, !lookup_union,
         !optional_lookup; reflexivity.
Qed.

Section Advance.

Variables (p : Popup) (m : list (jsstring * value)) (qs : list value).
Hypothesis Hquiz : quiz p = Some (JObj m).
Hypothesis Hqs : obj_get (js "questions") m = Some (JArr qs).

Lemma nextQuestion_unanswered :
  array_get (currentQuestion p) (userAnswers p) = None -> nextQuestion p = (p, []).
Proof. intros H. unfold nextQuestion. rewrite H. reflexivity. Qed.

Lemma nextQuestion_next (a : value) :
  array_get (currentQuestion p) (userAnswers p) = Some a ->
  (S (currentQuestion p) < length qs)%nat ->
  nextQuestion p =
    ({| quiz := quiz p; currentQuestion := S (currentQuestion p);
        userAnswers := userAnswers p; polling := polling p |},
     [saveProgressMsg "in_progress" (S (currentQuestion p)) (userAnswers p)]).
Proof.
  intros Ha Hlt. unfold nextQuestion. rewrite Ha, Hquiz. cbn [questions_of].
  rewrite Hqs, before_last_array.
  destruct (Z.ltb_spec (Z.of_nat (currentQuestion p)) (Z.of_nat (length qs) - 1));
    [reflexivity | lia].
Qed.

Lemma nextQuestion_last (a : value) :
  array_get (currentQuestion p) (userAnswers p) = Some a ->
  S (currentQuestion p) = length qs ->
  nextQuestion p =
    (p, [saveProgressMsg "completed" (currentQuestion p) (userAnswers p)]).
Proof.
  intros Ha Hlast. unfold nextQuestion. rewrite Ha, Hquiz. cbn [questions_of].
  rewrite Hqs, before_last_array.
  destruct (Z.ltb_spec (Z.of_nat (currentQuestion p)) (Z.of_nat (length qs) - 1));
    [lia | reflexivity].
Qed.

End Advance.

(** C6: in a popup whose quiz has the questions [qs] and whose current
    index is one of them, [nextQuestion] does nothing while the answer of
    the current question is unset; with an answer and a question left it
    moves to the next index and saves the state [in_progress]; with an
    answer on the last question it saves the state [completed]. *)
Theorem advance_needs_an_answer
    (eng : Engine) tab script (p : Popup) (m : list (jsstring * value))
    (qs : list value) (w : World) :
  quiz p = Some (JObj m) ->
  obj_get (js "questions") m = Some (JArr qs) ->
  (currentQuestion p < length qs)%nat ->
  (array_get (currentQuestion p) (userAnswers p) = None ->
     nextQuestion p = (p, []))
  /\ (forall a, array_get (currentQuestion p) (userAnswers p) = Some a ->
        (S (currentQuestion p) < length qs)%nat ->
        currentQuestion (fst (nextQuestion p)) = S (currentQuestion p)
        /\ userAnswers (fst (nextQuestion p)) = userAnswers p
        /\ quiz (fst (nextQuestion p)) = quiz p
        /\ snd (nextQuestion p)
           = [saveProgressMsg "in_progress" (S (currentQuestion p)) (userAnswers p)]
        /\ store (deliver eng tab script (snd (nextQuestion p)) w) !! "quizState"
           = Some (str "in_progress")
        /\ store (deliver eng tab script (snd (nextQuestion p)) w) !! "quizCurrentQuestion"
           = Some (num (Z.of_nat (S (currentQuestion p)))))
  /\ (forall a, array_get (currentQuestion p) (userAnswers p) = Some a ->
        S (currentQuestion p) = length qs ->
        fst (nextQuestion p) = p
        /\ snd (nextQuestion p)
           = [saveProgressMsg "completed" (currentQuestion p) (userAnswers p)]
        /\ store (deliver eng tab script (snd (nextQuestion p)) w) !! "quizState"
           = Some (str "completed")).
Proof.
  intros Hquiz Hqs Hcur. split; [apply nextQuestion_unanswered |]. split.
  - intros a Ha Hlt. rewrite (nextQuestion_next p m qs Hquiz Hqs a Ha Hlt).
    cbn [fst snd currentQuestion userAnswers quiz].
    repeat split; apply deliver_saveProgress.
  - intros a Ha Hlast. rewrite (nextQuestion_last p m qs Hquiz Hqs a Ha Hlast).
    cbn [fst snd]. repeat split. apply deliver_saveProgress.
Qed.

Lemma advance_needs_an_answer_witness :
  nextQuestion Sample.unanswered = (Sample.unanswered, [])
  /\ currentQuestion (fst (nextQuestion Sample.answered)) = 1%nat
  /\ store (deliver Sample.engine Sample.tab (Return None)
              (snd (nextQuestion Sample.answered)) Sample.fresh) !! "quizState"
     = Some (str "in_progress").
Proof.
  destruct (advance_needs_an_answer Sample.engine Sample.tab (Return None)
              Sample.unanswered [ (js "questions", JArr [Sample.terse; Sample.terse]) ]
              [Sample.terse; Sample.terse] Sample.fresh)
    as (Hnone & _); [reflexivity | reflexivity | cbn; lia |].
  destruct (advance_needs_an_answer Sample.engine Sample.tab (Return None)
              Sample.answered [ (js "questions", JArr [Sample.terse; Sample.terse]) ]
              [Sample.terse; Sample.terse] Sample.fresh)
    as (_ & Hnext & _); [reflexivity | reflexivity | cbn; lia |].
  split; [apply Hnone; reflexivity |].
  destruct (Hnext (num 2)) as (H1 & _ & _ & _ & H2 & _); [reflexivity | cbn; lia |].
  split; [exact H1 | exact H2].
Defined.

(** ** Opening the popup on a ready quiz *)

Lemma state_or_idle_stored (data : gmap string value) (name : string) :
  data !! "quizState" = Some (str name) -> name <> EmptyString ->
  state_or_idle data = js name.
Proof.
  intros H Hne. unfold state_or_idle. rewrite H. destruct name; [contradiction | reflexivity].
Qed.

(** C10: opening the popup on a store whose state is [ready], or a tick
    of the poll on it, loads the quiz, sets the index to 0 and the answers
    to none, and sends at once [saveProgress('in_progress', 0, [])]; once
    the service worker has handled it the store holds [in_progress], index
    0 and an empty array of answers, and the next opening finds
    [in_progress] and sends nothing. *)
Theorem ready_is_seen_once (eng : Engine) tab script (w : World) (p : Popup) :
  store w !! "quizState" = Some (str "ready") ->
  let opened := restoreSession (store w) p in
  let w' := deliver eng tab script (snd opened) w in
  snd opened = [saveProgressMsg "in_progress" 0 []]
  /\ quiz (fst opened) = store w !! "quizData"
  /\ currentQuestion (fst opened) = 0%nat
  /\ userAnswers (fst opened) = []
  /\ (polling p = true -> pollTick (store w) p
        = ({| quiz := store w !! "quizData"; currentQuestion := 0; userAnswers := [];
              polling := false |}, snd opened))
  /\ store w' !! "quizState" = Some (str "in_progress")
  /\ store w' !! "quizCurrentQuestion" = Some (num 0)
  /\ store w' !! "quizUserAnswers" = Some (JArr [])
  /\ state_or_idle (store w') = js "in_progress"
  /\ forall p', snd (restoreSession (store w') p') = [].
Proof.
  intros Hready opened w'.
  assert (Hopened : opened = ({| quiz := store w !! "quizData"; currentQuestion := 0;
                                 userAnswers := []; polling := polling p |},
                              [saveProgressMsg "in_progress" 0 []])).
  { subst opened. unfold restoreSession.
    rewrite (state_or_idle_stored (store w) "ready" Hready) by discriminate. reflexivity. }
  subst w'. rewrite Hopened. cbn [fst snd quiz currentQuestion userAnswers].
  destruct (deliver_saveProgress eng tab script "in_progress" 0 [] w) as (H1 & H2 & H3 & _).
  assert (Hstate : state_or_idle
                     (store (deliver eng tab script [saveProgressMsg "in_progress" 0 []] w))
                   = js "in_progress")
    by (apply state_or_idle_stored; [exact H1 | discriminate]).
  repeat split; try assumption.
  - intros Hpoll. unfold pollTick. rewrite Hpoll, Hready. reflexivity.
  - intros p'. unfold restoreSession. rewrite Hstate. reflexivity.
Qed.

Lemma ready_is_seen_once_witness :
  snd (restoreSession (store Sample.ready) Popup.initial) = [saveProgressMsg "in_progress" 0 []]
  /\ store (deliver Sample.engine Sample.tab (Return None)
              (snd (restoreSession (store Sample.ready) Popup.initial)) Sample.ready)
       !! "quizState" = Some (str "in_progress").
Proof.
  destruct (ready_is_seen_once Sample.engine Sample.tab (Return None) Sample.ready
              Popup.initial) as (H1 & _ & _ & _ & _ & H2 & _).
  - vm_compute. reflexivity.
  - split; [exact H1 | exact H2].
Defined.

(** ** Content selection *)

Section Selection.

Local Open Scope Q_scope.

Lemma Qltb_lt (a b : Q) : Qltb a b = true <-> a < b.
Proof.
  unfold Qltb. rewrite negb_true_iff. split.
  - intros H. apply Qnot_le_lt. intros Hle. apply Qle_bool_iff in Hle. congruence.
  - intros H. destruct (Qle_bool b a) eqn:E; [| reflexivity].
    apply Qle_bool_iff in E. exfalso. exact (Qlt_not_le _ _ H E).
Qed.

Lemma Qltb_ge (a b : Q) : Qltb a b = false <-> b <= a.
Proof.
  unfold Qltb. rewrite negb_false_iff. apply Qle_bool_iff.
Qed.

(** The hidden and tiny elements do not count. *)
Lemma fold_consider_filter (l : list Element) (st : option Element * Q) :
  fold_left consider l st
  = fold_left consider (List.filter (fun el => negb (isHiddenOrTiny el)) l) st.
Proof.
  revert st. induction l as [|x l IH]; intros st; [reflexivity |].
  cbn [List.filter fold_left]. destruct (isHiddenOrTiny x) eqn:E; cbn [negb].
  - unfold consider at 2. rewrite E. apply IH.
  - cbn [fold_left]. apply IH.
Qed.

Lemma fold_selectors (doc : Document) (sels : list Selector) (st : option Element * Q) :
  fold_left (fun st selector => fold_left consider (querySelectorAll doc selector) st) sels st
  = fold_left consider (flat_map (querySelectorAll doc) sels) st.
Proof.
  revert st. induction sels as [|s sels IH]; intros st; [reflexivity |].
  cbn [fold_left flat_map]. rewrite fold_left_app. apply IH.
Qed.


Lemma fold_consider_invariant (b : option Element) (s : Q) (l : list Element) :
  Forall (fun el => isHiddenOrTiny el = false) l ->
  loop_invariant b s l (fold_left consider l (b, s)).
Proof.
  induction l as [|x l IH] using rev_ind; intros Hvis.
  - repeat split; [apply Qle_refl | intros c [] | left; reflexivity].
  - apply Forall_app in Hvis as [Hl Hx]. apply Forall_inv in Hx.
    specialize (IH Hl). rewrite fold_left_app. cbn [fold_left].
    destruct (fold_left consider l (b, s)) as [b' s'].
    destruct IH as (Hle & Hall & Hbest). cbn [snd] in Hle, Hall.
    unfold consider. rewrite Hx. cbn [snd].
    destruct (Qltb s' (scoreElement x)) eqn:E.
    + apply Qltb_lt in E. repeat split; cbn [snd].
      * apply Qlt_le_weak. eapply Qle_lt_trans; eauto.
      * intros c Hc. apply in_app_or in Hc as [Hc | [<- | []]];
          [apply Qlt_le_weak; eapply Qle_lt_trans; eauto | apply Qle_refl].
      * right. exists l, x, []. repeat split.
        -- eapply Qle_lt_trans; eauto.
        -- intros c Hc. eapply Qle_lt_trans; eauto.
    + apply Qltb_ge in E. repeat split; cbn [snd]; [exact Hle | |].
      * intros c Hc. apply in_app_or in Hc as [Hc | [<- | []]]; auto.
      * destruct Hbest as [Heq | (pre & best & post & Hl' & Hst & Hlt & Hpre)];
          [left; exact Heq |].
        right. exists pre, best, (post ++ [x]). repeat split; try assumption.
        rewrite Hl', <- app_assoc. reflexivity.
Qed.

Lemma candidates_visible (doc : Document) :
  Forall (fun el => isHiddenOrTiny el = false) (candidates doc).
Proof.
  apply List.Forall_forall. intros x Hx. apply filter_In in Hx as [_ Hx].
  apply negb_true_iff. exact Hx.
Qed.

Lemma findContentContainer_fold (doc : Document) :
  findContentContainer doc
  = match fst (fold_left consider (candidates doc) (None, 0)) with
    | Some best => best
    | None => body doc
    end.
Proof.
  unfold findContentContainer, candidates.
  rewrite fold_selectors, fold_consider_filter. reflexivity.
Qed.

Lemma firstMatch_none (doc : Document) (sels : list Selector) :
  (forall s, In s sels -> querySelectorAll doc s = []) -> firstMatch doc sels = None.
Proof.
  induction sels as [|s sels IH]; intros H; [reflexivity |].
  cbn [firstMatch]. unfold querySelector. rewrite (H s) by (left; reflexivity).
  apply IH. intros s' Hs'. apply H. right. exact Hs'.
Qed.

Lemma firstMatch_first (doc : Document) (pre post : list Selector) (s : Selector)
    (el : Element) (rest : list Element) :
  (forall s', In s' pre -> querySelectorAll doc s' = []) ->
  querySelectorAll doc s = el :: rest ->
  firstMatch doc (pre ++ s :: post) = Some el.
Proof.
  induction pre as [|s0 pre IH]; intros Hpre Hs; cbn [app firstMatch]; unfold querySelector.
  - rewrite Hs. reflexivity.
  - rewrite (Hpre s0) by (left; reflexivity). cbn [head].
    apply IH; [| exact Hs]. intros s' Hs'. apply Hpre. right. exact Hs'.
Qed.

End Selection.

(** C8, as the code has it.  [scoreElement] is the length of the trimmed
    [innerText] over the number of child elements, counted as 1 when there
    is none.  [findContentContainer] returns the first of the visible,
    not tiny candidates whose score is the highest, when that score is
    positive, and the body when no candidate has a positive score.
    [extractPageText], which is what [handleGenerateQuiz] injects, scores
    nothing: its root is the first match of the first selector of its list
    that matches anything, and the body when none matches. *)
Theorem content_selection (doc : Document) :
  (forall el, scoreElement el
              = Qmake (Z.of_nat (length (trim (innerText el))))
                      (Pos.of_nat (Nat.max 1 (length (children el)))))
  /\ ((forall c, In c (candidates doc) -> ~ (0 < scoreElement c)%Q) ->
      findContentContainer doc = body doc)
  /\ ((exists c, In c (candidates doc) /\ (0 < scoreElement c)%Q) ->
      exists pre post,
        candidates doc = pre ++ findContentContainer doc :: post
        /\ (0 < scoreElement (findContentContainer doc))%Q
        /\ (forall c, In c pre ->
              (scoreElement c < scoreElement (findContentContainer doc))%Q)
        /\ (forall c, In c post ->
              (scoreElement c <= scoreElement (findContentContainer doc))%Q))
  /\ ((forall s, In s pageSelectors -> querySelectorAll doc s = []) ->
      extractPageText_root doc = body doc)
  /\ (forall pre s post el rest,
        pageSelectors = pre ++ s :: post ->
        (forall s', In s' pre -> querySelectorAll doc s' = []) ->
        querySelectorAll doc s = el :: rest ->
        extractPageText_root doc = el).
Proof.
  pose proof (fold_consider_invariant None 0%Q (candidates doc) (candidates_visible doc))
    as (Hle & Hall & Hbest).
  split; [| split; [| split; [| split]]].
  - intros el. unfold scoreElement. destruct (length (children el)); reflexivity.
  - intros Hnone. rewrite findContentContainer_fold.
    destruct Hbest as [-> | (pre & best & post & Hl & Hst & Hlt & Hpre)]; [reflexivity |].
    exfalso. apply (Hnone best); [| exact Hlt].
    rewrite Hl. apply in_or_app. right. left. reflexivity.
  - intros (c & Hc & Hpos). rewrite findContentContainer_fold.
    destruct Hbest as [Heq | (pre & best & post & Hl & Hst & Hlt & Hpre)].
    + exfalso. rewrite Heq in Hall. cbn [snd] in Hall.
      exact (Qlt_not_le _ _ Hpos (Hall c Hc)).
    + rewrite Hst in *. cbn [fst snd] in *. exists pre, post.
      repeat split; try assumption.
      intros c' Hc'. apply Hall. rewrite Hl. apply in_or_app. right. right. exact Hc'.
  - intros Hnone. unfold extractPageText_root. rewrite firstMatch_none by exact Hnone.
    reflexivity.
  - intros pre s post el rest Hsel Hpre Hs. unfold extractPageText_root.
    rewrite Hsel, (firstMatch_first doc pre post s el rest Hpre Hs). reflexivity.
Qed.

Lemma content_selection_witness :
  findContentContainer Sample.blankPage = body Sample.blankPage
  /\ (exists pre post,
        candidates Sample.twoRegions = pre ++ findContentContainer Sample.twoRegions :: post
        /\ (0 < scoreElement (findContentContainer Sample.twoRegions))%Q
        /\ (forall c, In c pre ->
              (scoreElement c < scoreElement (findContentContainer Sample.twoRegions))%Q)
        /\ (forall c, In c post ->
              (scoreElement c <= scoreElement (findContentContainer Sample.twoRegions))%Q))
  /\ extractPageText_root Sample.twoRegions = Sample.sparseArticle.
Proof.
  split; [| split].
  - apply (content_selection Sample.blankPage).
    intros c Hc. vm_compute in Hc. destruct Hc as [<- | []]. vm_compute. discriminate.
  - apply (content_selection Sample.twoRegions).
    exists Sample.denseMain. split; [vm_compute; auto | vm_compute; reflexivity].
  - apply (proj2 (proj2 (proj2 (proj2 (content_selection Sample.twoRegions))))
             [] (ByTag "article") (tl pageSelectors) Sample.sparseArticle []);
      [reflexivity | intros s' [] | vm_compute; reflexivity].
Defined.

(** C8 as stated fails.  On a page with a sparse article and a dense main
    region, both visible and large, the root [extractPageText] takes for
    the quiz is the article although the main region scores higher; and on
    a page whose only article is visible and large but has no text,
    [findContentContainer] falls back to the body although a candidate
    qualifies. *)
Lemma selection_is_not_the_best_score :
  (In Sample.sparseArticle (candidates Sample.twoRegions)
   /\ In Sample.denseMain (candidates Sample.twoRegions)
   /\ (scoreElement Sample.sparseArticle < scoreElement Sample.denseMain)%Q
   /\ extractPageText_root Sample.twoRegions = Sample.sparseArticle)
  /\ (candidates Sample.blankPage = [Sample.blankArticle]
      /\ findContentContainer Sample.blankPage = body Sample.blankPage
      /\ body Sample.blankPage <> Sample.blankArticle).
Proof.
  repeat split; try (vm_compute; reflexivity); try (vm_compute; auto; fail).
  discriminate.
Qed.

(** ** The parser on quiz documents *)

(** C7, as the code has it.  A document written by [JSON.stringify] is
    read back by [parseQuizJSON] as the same document, directly, and also
    inside a fenced block whose tag is json or absent, with any white
    space around the text and anything after the closing fence, provided
    that the text itself holds no fence.  The strict parse comes first;
    when it fails the content of the first fenced block is trimmed and
    parsed, and its [SyntaxError] propagates; without a fenced block the
    error is a plain [Error] with a fixed message. *)
Theorem quiz_document_round_trip (d : QuizDocument) :
  parseQuizJSON (stringify_document d) = Return (value_of_document d)
  /\ (forall tag ws1 ws2 post,
        tag = [] \/ tag = js "json" ->
        Forall (fun c => is_space c = true) ws1 ->
        Forall (fun c => is_space c = true) ws2 ->
        includes fence (stringify_document d) = false ->
        parseQuizJSON (fence ++ tag ++ ws1 ++ stringify_document d ++ ws2 ++ fence ++ post)
        = Return (value_of_document d))
  /\ (forall raw v, JSON_parse raw = Some v -> parseQuizJSON raw = Return v)
  /\ (forall raw inner,
        JSON_parse raw = None -> codeBlockMatch raw = Some inner ->
        parseQuizJSON raw = match JSON_parse (trim inner) with
                            | Some v => Return v
                            | None => Throw (SyntaxError (trim inner))
                            end)
  /\ (forall raw,
        JSON_parse raw = None -> codeBlockMatch raw = None ->
        parseQuizJSON raw = Throw (Error (js "Failed to parse quiz response as JSON"))).
Proof.
  split; [| split; [| split; [| split]]].
  - unfold parseQuizJSON. rewrite JSON_parse_stringify. reflexivity.
  - intros tag ws1 ws2 post. apply parseQuizJSON_fenced.
  - intros raw v H. unfold parseQuizJSON. rewrite H. reflexivity.
  - intros raw inner H1 H2. unfold parseQuizJSON. rewrite H1, H2. reflexivity.
  - intros raw H1 H2. unfold parseQuizJSON. rewrite H1, H2. reflexivity.
Qed.

Lemma quiz_document_round_trip_witness :
  parseQuizJSON (Sample.fenced "json" (stringify_document Sample.plainQuiz))
  = Return (value_of_document Sample.plainQuiz)
  /\ parseQuizJSON (js "{}") = Return (JObj [])
  /\ parseQuizJSON (js "no quiz, sorry")
     = Throw (Error (js "Failed to parse quiz response as JSON")).
Proof.
  destruct (quiz_document_round_trip Sample.plainQuiz) as (_ & Hfenced & Hstrict & _ & Hnone).
  split; [| split].
  - apply (Hfenced (js "json") [10] [10] []).
    + right. reflexivity.
    + repeat constructor.
    + repeat constructor.
    + vm_compute. reflexivity.
  - apply Hstrict. vm_compute. reflexivity.
  - apply Hnone; vm_compute; reflexivity.
Defined.

(** C7 as stated fails.  A response that is not JSON and has no fenced
    block is refused with an error whose message is fixed and does not
    hold the raw text; a document whose question text holds a fence is not
    read back from its own fenced block; and a fenced block with another
    language tag than json is not read. *)
Lemma parse_error_has_no_raw_text :
  (parseQuizJSON (js "no quiz, sorry")
   = Throw (Error (js "Failed to parse quiz response as JSON"))
   /\ includes (js "no quiz, sorry") (js "Failed to parse quiz response as JSON") = false)
  /\ parseQuizJSON (Sample.fenced "json" (stringify_document Sample.codeQuiz))
     <> Return (value_of_document Sample.codeQuiz)
  /\ parseQuizJSON (Sample.fenced "javascript" (stringify_document Sample.plainQuiz))
     <> Return (value_of_document Sample.plainQuiz).
Proof.
  split; [split; vm_compute; reflexivity |].
  split; vm_compute; discriminate.
Qed.

(** ** What is stored when the quiz is ready *)

Lemma question_invariant_document (q : Question) :
  question_invariant (value_of_question q) = well_formed q.
Proof.
  unfold question_invariant, well_formed, value_of_question.
  change (obj_get (js "options") _) with (Some (JArr (map JStr (options q)))).
  change (obj_get (js "correctIndex") _)
    with (Some (JNum (inject_Z (Z.of_nat (correctIndex q))))).
  cbn [inject_Z Qden Qnum Pos.eqb andb]. rewrite length_map.
  destruct (Z.leb_spec 0 (Z.of_nat (correctIndex q))); [| lia].
  destruct (Z.ltb_spec (Z.of_nat (correctIndex q)) 4),
           (Nat.ltb_spec (correctIndex q) 4); try lia;
    rewrite ?andb_true_r, ?andb_false_r; reflexivity.
Qed.

Lemma formattable_document (qs : list Question) :
  formattable (JArr (map value_of_question qs)) = true.
Proof.
  cbn [formattable]. induction qs as [|q qs IH]; [reflexivity |].
  cbn [map forallb]. rewrite IH. reflexivity.
Qed.

Lemma resume_stores_quiz (eng : Engine) (pending : Pending) (raw : jsstring)
    (quiz : value) (w : World) :
  parseQuizJSON raw = Return quiz ->
  store (fst (handleGenerateQuiz_resume eng pending (RawText raw) w)) !! "quizData"
  = Some quiz.
Proof.
  intros H. unfold handleGenerateQuiz_resume, parseReply. cbn [generateWith]. rewrite H.
  assert (Hw1 : store (write (readySession quiz) w) !! "quizData" = Some quiz)
    by (unfold readySession; store_simpl; reflexivity).
  destruct (questions_of quiz) as [qs | e].
  - destruct (formattable qs); cbn [fst]; rewrite ?emit_store; exact Hw1.
  - cbn [fst]. destruct (catch_spec eng e (write (readySession quiz) w)) as (_ & _ & -> & _).
    exact Hw1.
Qed.

Lemma resume_ready (eng : Engine) (pending : Pending) (raw : jsstring)
    (quiz qs : value) (w : World) :
  parseQuizJSON raw = Return quiz -> questions_of quiz = Return qs ->
  store (fst (handleGenerateQuiz_resume eng pending (RawText raw) w)) !! "quizState"
  = Some (str "ready").
Proof.
  intros H Hqs. unfold handleGenerateQuiz_resume, parseReply. cbn [generateWith].
  rewrite H, Hqs.
  destruct (formattable qs); cbn [fst]; rewrite ?emit_store;
    unfold readySession; store_simpl; reflexivity.
Qed.

(** C9, as the code has it.  What is stored as quiz data when the
    provider's text is accepted is the value the parser returned, as it
    is; the state is [ready] whenever the length of its questions can be
    read.  Nothing is checked: for a document of the prompt's shape the
    stored questions satisfy the invariant exactly when the questions of
    the response do. *)
Theorem stored_quiz_is_the_response
    (eng : Engine) (pending : Pending) (raw : jsstring) (quiz : value) (w : World) :
  parseQuizJSON raw = Return quiz ->
  let w' := fst (handleGenerateQuiz_resume eng pending (RawText raw) w) in
  store w' !! "quizData" = Some quiz
  /\ (forall qs, questions_of quiz = Return qs ->
        store w' !! "quizState" = Some (str "ready"))
  /\ (forall d, quiz = value_of_document d ->
        store w' !! "quizState" = Some (str "ready")
        /\ stored_questions (store w') = map value_of_question (questions d)
        /\ forallb question_invariant (stored_questions (store w'))
           = forallb well_formed (questions d)).
Proof.
  intros H w'. subst w'.
  pose proof (resume_stores_quiz eng pending raw quiz w H) as Hdata.
  split; [exact Hdata |]. split.
  - intros qs Hqs. exact (resume_ready eng pending raw quiz qs w H Hqs).
  - intros d ->.
    assert (Hst : stored_questions
                    (store (fst (handleGenerateQuiz_resume eng pending (RawText raw) w)))
                  = map value_of_question (questions d))
      by (unfold stored_questions; rewrite Hdata; reflexivity).
    split; [| split].
    + apply (resume_ready eng pending raw _ (JArr (map value_of_question (questions d))) w H).
      reflexivity.
    + exact Hst.
    + rewrite Hst. clear. induction (questions d) as [|q qs IH]; [reflexivity |].
      cbn [map forallb]. rewrite question_invariant_document, IH. reflexivity.
Qed.

Lemma stored_quiz_is_the_response_witness :
  store (Sample.answeredWith Sample.plainQuiz) !! "quizData"
  = Some (value_of_document Sample.plainQuiz)
  /\ store (Sample.answeredWith Sample.plainQuiz) !! "quizState" = Some (str "ready")
  /\ forallb question_invariant (stored_questions (store (Sample.answeredWith Sample.plainQuiz)))
     = true.
Proof.
  unfold Sample.answeredWith.
  destruct (stored_quiz_is_the_response Sample.engine Sample.pending
              (stringify_document Sample.plainQuiz) (value_of_document Sample.plainQuiz)
              Sample.generating) as (H1 & _ & H2).
  - vm_compute. reflexivity.
  - destruct (H2 Sample.plainQuiz eq_refl) as (H3 & _ & H4).
    split; [exact H1 |]. split; [exact H3 |]. rewrite H4. reflexivity.
Defined.

(** C9 as stated fails: a response with two options and the correct
    index 7 is accepted by the parser; the session becomes [ready] and the
    stored question breaks the invariant. *)
Lemma unchecked_question_is_stored :
  parseQuizJSON (stringify_document Sample.malformed)
  = Return (value_of_document Sample.malformed)
  /\ store (Sample.answeredWith Sample.malformed) !! "quizState" = Some (str "ready")
  /\ stored_questions (store (Sample.answeredWith Sample.malformed))
     = map value_of_question (questions Sample.malformed)
  /\ forallb question_invariant (stored_questions (store (Sample.answeredWith Sample.malformed)))
     = false.
Proof.
  vm_compute. repeat split.
Qed.

(** * The session, the popup and the page text *)

(** ** The session in the store *)

Lemma session_defaults_keys (k : string) :
  is_Some (session_defaults !! k) -> In k session_keys.
Proof.
  unfold session_keys, session_defaults. cbn [In list_to_map foldr uncurry].
  intros [v Hv].
  repeat (apply lookup_insert_Some in Hv as [[<- _] | [_ Hv]]; [tauto |]).
  rewrite lookup_empty in Hv. discriminate.
Qed.

Lemma settings_not_session (k : string) (d : value) :
  settings_defaults !! k = Some d -> session_defaults !! k = None.
Proof.
  intros Hd. destruct (session_defaults !! k) as [v|] eqn:Hk; [| reflexivity].
  assert (Hin : In k session_keys) by (apply session_defaults_keys; eexists; exact Hk).
  unfold session_keys in Hin. cbn [In] in Hin.
  destruct Hin as [<- | [<- | [<- | [<- | [<- | [<- | [<- | []]]]]]]];
    vm_compute in Hd; discriminate.
Qed.

Lemma clear_lookup (w : World) (k : string) :
  store (handleClearQuiz w) !! k
  = match session_defaults !! k with Some v => Some v | None => store w !! k end.
Proof.
  unfold handleClearQuiz, clearQuizSession. rewrite emit_store. cbn [store].
  apply storage_set_lookup.
Qed.

(** X1: clearing the quiz puts every key of the session back to its
    default, whatever the session was, and touches nothing else in the
    store: the settings read the same afterwards.  The popup is answered
    with success, and the next opening of the popup starts from nothing. *)
Theorem clear_resets_the_session (w : World) :
  getQuizSession (store (handleClearQuiz w)) = session_defaults
  /\ getSettings (store (handleClearQuiz w)) = getSettings (store w)
  /\ (forall k, ~ In k session_keys -> store (handleClearQuiz w) !! k = store w !! k)
  /\ trace (handleClearQuiz w) = trace w ++ [Responded success]
  /\ restoreSession (store (handleClearQuiz w)) Popup.initial = (Popup.initial, []).
Proof.
  split; [| split; [| split; [| split]]].
  - apply map_eq. intros k. unfold getQuizSession.
    rewrite storage_get_lookup, clear_lookup.
    destruct (session_defaults !! k); reflexivity.
  - apply map_eq. intros k. unfold getSettings.
    rewrite !storage_get_lookup, clear_lookup.
    destruct (settings_defaults !! k) as [d|] eqn:Hd; [| reflexivity].
    rewrite (settings_not_session k d Hd). reflexivity.
  - intros k Hk. rewrite clear_lookup.
    destruct (session_defaults !! k) as [v|] eqn:Hv; [| reflexivity].
    exfalso. apply Hk, session_defaults_keys. eexists; exact Hv.
  - reflexivity.
  - unfold restoreSession, state_or_idle. rewrite clear_lookup. reflexivity.
Qed.

Lemma clear_resets_the_session_witness :
  store (handleClearQuiz Sample.configured) !! "maxQuestions" = Some (num 5).
Proof.
  destruct (clear_resets_the_session Sample.configured) as (_ & _ & H & _).
  rewrite H; [reflexivity |].
  unfold session_keys. cbn [In]. intros [H1 | [H1 | [H1 | [H1 | [H1 | [H1 | [H1 | []]]]]]]];
    discriminate H1.
Defined.

(** X2: [handleSaveProgress] writes the fields that the message carries
    and keeps the stored value of each field that is [undefined] in it; no
    other key changes, and a message without any of the three fields leaves
    the store as it is. *)
Theorem save_progress_is_partial (state currentQuestion userAnswers : option value)
    (w : World) :
  let w' := handleSaveProgress state currentQuestion userAnswers w in
  store w' !! "quizState" = from_option Some (store w !! "quizState") state
  /\ store w' !! "quizCurrentQuestion"
     = from_option Some (store w !! "quizCurrentQuestion") currentQuestion
  /\ store w' !! "quizUserAnswers"
     = from_option Some (store w !! "quizUserAnswers") userAnswers
  /\ (forall k, k <> "quizState" -> k <> "quizCurrentQuestion" -> k <> "quizUserAnswers" ->
        store w' !! k = store w !! k)
  /\ trace w' = trace w ++ [Responded success]
  /\ (state = None -> currentQuestion = None -> userAnswers = None -> store w' = store w).
Proof.
  intros w'. subst w'.
  assert (H : forall k,
             store (handleSaveProgress state currentQuestion userAnswers w) !! k
             = match (if decide ("quizUserAnswers" = k) then userAnswers else None) with
               | Some v => Some v
               | None =>
                   match (if decide ("quizCurrentQuestion" = k) then currentQuestion else None) with
                   | Some v => Some v
                   | None =>
                       match (if decide ("quizState" = k) then state else None) with
                       | Some v => Some v
                       | None => store w !! k
                       end
                   end
               end).
  { intros k. unfold handleSaveProgress.
    rewrite emit_store, write_lookup, !lookup_union, !optional_lookup.
    destruct (if decide ("quizUserAnswers" = k) then userAnswers else None),
             (if decide ("quizCurrentQuestion" = k) then currentQuestion else None),
             (if decide ("quizState" = k) then state else None); reflexivity. }
  split; [| split; [| split; [| split; [| split]]]].
  - rewrite H. cbn. destruct state; reflexivity.
  - rewrite H. cbn. destruct currentQuestion; reflexivity.
  - rewrite H. cbn. destruct userAnswers; reflexivity.
  - intros k H1 H2 H3. apply handleSaveProgress_lookup; assumption.
  - reflexivity.
  - intros -> -> ->. apply map_eq. intros k. rewrite H.
    repeat destruct (decide _); reflexivity.
Qed.

Section EarlyExit.

Variable eng : Engine.

Lemma refuse_spec (error : string) (w : World) :
  store (refuse error w) !! "quizState" = Some (str "error")
  /\ store (refuse error w) !! "quizError" = Some (str error)
  /\ (forall k, k <> "quizState" -> k <> "quizError" ->
        store (refuse error w) !! k = store w !! k)
  /\ trace (refuse error w) = trace w ++ [Responded (failure error)].
Proof.
  unfold refuse, errorSession. repeat split; store_simpl; try reflexivity.
  intros k H1 H2. store_simpl. repeat (rewrite lookup_insert_ne by congruence).
  rewrite lookup_empty. reflexivity.
Qed.

Lemma catch_frame (e : exn) (w : World) (k : string) :
  k <> "quizState" -> k <> "quizError" -> store (catch eng e w) !! k = store w !! k.
Proof.
  intros H1 H2. unfold catch, errorSession. store_simpl.
  repeat (rewrite lookup_insert_ne by congruence). rewrite lookup_empty. reflexivity.
Qed.

End EarlyExit.

Lemma generateCalls_other (t : list Event) (e : Event) :
  is_generate_call e = false -> generateCalls (t ++ [e]) = generateCalls t.
Proof.
  intros H. unfold generateCalls. rewrite List.filter_app, length_app. cbn. rewrite H.
  cbn. lia.
Qed.

(** X3: when no page text can be used, [handleGenerateQuiz] stores the
    state [error] and the message and nothing else: the quiz, the answers
    and the explanations of an earlier session stay.  No provider is
    called.  After an exception of the tab query or of the script the
    message is that of the exception, the only event is the failure
    notification, and the popup is not answered.  Without an active tab,
    without a result of the script, or with fewer than 50 words, the
    message is the fixed one of the case, the popup gets the failure
    answer with it, and no notification goes out. *)
Theorem early_exit_keeps_the_quiz (eng : Engine) (tab : result (option Z))
    (script : result (option PageText)) (w : World) :
  (forall tabId page,
     tab = Return (Some tabId) -> script = Return (Some page) ->
     tabId = 0%Z \/ (wordCount page < 50)%Z) ->
  let r := handleGenerateQuiz eng tab script w in
  snd r = None
  /\ store (fst r) !! "quizState" = Some (str "error")
  /\ (forall k, k <> "quizState" -> k <> "quizError" ->
        store (fst r) !! k = store w !! k)
  /\ generateCalls (trace (fst r)) = generateCalls (trace w)
  /\ (forall e,
        tab = Throw e
        \/ (exists tabId, tab = Return (Some tabId) /\ tabId <> 0%Z /\ script = Throw e) ->
        store (fst r) !! "quizError" = Some (JStr (message eng e))
        /\ trace (fst r)
           = trace w ++ [NotifyError (js "Quiz generation failed: " ++ message eng e)]
        /\ responseIn (drop (length (trace w)) (trace (fst r))) = None
        /\ (forall m, e = Error m -> store (fst r) !! "quizError" = Some (JStr m)))
  /\ (forall error : string,
        (error = "No active tab found"%string
         /\ (tab = Return None \/ tab = Return (Some 0%Z)))
        \/ (error = "Failed to extract text from page"%string
            /\ exists tabId, tab = Return (Some tabId) /\ tabId <> 0%Z
                             /\ script = Return None)
        \/ (error = "Not enough readable content on this page"%string
            /\ exists tabId page, tab = Return (Some tabId) /\ tabId <> 0%Z
                                  /\ script = Return (Some page)
                                  /\ (wordCount page < 50)%Z) ->
        store (fst r) !! "quizError" = Some (str error)
        /\ trace (fst r) = trace w ++ [Responded (failure error)]
        /\ responseIn (drop (length (trace w)) (trace (fst r))) = Some (failure error)).
Proof.
  intros Hpage r. subst r.
  assert (Hrefuse : forall error,
             handleGenerateQuiz eng tab script w = (refuse error w, None) ->
             let r := handleGenerateQuiz eng tab script w in
             (snd r = None
              /\ store (fst r) !! "quizState" = Some (str "error")
              /\ (forall k, k <> "quizState" -> k <> "quizError" ->
                    store (fst r) !! k = store w !! k)
              /\ generateCalls (trace (fst r)) = generateCalls (trace w))
             /\ store (fst r) !! "quizError" = Some (str error)
             /\ trace (fst r) = trace w ++ [Responded (failure error)]
             /\ responseIn (drop (length (trace w)) (trace (fst r)))
                = Some (failure error)).
  { intros error ->. cbn [fst snd].
    destruct (refuse_spec error w) as (H1 & H2 & H3 & H4).
    rewrite H4, drop_app_length. repeat split; try assumption.
    apply generateCalls_other. reflexivity. }
  assert (Hcatch : forall e,
             handleGenerateQuiz eng tab script w = (catch eng e w, None) ->
             let r := handleGenerateQuiz eng tab script w in
             (snd r = None
              /\ store (fst r) !! "quizState" = Some (str "error")
              /\ (forall k, k <> "quizState" -> k <> "quizError" ->
                    store (fst r) !! k = store w !! k)
              /\ generateCalls (trace (fst r)) = generateCalls (trace w))
             /\ store (fst r) !! "quizError" = Some (JStr (message eng e))
             /\ trace (fst r)
                = trace w ++ [NotifyError (js "Quiz generation failed: " ++ message eng e)]
             /\ responseIn (drop (length (trace w)) (trace (fst r))) = None).
  { intros e ->. cbn [fst snd].
    destruct (catch_spec eng e w) as (H1 & H2 & _ & H4).
    rewrite H4, drop_app_length. repeat split; try assumption.
    - intros k Hk1 Hk2. apply catch_frame; assumption.
    - apply generateCalls_other. reflexivity. }
  assert (Hcases :
            (exists e, handleGenerateQuiz eng tab script w = (catch eng e w, None)
                       /\ (tab = Throw e
                           \/ exists tabId, tab = Return (Some tabId) /\ tabId <> 0%Z
                                            /\ script = Throw e))
            \/ (exists error : string,
                  handleGenerateQuiz eng tab script w = (refuse error w, None)
                  /\ ((error = "No active tab found"%string
                       /\ (tab = Return None \/ tab = Return (Some 0%Z)))
                      \/ (error = "Failed to extract text from page"%string
                          /\ exists tabId, tab = Return (Some tabId) /\ tabId <> 0%Z
                                           /\ script = Return None)
                      \/ (error = "Not enough readable content on this page"%string
                          /\ exists tabId page, tab = Return (Some tabId) /\ tabId <> 0%Z
                                                /\ script = Return (Some page)
                                                /\ (wordCount page < 50)%Z)))).
  { unfold handleGenerateQuiz. destruct tab as [[tabId|]|e].
    - destruct (Z.eqb_spec tabId 0) as [-> | Hnz].
      + right. eexists. split; [reflexivity |]. left. split; [reflexivity | right; reflexivity].
      + destruct script as [[page|]|e].
        * destruct (Hpage tabId page eq_refl eq_refl) as [H | H]; [contradiction |].
          destruct (Z.ltb_spec (wordCount page) 50) as [_ | Hge]; [| lia].
          right. eexists. split; [reflexivity |]. right. right.
          split; [reflexivity |]. exists tabId, page. repeat split; assumption.
        * right. eexists. split; [reflexivity |]. right. left.
          split; [reflexivity |]. exists tabId. repeat split; assumption.
        * left. exists e. split; [reflexivity |]. right. exists tabId.
          repeat split; assumption.
    - right. eexists. split; [reflexivity |]. left. split; [reflexivity | left; reflexivity].
    - left. exists e. split; [reflexivity |]. left. reflexivity. }
  destruct Hcases as [(e & Heq & Hwhy) | (error & Heq & Hwhy)].
  - destruct (Hcatch e Heq) as ((H1 & H2 & H3 & H4) & H5 & H6 & H7).
    split; [exact H1 |]. split; [exact H2 |]. split; [exact H3 |]. split; [exact H4 |]. split.
    + intros e' He'.
      assert (e' = e) as ->.
      { destruct Hwhy as [Ht | (t1 & Ht & _ & Hs)], He' as [Ht' | (t2 & Ht' & _ & Hs')];
          congruence. }
      split; [exact H5 |]. split; [exact H6 |]. split; [exact H7 |].
      intros m ->. exact H5.
    + intros error Herr. exfalso.
      destruct Hwhy as [Ht | (t1 & Ht & Hnz & Hs)];
        destruct Herr as [[_ [Ht' | Ht']] | [[_ (t2 & Ht' & _ & Hs')]
                                           | [_ (t2 & pg & Ht' & _ & Hs' & _)]]];
        congruence.
  - destruct (Hrefuse error Heq) as ((H1 & H2 & H3 & H4) & H5 & H6 & H7).
    split; [exact H1 |]. split; [exact H2 |]. split; [exact H3 |]. split; [exact H4 |]. split.
    + intros e He. exfalso.
      destruct He as [Ht | (t1 & Ht & Hnz & Hs)];
        destruct Hwhy as [[_ [Ht' | Ht']] | [[_ (t2 & Ht' & _ & Hs')]
                                           | [_ (t2 & pg & Ht' & _ & Hs' & _)]]];
        congruence.
    + intros error' Herr.
      assert (error' = error) as ->.
      { destruct Hwhy as [[-> [Ht | Ht]] | [[-> (t1 & Ht & Hn1 & Hs)]
                                          | [-> (t1 & pg & Ht & Hn1 & Hs & _)]]];
          destruct Herr as [[-> [Ht' | Ht']] | [[-> (t2 & Ht' & Hn2 & Hs')]
                                              | [-> (t2 & pg' & Ht' & Hn2 & Hs' & _)]]];
          try reflexivity; congruence. }
      split; [exact H5 |]. split; [exact H6 | exact H7].
Qed.

Lemma early_exit_keeps_the_quiz_witness :
  store (fst (handleGenerateQuiz Sample.engine (Throw (Error (js "No window")))
                (Return (Some Sample.longPage)) Sample.readyQuiz)) !! "quizData"
  = store Sample.readyQuiz !! "quizData"
  /\ trace (fst (handleGenerateQuiz Sample.engine (Throw (Error (js "No window")))
                   (Return (Some Sample.longPage)) Sample.readyQuiz))
     = trace Sample.readyQuiz ++ [NotifyError (js "Quiz generation failed: No window")].
Proof.
  destruct (early_exit_keeps_the_quiz Sample.engine (Throw (Error (js "No window")))
              (Return (Some Sample.longPage)) Sample.readyQuiz)
    as (_ & _ & Hframe & _ & Hthrow & _).
  - intros tabId page H. discriminate H.
  - split; [apply Hframe; discriminate |].
    destruct (Hthrow (Error (js "No window"))) as (_ & H & _); [left; reflexivity |].
    exact H.
Defined.

(** ** Paths of a start *)

(** X4: with a provider name in the store that is none of the three,
    a start on a usable page first marks the session as generating and
    answers the popup with success; then the call fails before any request
    and the session ends in [error] with the message "Unknown provider: "
    followed by the name. *)
Theorem unknown_provider_fails_after_the_answer
    (eng : Engine) (tabId : Z) (page : PageText) (w : World) :
  tabId <> 0%Z ->
  (50 <= wordCount page)%Z ->
  provider_of (string_or (store w !! "provider") (js "ollama")) = None ->
  let name := string_or (store w !! "provider") (js "ollama") in
  let r := handleGenerateQuiz eng (Return (Some tabId)) (Return (Some page)) w in
  snd r = None
  /\ trace (fst r)
     = trace w ++ [ Responded generatingResponse;
                    NotifyError (js "Quiz generation failed: Unknown provider: " ++ name) ]
  /\ store (fst r) !! "quizState" = Some (str "error")
  /\ store (fst r) !! "quizError" = Some (JStr (js "Unknown provider: " ++ name))
  /\ store (fst r) !! "quizData" = Some JNull
  /\ store (fst r) !! "quizSourceText" = Some (JStr (text page))
  /\ generateCalls (trace (fst r)) = generateCalls (trace w).
Proof.
  intros Htab Hwc Hp name r. subst r name. unfold handleGenerateQuiz.
  destruct (Z.eqb_spec tabId 0) as [|_]; [contradiction |].
  destruct (Z.ltb_spec (wordCount page) 50) as [|_]; [lia |].
  cbv zeta. rewrite started_provider, Hp. cbn [fst snd].
  set (name := string_or (store w !! "provider") (js "ollama")).
  destruct (catch_spec eng (Error (js "Unknown provider: " ++ name)) (started page w))
    as (H1 & H2 & H3 & H4).
  cbn [message] in H2, H4.
  split; [reflexivity |]. split; [| split; [exact H1 | split; [exact H2 | split; [| split]]]].
  - rewrite H4, started_trace, <- app_assoc. reflexivity.
  - rewrite H3. apply started_state.
  - rewrite catch_frame by discriminate. rewrite started_store.
    unfold generatingSession. store_simpl. reflexivity.
  - rewrite H4, started_trace, !generateCalls_other by reflexivity. reflexivity.
Qed.

Lemma unknown_provider_fails_after_the_answer_witness :
  store (fst (handleGenerateQuiz Sample.engine Sample.tab (Return (Some Sample.longPage))
                Sample.misconfigured)) !! "quizError"
  = Some (str "Unknown provider: gemini").
Proof.
  destruct (unknown_provider_fails_after_the_answer Sample.engine 7 Sample.longPage
              Sample.misconfigured) as (_ & _ & _ & H & _).
  - discriminate.
  - vm_compute. discriminate.
  - vm_compute. reflexivity.
  - exact H.
Defined.

(** X5: a start on a usable page discards the previous session: the
    quiz data and the explanations are [null], the index is 0, the answers
    are empty and the source text is that of the page, also when the
    provider turns out to be unknown.  Keys outside the session keep their
    value.  With a call in flight the session is exactly the generating
    one. *)
Theorem start_discards_the_previous_quiz
    (eng : Engine) (tabId : Z) (page : PageText) (w : World) :
  tabId <> 0%Z ->
  (50 <= wordCount page)%Z ->
  let r := handleGenerateQuiz eng (Return (Some tabId)) (Return (Some page)) w in
  store (fst r) !! "quizData" = Some JNull
  /\ store (fst r) !! "quizCurrentQuestion" = Some (num 0)
  /\ store (fst r) !! "quizUserAnswers" = Some (JArr [])
  /\ store (fst r) !! "quizExplanations" = Some JNull
  /\ store (fst r) !! "quizSourceText" = Some (JStr (text page))
  /\ (forall k, ~ In k session_keys -> store (fst r) !! k = store w !! k)
  /\ (is_Some (snd r) ->
        getQuizSession (store (fst r)) = generatingSession page).
Proof.
  intros Htab Hwc r. subst r. unfold handleGenerateQuiz.
  destruct (Z.eqb_spec tabId 0) as [|_]; [contradiction |].
  destruct (Z.ltb_spec (wordCount page) 50) as [|_]; [lia |].
  cbv zeta.
  assert (Hkeys : forall k, In k session_keys <-> is_Some (generatingSession page !! k)).
  { intros k. unfold session_keys, generatingSession. cbn [In list_to_map foldr uncurry]. split.
    - intros [<- | [<- | [<- | [<- | [<- | [<- | [<- | []]]]]]]]; eexists; reflexivity.
    - intros [v Hv].
      repeat (apply lookup_insert_Some in Hv as [[<- _] | [_ Hv]]; [tauto |]).
      rewrite lookup_empty in Hv. discriminate. }
  assert (Hstarted : forall k v, generatingSession page !! k = Some v ->
                                 store (started page w) !! k = Some v).
  { intros k v Hv. rewrite started_store, Hv. reflexivity. }
  assert (Hother : forall k, ~ In k session_keys ->
                             store (started page w) !! k = store w !! k).
  { intros k Hk. rewrite started_store.
    destruct (generatingSession page !! k) as [v|] eqn:Hv; [| reflexivity].
    exfalso. apply Hk, Hkeys. eexists; exact Hv. }
  destruct (provider_of _) as [p|]; cbn [fst snd].
  - rewrite emit_store. repeat split; try (apply Hstarted; reflexivity); try exact Hother.
    intros _. apply map_eq. intros k. unfold getQuizSession.
    rewrite storage_get_lookup, started_store.
    destruct (session_defaults !! k) as [d|] eqn:Hd.
    + destruct (proj1 (Hkeys k)) as [v Hv].
      { apply session_defaults_keys. eexists; exact Hd. }
      rewrite Hv. reflexivity.
    + destruct (generatingSession page !! k) as [v|] eqn:Hv; [| reflexivity].
      exfalso. assert (Hin : In k session_keys) by (apply Hkeys; eexists; exact Hv).
      unfold session_keys in Hin. cbn [In] in Hin.
      destruct Hin as [<- | [<- | [<- | [<- | [<- | [<- | [<- | []]]]]]]];
        vm_compute in Hd; discriminate.
  - repeat split.
    1-5: rewrite catch_frame by discriminate; apply Hstarted; reflexivity.
    + intros k Hk. rewrite catch_frame.
      * apply Hother, Hk.
      * intros ->. apply Hk. unfold session_keys. cbn. tauto.
      * intros ->. apply Hk. unfold session_keys. cbn. tauto.
    + intros [x Hx]. discriminate Hx.
Qed.

Lemma start_discards_the_previous_quiz_witness :
  store (fst (handleGenerateQuiz Sample.engine Sample.tab (Return (Some Sample.longPage))
                Sample.readyQuiz)) !! "quizData" = Some JNull.
Proof.
  destruct (start_discards_the_previous_quiz Sample.engine 7 Sample.longPage
              Sample.readyQuiz) as (H & _).
  - discriminate.
  - vm_compute. discriminate.
  - exact H.
Defined.

(** X6: when the provider's reply reads as a quiz document, the
    session becomes [ready] with that document, index 0, no answers and no
    error; the source text and the explanations in the store are not
    written.  The notification counts the questions of the document, and
    the explanation request carries the source text of the start and the
    questions of the document. *)
Theorem ready_quiz_is_announced
    (eng : Engine) (pending : Pending) (reply : ProviderReply) (d : QuizDocument)
    (w : World) :
  parseReply (llmProvider pending) reply = Return (value_of_document d) ->
  let r := handleGenerateQuiz_resume eng pending reply w in
  trace (fst r)
  = trace w ++ [ NotifyReady (Some (num (Z.of_nat (length (questions d)))));
                 ProviderCall (llm pending) (llmProvider pending)
                   (GenerateExplanations (sourceText pending)
                      (JArr (map value_of_question (questions d)))) ]
  /\ snd r = Some pending
  /\ getQuizSession (store (fst r)) !! "quizState" = Some (str "ready")
  /\ store (fst r) !! "quizData" = Some (value_of_document d)
  /\ store (fst r) !! "quizCurrentQuestion" = Some (num 0)
  /\ store (fst r) !! "quizUserAnswers" = Some (JArr [])
  /\ store (fst r) !! "quizError" = Some JNull
  /\ store (fst r) !! "quizSourceText" = store w !! "quizSourceText"
  /\ store (fst r) !! "quizExplanations" = store w !! "quizExplanations"
  /\ generateCalls (trace (fst r)) = generateCalls (trace w).
Proof.
  intros Hreply r. subst r. unfold handleGenerateQuiz_resume. rewrite Hreply.
  change (questions_of (value_of_document d))
    with (Return (A := value) (JArr (map value_of_question (questions d)))).
  cbv zeta. cbv iota beta. rewrite formattable_document. cbn [fst snd length_of].
  rewrite length_map, !emit_store, !emit_trace, write_trace, <- app_assoc.
  unfold getQuizSession, readySession.
  repeat split; store_simpl; try reflexivity.
  rewrite app_assoc, !generateCalls_other by reflexivity. reflexivity.
Qed.

Lemma ready_quiz_is_announced_witness :
  trace (fst (handleGenerateQuiz_resume Sample.engine Sample.pending
                (RawText (stringify_document Sample.plainQuiz)) Sample.generating))
  = trace Sample.generating
      ++ [ NotifyReady (Some (num 1));
           ProviderCall (llm Sample.pending) Ollama
             (GenerateExplanations (js "a long article")
                (JArr (map value_of_question (questions Sample.plainQuiz)))) ].
Proof.
  destruct (ready_quiz_is_announced Sample.engine Sample.pending
              (RawText (stringify_document Sample.plainQuiz)) Sample.plainQuiz
              Sample.generating) as (H & _).
  - vm_compute. reflexivity.
  - exact H.
Defined.

(** X7: once the explanation call has stored the provider's array,
    [showResults] prints under question [i] the entry [i] of the array when
    there is one that counts as true, else the explanation of the question
    when that counts as true, else the empty string. *)
Theorem detailed_explanation_is_preferred
    (pending : Pending) (reply : ProviderReply) (w : World)
    (m : list (jsstring * value)) (l : list value) (i : nat) (q : value) :
  parseReply (llmProvider pending) reply = Return (JObj m) ->
  obj_get (js "explanations") m = Some (JArr l) ->
  shownExplanation
    (store (generateExplanationsInBackground pending reply w) !! "quizExplanations") i q
  = if truthy (l !! i) then l !! i
    else if truthy (property q "explanation") then property q "explanation"
    else Some (JStr []).
Proof.
  intros Hreply Hm. unfold generateExplanationsInBackground. rewrite Hreply, Hm.
  rewrite write_lookup, lookup_singleton_eq.
  unfold shownExplanation, js_or, js_and. cbn [truthy at_index].
  destruct (truthy (l !! i)) eqn:E1; rewrite ?E1; [reflexivity |].
  destruct (truthy (property q "explanation")) eqn:E2; rewrite ?E2; reflexivity.
Qed.

Lemma detailed_explanation_is_preferred_witness :
  shownExplanation
    (store (generateExplanationsInBackground Sample.pending
              (RawText Sample.noExplanations) Sample.generating)
       !! "quizExplanations") 0 Sample.terse
  = Some (str "Because b.").
Proof.
  rewrite (detailed_explanation_is_preferred Sample.pending (RawText Sample.noExplanations)
             Sample.generating [ (js "explanations", JArr []) ] []).
  - reflexivity.
  - vm_compute. reflexivity.
  - reflexivity.
Defined.

(** ** The answers of the popup *)

Section Answers.

Context {A : Type}.
Implicit Types (a : list (option A)) (v : A) (i j : nat).

Lemma array_get_nil i : array_get i (@nil (option A)) = None.
Proof. unfold array_get. rewrite lookup_nil. reflexivity. Qed.

Lemma array_get_cons_0 (x : option A) a : array_get 0 (x :: a) = x.
Proof. unfold array_get. cbn. destruct x; reflexivity. Qed.

Lemma array_get_cons_S (x : option A) a i : array_get (S i) (x :: a) = array_get i a.
Proof. reflexivity. Qed.

Lemma array_set_length i v a :
  length (array_set i v a) = Nat.max (length a) (S i).
Proof.
  revert a. induction i as [|i IH]; intros [|x a]; cbn [array_set length].
  - reflexivity.
  - lia.
  - rewrite IH. cbn [length]. lia.
  - rewrite IH. lia.
Qed.

Lemma array_get_set i j v a :
  array_get j (array_set i v a) = if decide (i = j) then Some v else array_get j a.
Proof.
  revert j a. induction i as [|i IH]; intros j [|x a]; cbn [array_set].
  - destruct j; [reflexivity |]. rewrite array_get_cons_S, !array_get_nil. reflexivity.
  - destruct j; [reflexivity |]. rewrite !array_get_cons_S. reflexivity.
  - destruct j as [|j].
    + rewrite array_get_cons_0, array_get_nil. reflexivity.
    + rewrite array_get_cons_S, IH, !array_get_nil.
      destruct (decide (i = j)), (decide (S i = S j)); try reflexivity; lia.
  - destruct j as [|j].
    + rewrite !array_get_cons_0. reflexivity.
    + rewrite !array_get_cons_S, IH.
      destruct (decide (i = j)), (decide (S i = S j)); try reflexivity; lia.
Qed.

Lemma array_set_set i v v' a : array_set i v' (array_set i v a) = array_set i v' a.
Proof.
  revert a. induction i as [|i IH]; intros [|x a]; cbn [array_set]; try reflexivity.
  - rewrite IH. reflexivity.
  - rewrite IH. reflexivity.
Qed.

Lemma array_set_Forall (P : option A -> Prop) i v a :
  (i <= length a)%nat -> P (Some v) -> Forall P a -> Forall P (array_set i v a).
Proof.
  intros Hi Hv Ha. revert i Hi. induction Ha as [|x a Hx Ha IH]; intros i Hi.
  - cbn [length] in Hi. assert (i = 0%nat) as -> by lia. cbn [array_set].
    constructor; [exact Hv | constructor].
  - destruct i as [|i]; cbn [array_set].
    + constructor; assumption.
    + constructor; [exact Hx |]. apply IH. cbn [length] in Hi. lia.
Qed.

Lemma array_get_Some i a (x : A) : array_get i a = Some x -> (i < length a)%nat.
Proof.
  unfold array_get. destruct (a !! i) eqn:E; [| discriminate].
  intros _. apply lookup_lt_Some in E. exact E.
Qed.

End Answers.

Lemma answers_or_empty_sent (a : list (option value)) :
  Forall chosen a -> answers_or_empty (Some (send_array a)) = a.
Proof.
  intros Ha. cbn [answers_or_empty send_array]. rewrite map_map.
  induction Ha as [|x a [i ->] _ IH]; [reflexivity |].
  cbn [map]. rewrite IH. reflexivity.
Qed.

Lemma index_or_zero_num (n : nat) : index_or_zero (Some (num (Z.of_nat n))) = n.
Proof. unfold index_or_zero. rewrite int_or_zero_num. apply Nat2Z.id. Qed.

Section Session.

Variables (eng : Engine) (tab : result (option Z)) (script : result (option PageText)).
Variables (m : list (jsstring * value)) (qs : list value).
Hypothesis Hqs : obj_get (js "questions") m = Some (JArr qs).

Lemma openPopup_invariant (w : World) :
  store w !! "quizState" = Some (str "ready") ->
  store w !! "quizData" = Some (JObj m) ->
  qs <> [] ->
  session_invariant m qs (openPopup eng tab script w).
Proof.
  intros Hready Hdata Hne. unfold openPopup, restoreSession.
  rewrite (state_or_idle_stored (store w) "ready" Hready) by discriminate.
  cbn [is_state jsstring_eqb]. change (is_state (js "ready") "generating") with false.
  change (is_state (js "ready") "ready") with true. cbv iota. cbn [fst snd].
  destruct (deliver_saveProgress eng tab script "in_progress" 0 [] w) as (H1 & H2 & H3 & H4).
  unfold session_invariant. cbn [fst snd quiz polling currentQuestion userAnswers length].
  repeat split; try assumption; try lia.
  - destruct qs; [contradiction | cbn; lia].
  - constructor.
  - rewrite H4 by discriminate. exact Hdata.
  - left. exact H1.
Qed.

Lemma perform_invariant (a : Action) (pw : Popup * World) :
  session_invariant m qs pw -> session_invariant m qs (perform eng tab script pw a).
Proof.
  destruct pw as [p w]. unfold session_invariant, perform. cbn [fst snd].
  intros (Hquiz & Hpoll & Hcur & Hlo & Hhi & Hall & Hdata & Hidx & Hans & Hstate).
  destruct a as [index | |]; cbn [act].
  - unfold selectOption. cbn [fst snd quiz polling currentQuestion userAnswers].
    match goal with
    | |- context [deliver _ _ _ [saveProgressMsg ?s ?q ?ans] ?w0] =>
        destruct (deliver_saveProgress eng tab script s q ans w0) as (H1 & H2 & H3 & H4)
    end.
    rewrite array_set_length.
    repeat split; try assumption; try lia.
    + apply array_set_Forall; [exact Hlo | eexists; reflexivity | exact Hall].
    + rewrite H4 by discriminate. exact Hdata.
    + left. exact H1.
  - destruct (array_get (currentQuestion p) (userAnswers p)) as [x|] eqn:Hx.
    + pose proof (array_get_Some _ _ _ Hx) as Hlt.
      destruct (Nat.eq_dec (S (currentQuestion p)) (length qs)) as [Hlast | Hmore].
      * rewrite (nextQuestion_last p m qs Hquiz Hqs x Hx Hlast). cbn [fst snd].
        destruct (deliver_saveProgress eng tab script "completed" (currentQuestion p)
                    (userAnswers p) w) as (H1 & H2 & H3 & H4).
        repeat split; try assumption.
        -- rewrite H4 by discriminate. exact Hdata.
        -- right. split; [exact H1 | lia].
      * rewrite (nextQuestion_next p m qs Hquiz Hqs x Hx) by lia.
        cbn [fst snd quiz polling currentQuestion userAnswers].
        destruct (deliver_saveProgress eng tab script "in_progress" (S (currentQuestion p))
                    (userAnswers p) w) as (H1 & H2 & H3 & H4).
        repeat split; try assumption; try lia.
        -- rewrite H4 by discriminate. exact Hdata.
        -- left. exact H1.
    + rewrite (nextQuestion_unanswered p Hx). cbn [fst snd deliver fold_left].
      repeat split; assumption.
  - unfold redoQuiz. cbn [fst snd quiz polling currentQuestion userAnswers length].
    destruct (deliver_saveProgress eng tab script "in_progress" 0 [] w) as (H1 & H2 & H3 & H4).
    repeat split; try assumption; try lia.
    + constructor.
    + rewrite H4 by discriminate. exact Hdata.
    + left. exact H1.
Qed.

Lemma run_invariant (actions : list Action) (pw : Popup * World) :
  session_invariant m qs pw ->
  session_invariant m qs (fold_left (perform eng tab script) actions pw).
Proof.
  revert pw. induction actions as [|a actions IH]; intros pw H; [exact H |].
  cbn [fold_left]. apply IH, perform_invariant, H.
Qed.

End Session.

(** X8: from the opening of the popup on a ready quiz with at least
    one question, whatever the user selects and however often they press
    Next or Redo, the current index is the index of a question, every
    answer up to the current question is an option index, there is no
    answer beyond it, and the stored state is [completed] only when every
    question has its answer. *)
Theorem quiz_view_stays_in_bounds
    (eng : Engine) (tab : result (option Z)) (script : result (option PageText))
    (w : World) (m : list (jsstring * value)) (qs : list value) (actions : list Action) :
  store w !! "quizState" = Some (str "ready") ->
  store w !! "quizData" = Some (JObj m) ->
  obj_get (js "questions") m = Some (JArr qs) ->
  qs <> [] ->
  let r := fold_left (perform eng tab script) actions (openPopup eng tab script w) in
  quiz (fst r) = Some (JObj m)
  /\ is_Some (qs !! currentQuestion (fst r))
  /\ Forall chosen (userAnswers (fst r))
  /\ (currentQuestion (fst r) <= length (userAnswers (fst r)) <= S (currentQuestion (fst r)))%nat
  /\ (store (snd r) !! "quizState" = Some (str "in_progress")
      \/ store (snd r) !! "quizState" = Some (str "completed")
         /\ length (userAnswers (fst r)) = length qs).
Proof.
  intros Hready Hdata Hqs Hne r.
  destruct (run_invariant eng tab script m qs Hqs actions _
              (openPopup_invariant eng tab script m qs Hqs w Hready Hdata Hne))
    as (Hquiz & _ & Hcur & Hlo & Hhi & Hall & _ & _ & _ & Hstate).
  fold r in Hquiz, Hcur, Hlo, Hhi, Hall, Hstate.
  split; [exact Hquiz |]. split; [apply lookup_lt_is_Some; exact Hcur |].
  split; [exact Hall |]. split; [lia | exact Hstate].
Qed.

(** X9: after any run of selections, Next and Redo, closing the popup
    loses nothing: the next opening sends no message and finds the same
    quiz and the same answers, and, while the quiz is in progress, the same
    current question. *)
Theorem progress_survives_reopening
    (eng : Engine) (tab : result (option Z)) (script : result (option PageText))
    (w : World) (m : list (jsstring * value)) (qs : list value) (actions : list Action) :
  store w !! "quizState" = Some (str "ready") ->
  store w !! "quizData" = Some (JObj m) ->
  obj_get (js "questions") m = Some (JArr qs) ->
  qs <> [] ->
  let r := fold_left (perform eng tab script) actions (openPopup eng tab script w) in
  let reopened := restoreSession (store (snd r)) Popup.initial in
  snd reopened = []
  /\ quiz (fst reopened) = quiz (fst r)
  /\ userAnswers (fst reopened) = userAnswers (fst r)
  /\ (store (snd r) !! "quizState" = Some (str "in_progress") -> fst reopened = fst r).
Proof.
  intros Hready Hdata Hqs Hne r reopened.
  destruct (run_invariant eng tab script m qs Hqs actions _
              (openPopup_invariant eng tab script m qs Hqs w Hready Hdata Hne))
    as (Hquiz & Hpoll & _ & _ & _ & Hall & Hd & Hidx & Hans & Hstate).
  fold r in Hquiz, Hpoll, Hall, Hd, Hidx, Hans, Hstate.
  assert (Hin : store (snd r) !! "quizState" = Some (str "in_progress") ->
                reopened = (fst r, [])).
  { intros Hs. subst reopened. unfold restoreSession.
    rewrite (state_or_idle_stored _ "in_progress" Hs) by discriminate.
    change (is_state (js "in_progress") "generating") with false.
    change (is_state (js "in_progress") "ready") with false.
    change (is_state (js "in_progress") "in_progress") with true. cbv iota.
    rewrite Hd, Hidx, Hans, index_or_zero_num, answers_or_empty_sent by exact Hall.
    destruct (fst r) as [q c u pl]. cbn in *. subst. reflexivity. }
  destruct Hstate as [Hs | [Hs _]].
  - rewrite (Hin Hs). cbn [fst snd]. repeat split.
  - assert (Hdone : reopened
                    = ({| quiz := quiz (fst r); currentQuestion := 0;
                          userAnswers := userAnswers (fst r); polling := false |}, [])).
    { subst reopened. unfold restoreSession.
      rewrite (state_or_idle_stored _ "completed" Hs) by discriminate.
      change (is_state (js "completed") "generating") with false.
      change (is_state (js "completed") "ready") with false.
      change (is_state (js "completed") "in_progress") with false.
      change (is_state (js "completed") "completed") with true. cbv iota.
      rewrite Hd, Hans, answers_or_empty_sent, Hquiz by exact Hall. reflexivity. }
    rewrite Hdone. cbn [fst snd quiz userAnswers]. repeat split.
    intros Hs'. rewrite Hs in Hs'. discriminate Hs'.
Qed.

Lemma quiz_view_stays_in_bounds_witness :
  is_Some ([Sample.terse; Sample.terse]
             !! currentQuestion
                  (fst (fold_left (perform Sample.engine Sample.tab (Return None))
                          Sample.clicks
                          (openPopup Sample.engine Sample.tab (Return None)
                             Sample.readyQuiz)))).
Proof.
  destruct (quiz_view_stays_in_bounds Sample.engine Sample.tab (Return None)
              Sample.readyQuiz Sample.twoQuestions [Sample.terse; Sample.terse]
              Sample.clicks) as (_ & H & _).
  - vm_compute. reflexivity.
  - vm_compute. reflexivity.
  - reflexivity.
  - discriminate.
  - exact H.
Defined.

Lemma progress_survives_reopening_witness :
  userAnswers
    (fst (restoreSession
            (store (snd (fold_left (perform Sample.engine Sample.tab (Return None))
                           Sample.clicks
                           (openPopup Sample.engine Sample.tab (Return None)
                              Sample.readyQuiz))))
            Popup.initial))
  = userAnswers
      (fst (fold_left (perform Sample.engine Sample.tab (Return None)) Sample.clicks
              (openPopup Sample.engine Sample.tab (Return None) Sample.readyQuiz))).
Proof.
  destruct (progress_survives_reopening Sample.engine Sample.tab (Return None)
              Sample.readyQuiz Sample.twoQuestions [Sample.terse; Sample.terse]
              Sample.clicks) as (_ & _ & H & _).
  - vm_compute. reflexivity.
  - vm_compute. reflexivity.
  - reflexivity.
  - discriminate.
  - exact H.
Defined.

(** X10: [selectOption] stores the chosen index as the answer of the
    current question and changes no other answer; selecting again replaces
    the answer, so that two selections in a row are the same as the
    second. *)
Theorem last_selection_wins (i j : nat) (p : Popup) :
  array_get (currentQuestion p) (userAnswers (fst (selectOption i p)))
  = Some (num (Z.of_nat i))
  /\ (forall k, k <> currentQuestion p ->
        array_get k (userAnswers (fst (selectOption i p))) = array_get k (userAnswers p))
  /\ selectOption j (fst (selectOption i p)) = selectOption j p.
Proof.
  unfold selectOption. cbn [fst quiz currentQuestion userAnswers polling].
  split; [| split].
  - rewrite array_get_set. destruct (decide _); [reflexivity | contradiction].
  - intros k Hk. rewrite array_get_set. destruct (decide _); [congruence | reflexivity].
  - rewrite array_set_set. reflexivity.
Qed.

Lemma Qeq_bool_inject_Z (a b : Z) : Qeq_bool (inject_Z a) (inject_Z b) = (a =? b)%Z.
Proof. unfold Qeq_bool, inject_Z. cbn. rewrite !Z.mul_1_r. reflexivity. Qed.

Lemma countCorrect_document (qs : list Question) (i : nat) (answers : list (option value)) :
  countCorrect i (map value_of_question qs) answers
  = Return (length (List.filter
                      (fun qa => strict_eq (snd qa)
                                   (Some (num (Z.of_nat (correctIndex (fst qa))))))
                      (combine qs (drop i answers)))).
Proof.
  revert i. induction qs as [|q qs IH]; intros i; [reflexivity |].
  cbn [map countCorrect value_of_question].
  change (property _ "correctIndex") with (Some (num (Z.of_nat (correctIndex q)))).
  rewrite IH. unfold array_get.
  destruct (answers !! i) as [x|] eqn:Hx.
  - rewrite (drop_S answers x i Hx). cbn [combine List.filter fst snd].
    destruct (strict_eq x _); reflexivity.
  - apply lookup_ge_None in Hx.
    rewrite (drop_ge answers i), (drop_ge answers (S i)) by lia.
    destruct qs; reflexivity.
Qed.

Lemma countCorrect_bound (questions : list value) (answers : list (option value)) :
  forall i n, countCorrect i questions answers = Return n -> (n <= length questions)%nat.
Proof.
  induction questions as [|q questions IH]; intros i n H.
  - cbn in H. injection H as <-. cbn. lia.
  - cbn [countCorrect] in H.
    destruct (countCorrect (S i) questions answers) as [k|e] eqn:Hk.
    + specialize (IH _ _ Hk). cbn [length].
      destruct q; try discriminate H;
        injection H as <-; destruct (strict_eq _ _); lia.
    + destruct q; discriminate H.
Qed.

(** X11: for a quiz of the prompt's shape and answers given by
    selecting, the score of [showResults] is the number of questions whose
    selected index is their [correctIndex] (questions without an answer
    count as wrong); choosing the correct index everywhere scores the
    number of questions, and no answers score more than that. *)
Theorem score_is_the_number_of_correct_picks (qs : list Question) (picks : list nat) :
  countCorrect 0 (map value_of_question qs) (map (fun k => Some (num (Z.of_nat k))) picks)
  = Return (length (List.filter (fun qk => (correctIndex (fst qk) =? snd qk)%nat)
                      (combine qs picks)))
  /\ countCorrect 0 (map value_of_question qs)
       (map (fun k => Some (num (Z.of_nat k))) (map correctIndex qs))
     = Return (length qs)
  /\ (forall answers n,
        countCorrect 0 (map value_of_question qs) answers = Return n ->
        (n <= length qs)%nat).
Proof.
  assert (H : forall picks,
             countCorrect 0 (map value_of_question qs)
               (map (fun k => Some (num (Z.of_nat k))) picks)
             = Return (length (List.filter (fun qk => (correctIndex (fst qk) =? snd qk)%nat)
                                 (combine qs picks)))).
  { clear picks. intros picks. rewrite countCorrect_document, drop_0. f_equal.
    revert picks. induction qs as [|q qs' IH]; intros [|k picks]; try reflexivity.
    cbn [map combine List.filter fst snd strict_eq num].
    rewrite Qeq_bool_inject_Z.
    replace (Z.of_nat k =? Z.of_nat (correctIndex q))%Z with (correctIndex q =? k)%nat.
    - destruct (correctIndex q =? k)%nat; cbn [length]; rewrite IH; reflexivity.
    - destruct (Nat.eqb_spec (correctIndex q) k), (Z.eqb_spec (Z.of_nat k) (Z.of_nat (correctIndex q)));
        try reflexivity; lia. }
  split; [apply H |]. split.
  - rewrite H. f_equal. clear. induction qs as [|q qs IH]; [reflexivity |].
    cbn [map combine List.filter fst snd]. rewrite Nat.eqb_refl. cbn [length].
    rewrite IH. reflexivity.
  - intros answers n Hn. apply countCorrect_bound in Hn. rewrite length_map in Hn. exact Hn.
Qed.

(** X12: whenever [isConfigured] lets the popup offer a quiz, the stored
    provider is one of the three the worker knows, its key is set when it
    needs one, and a start on a usable page reaches that provider. *)
Theorem configured_provider_is_known
    (eng : Engine) (tabId : Z) (page : PageText) (w : World) :
  isConfigured (store w) = true ->
  tabId <> 0%Z ->
  (50 <= wordCount page)%Z ->
  exists p,
    provider_of (string_or (store w !! "provider") (js "ollama")) = Some p
    /\ store w !! "provider" = Some (JStr (string_or (store w !! "provider") (js "ollama")))
    /\ (p = OpenAI -> truthy (store w !! "openaiKey") = true)
    /\ (p = Anthropic -> truthy (store w !! "anthropicKey") = true)
    /\ (exists pending,
          snd (handleGenerateQuiz eng (Return (Some tabId)) (Return (Some page)) w)
          = Some pending /\ llmProvider pending = p).
Proof.
  intros Hc Htab Hwc. unfold isConfigured in Hc.
  destruct (store w !! "provider") as [[| | | [|c s] | |]|] eqn:Hs;
    cbn [truthy negb] in Hc; try discriminate Hc;
    try (destruct (negb _); discriminate Hc).
  cbn [string_or].
  assert (Hp : exists p, provider_of (c :: s) = Some p
                         /\ (p = OpenAI -> truthy (store w !! "openaiKey") = true)
                         /\ (p = Anthropic -> truthy (store w !! "anthropicKey") = true)).
  { unfold provider_of.
    destruct (jsstring_eqb (c :: s) (js "ollama")).
    - exists Ollama. repeat split; discriminate.
    - destruct (jsstring_eqb (c :: s) (js "openai")).
      + exists OpenAI. repeat split; [intros _; exact Hc | discriminate].
      + destruct (jsstring_eqb (c :: s) (js "anthropic")); [| discriminate Hc].
        exists Anthropic. repeat split; [discriminate | intros _; exact Hc]. }
  destruct Hp as (p & Hp & Hopen & Hanth). exists p.
  split; [exact Hp |]. split; [reflexivity |]. split; [exact Hopen |]. split; [exact Hanth |].
  rewrite (handleGenerateQuiz_dispatch eng tabId page w p Htab Hwc).
  - eexists. split; reflexivity.
  - rewrite Hs. exact Hp.
Qed.

Lemma configured_provider_is_known_witness :
  exists p, provider_of (string_or (store Sample.withOllama !! "provider") (js "ollama"))
            = Some p.
Proof.
  destruct (configured_provider_is_known Sample.engine 7 Sample.longPage Sample.withOllama)
    as (p & H & _).
  - vm_compute. reflexivity.
  - discriminate.
  - vm_compute. discriminate.
  - exists p. exact H.
Defined.

(** ** The text of a page *)


Section TextFacts.

Implicit Types (s r p : jsstring) (l ws : list jsstring) (c : N) (b : bool).

Lemma split_from_cons b s : exists p l, split_from b s = p :: l.
Proof.
  revert b. induction s as [|c r IH]; intros b; cbn [split_from]; [eauto |].
  destruct (is_space c).
  - destruct b; [apply IH | eauto].
  - destruct (IH false) as (p & l & ->). cbn. eauto.
Qed.

Lemma join_cons sep p q l : join sep (p :: q :: l) = p ++ sep ++ join sep (q :: l).
Proof. reflexivity. Qed.

Lemma join_add sep c p l : join sep ((c :: p) :: l) = c :: join sep (p :: l).
Proof. destruct l; reflexivity. Qed.

Lemma collapse_from_join b s : collapse_from b s = join [32] (split_from b s).
Proof.
  revert b. induction s as [|c r IH]; intros b; [reflexivity |].
  cbn [collapse_from split_from]. destruct (is_space c).
  - destruct b; [apply IH |].
    rewrite IH. destruct (split_from_cons true r) as (p & l & ->). reflexivity.
  - rewrite IH. destruct (split_from_cons false r) as (p & l & ->).
    cbn [add]. rewrite join_add. reflexivity.
Qed.

Lemma trimStart_collapse b s : trimStart (collapse_from b s) = collapse_from true s.
Proof.
  revert b. induction s as [|c r IH]; intros b; [reflexivity |].
  cbn [collapse_from]. destruct (is_space c) eqn:Hc.
  - destruct b; [apply IH |]. cbn [trimStart].
    change (is_space 32) with true. cbv iota. apply IH.
  - cbn [trimStart]. rewrite Hc. reflexivity.
Qed.

Lemma split_shape s :
  words_then (split_from true s)
  /\ exists p l, split_from false s = p :: l /\ spacefree p /\ (l = [] \/ words_then l).
Proof.
  induction s as [|c r [IHt (p & l & IHf & Hp & Hl)]].
  - split; [exists [], []; repeat split; constructor |].
    exists [], []. repeat split; [constructor | left; reflexivity].
  - cbn [split_from]. destruct (is_space c) eqn:Hc.
    + split; [exact IHt |]. exists [], (split_from true r).
      repeat split; [constructor | right; exact IHt].
    + rewrite IHf. cbn [add].
      assert (Hcp : spacefree (c :: p)) by (constructor; assumption).
      split.
      * destruct Hl as [-> | (ws & last & -> & Hws & Hlast)].
        -- exists [], (c :: p). repeat split; [constructor | exact Hcp].
        -- exists ((c :: p) :: ws), last. repeat split; [| exact Hlast].
           constructor; [| exact Hws]. split; [discriminate | exact Hcp].
      * exists (c :: p), l. repeat split; assumption.
Qed.

Lemma filter_words ws : Forall word ws -> List.filter nonempty ws = ws.
Proof.
  induction 1 as [|w ws [Hne _] _ IH]; [reflexivity |].
  cbn [List.filter]. destruct w; [contradiction |]. cbn [nonempty]. rewrite IH. reflexivity.
Qed.

Lemma words_from_true s : words s = List.filter nonempty (split_from true s).
Proof.
  unfold words, split_spaces. destruct s as [|c r]; [reflexivity |].
  cbn [split_from]. destruct (is_space c); reflexivity.
Qed.

Lemma trimEnd_snoc x c :
  trimEnd (x ++ [c]) = if is_space c then trimEnd x else x ++ [c].
Proof.
  unfold trimEnd. rewrite rev_app_distr. cbn [rev app trimStart].
  destruct (is_space c); [reflexivity |].
  cbn [rev]. rewrite rev_involutive. reflexivity.
Qed.

Lemma join_words_last ws :
  ws <> [] -> Forall word ws ->
  exists x c, join [32] ws = x ++ [c] /\ is_space c = false.
Proof.
  intros Hne Hws. induction Hws as [|w ws [Hw Hsf] Hws IH]; [contradiction |].
  destruct ws as [|w' ws].
  - cbn [join]. destruct (exists_last Hw) as (x & c & ->). exists x, c.
    split; [reflexivity |]. apply Forall_app in Hsf as [_ Hc]. inversion Hc; assumption.
  - destruct IH as (x & c & Hx & Hc); [discriminate |].
    rewrite join_cons, Hx. exists (w ++ [32] ++ x), c.
    split; [rewrite <- !app_assoc; reflexivity | exact Hc].
Qed.

Lemma trimEnd_join_words ws : Forall word ws -> trimEnd (join [32] ws) = join [32] ws.
Proof.
  intros Hws. destruct ws as [|w ws]; [reflexivity |].
  destruct (join_words_last (w :: ws)) as (x & c & -> & Hc); [discriminate | exact Hws |].
  rewrite trimEnd_snoc, Hc. reflexivity.
Qed.

Lemma join_snoc_empty ws :
  ws <> [] -> join [32] (ws ++ [[]]) = join [32] ws ++ [32].
Proof.
  induction ws as [|w ws IH]; [contradiction |]. intros _.
  destruct ws as [|w' ws]; [reflexivity |].
  change ((w :: w' :: ws) ++ [[]]) with (w :: (w' :: ws) ++ [[]]).
  change ((w' :: ws) ++ [[]]) with (w' :: (ws ++ [[]])) at 1.
  rewrite !join_cons. change (w' :: ws ++ [[]]) with ((w' :: ws) ++ [[]]).
  rewrite IH by discriminate. rewrite <- !app_assoc. reflexivity.
Qed.

(** Cleaning a text leaves its words, one space between them. *)
Lemma clean_words s :
  trim (collapse s) = join [32] (words s) /\ Forall word (words s).
Proof.
  unfold trim, collapse. rewrite trimStart_collapse, collapse_from_join, words_from_true.
  destruct (split_shape s) as [(ws & last & -> & Hws & Hlast) _].
  rewrite List.filter_app, (filter_words ws Hws). cbn [List.filter].
  destruct last as [|c last]; cbn [nonempty].
  - rewrite app_nil_r. split; [| exact Hws].
    destruct ws as [|w ws]; [reflexivity |].
    rewrite join_snoc_empty by discriminate.
    rewrite trimEnd_snoc. change (is_space 32) with true. cbv iota.
    apply trimEnd_join_words, Hws.
  - assert (Hall : Forall word (ws ++ [c :: last])).
    { apply Forall_app. split; [exact Hws |]. constructor; [| constructor].
      split; [discriminate | exact Hlast]. }
    split; [apply trimEnd_join_words, Hall | exact Hall].
Qed.

Lemma split_from_spacefree p r :
  spacefree p -> split_from false (p ++ r) = prepend p (split_from false r).
Proof.
  induction 1 as [|c p Hc _ IH].
  - cbn [app]. destruct (split_from_cons false r) as (h & t & ->). reflexivity.
  - cbn [app split_from]. rewrite Hc, IH.
    destruct (split_from_cons false r) as (h & t & ->). reflexivity.
Qed.

Lemma split_from_word w r : word w -> split_from true (w ++ r) = split_from false (w ++ r).
Proof.
  intros [Hne Hsf]. destruct w as [|c w]; [contradiction |].
  inversion Hsf as [|? ? Hc _]; subst. cbn [app split_from]. rewrite Hc. reflexivity.
Qed.

Lemma join_head sep w ws : exists x, join sep (w :: ws) = w ++ x.
Proof.
  destruct ws as [|w' ws]; [exists []; cbn; rewrite app_nil_r; reflexivity |].
  rewrite join_cons. eauto.
Qed.

Lemma split_join_words ws r (T : list jsstring) :
  ws <> [] -> Forall word ws -> split_from false r = [] :: T ->
  split_from false (join [32] ws ++ r) = ws ++ T.
Proof.
  intros Hne Hws Hr. induction Hws as [|w ws Hw Hws IH]; [contradiction |].
  destruct ws as [|w' ws].
  - cbn [join]. rewrite split_from_spacefree by apply Hw. rewrite Hr.
    cbn [prepend]. rewrite app_nil_r. reflexivity.
  - rewrite join_cons, <- !app_assoc, split_from_spacefree by apply Hw.
    cbn [app split_from]. change (is_space 32) with true. cbv iota. cbn [prepend].
    rewrite app_nil_r.
    destruct (join_head [32] w' ws) as (x & Hx).
    rewrite Hx, <- app_assoc, split_from_word by (inversion Hws; assumption).
    rewrite app_assoc, <- Hx, IH by discriminate. reflexivity.
Qed.

Lemma words_join ws : Forall word ws -> words (join [32] ws) = ws.
Proof.
  intros Hws. destruct ws as [|w ws]; [reflexivity |].
  unfold words, split_spaces.
  rewrite <- (app_nil_r (join [32] (w :: ws))).
  rewrite (split_join_words (w :: ws) [] []) by (first [discriminate | assumption | reflexivity]).
  rewrite app_nil_r. apply filter_words, Hws.
Qed.

Lemma clean_clean s : trim (collapse (trim (collapse s))) = trim (collapse s).
Proof.
  destruct (clean_words s) as [Hs Hws].
  destruct (clean_words (trim (collapse s))) as [Hs' _].
  rewrite Hs', Hs, words_join by exact Hws. reflexivity.
Qed.

Lemma words_clean s : words (trim (collapse s)) = words s.
Proof. destruct (clean_words s) as [-> Hws]. apply words_join, Hws. Qed.

Lemma join_words_nil ws : Forall word ws -> join [32] ws = [] -> ws = [].
Proof.
  intros Hws H. destruct ws as [|w ws]; [reflexivity |].
  destruct (join_words_last (w :: ws)) as (x & c & Hx & _); [discriminate | exact Hws |].
  rewrite Hx in H. destruct x; discriminate H.
Qed.

(** A text followed by white space and more text has the words of
    both. *)
Lemma words_clean_app s c r :
  s <> [] -> trim (collapse s) = s -> is_space c = true ->
  words (s ++ c :: r) = words s ++ words r.
Proof.
  intros Hne Hs Hc. destruct (clean_words s) as [Hj Hws]. rewrite Hs in Hj.
  assert (Hw : words s <> []).
  { intros H. rewrite H in Hj. cbn in Hj. contradiction. }
  rewrite (words_from_true r). unfold words at 1, split_spaces.
  rewrite Hj at 1.
  rewrite (split_join_words (words s) (c :: r) (split_from true r)); try assumption.
  - rewrite List.filter_app, (filter_words _ Hws). reflexivity.
  - cbn [split_from]. rewrite Hc. reflexivity.
Qed.

(** ** Lines *)

Lemma split_lines_cons s : exists p l, split_lines s = p :: l.
Proof.
  induction s as [|c r (p & l & IH)]; cbn [split_lines]; [eauto |].
  destruct (c =? 10); [eauto |]. rewrite IH. cbn. eauto.
Qed.

Lemma split_lines_app p r :
  ~ In 10 p -> split_lines (p ++ r) = prepend p (split_lines r).
Proof.
  induction p as [|c p IH]; intros Hp.
  - cbn [app]. destruct (split_lines_cons r) as (h & t & ->). reflexivity.
  - cbn [app split_lines]. destruct (N.eqb_spec c 10) as [-> | _].
    + exfalso. apply Hp. left. reflexivity.
    + rewrite IH by (intros H; apply Hp; right; exact H).
      destruct (split_lines_cons r) as (h & t & ->). reflexivity.
Qed.

Lemma split_lines_join ls :
  ls <> [] -> Forall (fun line => ~ In 10 line) ls -> split_lines (join [10] ls) = ls.
Proof.
  intros Hne Hls. induction Hls as [|l ls Hl Hls IH]; [contradiction |].
  destruct ls as [|l' ls].
  - cbn [join]. rewrite <- (app_nil_r l) at 1. rewrite split_lines_app by exact Hl.
    cbn. rewrite app_nil_r. reflexivity.
  - rewrite join_cons, split_lines_app by exact Hl.
    change (split_lines ([10] ++ join [10] (l' :: ls)))
      with ([] :: split_lines (join [10] (l' :: ls))).
    cbn [prepend]. rewrite app_nil_r, IH by discriminate. reflexivity.
Qed.

Lemma clean_one_line s : ~ In 10 (trim (collapse s)).
Proof.
  destruct (clean_words s) as [-> Hws]. induction Hws as [|w ws [_ Hw] Hws IH]; [intros [] |].
  assert (H10 : ~ In 10 w).
  { intros Hin. unfold spacefree in Hw. rewrite List.Forall_forall in Hw. specialize (Hw 10 Hin). discriminate Hw. }
  destruct ws as [|w' ws]; [exact H10 |].
  rewrite join_cons. intros Hin. apply in_app_or in Hin as [Hin | Hin]; [exact (H10 Hin) |].
  cbn [app In] in Hin. destruct Hin as [Hin | Hin]; [discriminate Hin | exact (IH Hin)].
Qed.

End TextFacts.

Lemma kept_lines_clean (rawText : jsstring) :
  Forall (fun line => (20 <= length line)%nat /\ trim (collapse line) = line
                      /\ ~ In 10 line)
    (kept_lines rawText).
Proof.
  unfold kept_lines. apply List.Forall_forall. intros line Hin.
  apply List.filter_In in Hin as [Hin Hlen]. apply in_map_iff in Hin as (s & <- & _).
  split; [apply Nat.leb_le, Hlen |]. split; [apply clean_clean | apply clean_one_line].
Qed.

Lemma words_join_lines (ls : list jsstring) :
  Forall (fun line => (20 <= length line)%nat /\ trim (collapse line) = line
                      /\ ~ In 10 line) ls ->
  words (join [10] ls) = concat (map words ls).
Proof.
  induction 1 as [|l ls (Hlen & Hclean & _) Hls IH]; [reflexivity |].
  destruct ls as [|l' ls].
  - cbn [join map concat]. rewrite app_nil_r. reflexivity.
  - rewrite join_cons. cbn [app]. rewrite words_clean_app; try assumption; try reflexivity.
    + change (concat (map words (l :: l' :: ls)))
        with (words l ++ concat (map words (l' :: ls))).
      f_equal. exact IH.
    + intros ->. cbn in Hlen. lia.
Qed.

Lemma pageText_words (innerText : jsstring) :
  text (pageText innerText) = join [32] (words innerText)
  /\ wordCount (pageText innerText) = Z.of_nat (length (words innerText)).
Proof.
  unfold pageText. cbn [text wordCount]. rewrite words_clean.
  split; [apply clean_words | reflexivity].
Qed.

(** X13: the text [extractPageText] returns is the words of the
    [innerText], in their order, with one space between them: no white
    space at either end, no other white space than single spaces.  The
    word count is the number of these words, it is 0 exactly when the text
    is empty, and cleaning the text again changes nothing. *)
Theorem page_text_is_its_words (innerText : jsstring) :
  text (pageText innerText) = join [32] (words innerText)
  /\ Forall word (words innerText)
  /\ wordCount (pageText innerText) = Z.of_nat (length (words innerText))
  /\ (wordCount (pageText innerText) = 0%Z <-> text (pageText innerText) = [])
  /\ pageText (text (pageText innerText)) = pageText innerText.
Proof.
  unfold pageText. cbn [text wordCount]. rewrite clean_clean, !words_clean.
  destruct (clean_words innerText) as [Hj Hws].
  split; [exact Hj |]. split; [exact Hws |]. split; [reflexivity |]. split; [| reflexivity].
  rewrite Hj. split.
  - intros H. destruct (words innerText); [reflexivity | discriminate H].
  - intros H. rewrite (join_words_nil _ Hws H). reflexivity.
Qed.

Lemma clean_lines_fix (ls : list jsstring) :
  Forall (fun line => (20 <= length line)%nat /\ trim (collapse line) = line
                      /\ ~ In 10 line) ls ->
  List.filter (fun line => (20 <=? length line)%nat)
    (map (fun line => trim (collapse line)) ls) = ls.
Proof.
  induction 1 as [|x xs (Hlen & Hclean & _) _ IH]; [reflexivity |].
  cbn [map List.filter]. rewrite Hclean.
  destruct (Nat.leb_spec 20 (length x)); [| lia]. rewrite IH. reflexivity.
Qed.

(** X14: every line [processText] keeps has at least 20 characters, is
    its own cleaned form and holds no line feed; unless no line is kept,
    the lines of the result are the kept lines.  [processText] changes
    nothing in a text it has made, and the word count of [extractText] is
    the number of words of the kept lines. *)
Theorem processed_text_is_stable (rawText : jsstring) :
  Forall (fun line => (20 <= length line)%nat /\ trim (collapse line) = line
                      /\ ~ In 10 line)
    (kept_lines rawText)
  /\ (kept_lines rawText <> [] -> split_lines (processText rawText) = kept_lines rawText)
  /\ processText (processText rawText) = processText rawText
  /\ wordCount (extractText_result rawText)
     = Z.of_nat (length (concat (map words (kept_lines rawText)))).
Proof.
  pose proof (kept_lines_clean rawText) as Hkept.
  assert (Hsplit : kept_lines rawText <> [] ->
                   split_lines (processText rawText) = kept_lines rawText).
  { intros Hne. apply split_lines_join; [exact Hne |].
    eapply Forall_impl; [exact Hkept |]. cbn. tauto. }
  split; [exact Hkept |]. split; [exact Hsplit |]. split.
  - assert (Hp : forall s, processText s = join [10] (kept_lines s)) by reflexivity.
    rewrite (Hp (processText rawText)). rewrite (Hp rawText) at 2. f_equal.
    destruct (kept_lines rawText) as [|l ls] eqn:Hk.
    + rewrite Hp, Hk. reflexivity.
    + unfold kept_lines at 1. rewrite Hsplit by discriminate.
      apply clean_lines_fix, Hkept.
  - unfold extractText_result. cbn [wordCount]. f_equal. f_equal.
    apply words_join_lines, Hkept.
Qed.

(** ** Pruning the clone *)


Section CloneFacts.

Variable P : Node -> Prop.
Hypothesis Helement : forall name attrs kids, Forall P kids -> P (ElementNode name attrs kids).
Hypothesis Htext : forall data, P (TextNode data).
Hypothesis Hcomment : forall data, P (CommentNode data).

Lemma Node_induction : forall n, P n.
Proof.
  fix IH 1. intros [name attrs kids | data | data].
  - apply Helement. induction kids as [|k kids IHk]; constructor; [apply IH | exact IHk].
  - apply Htext.
  - apply Hcomment.
Qed.

End CloneFacts.

Section Pruning.

Implicit Types (test : Test) (n k : Node) (l kids : list Node).

Lemma prune_element test name attrs kids :
  prune test (ElementNode name attrs kids) = ElementNode name attrs (pruneAll test kids).
Proof.
  cbn [prune]. f_equal. induction kids as [|k kids IH]; [reflexivity |].
  cbn [pruneAll]. destruct k as [name' attrs' kids' | |]; rewrite IH; reflexivity.
Qed.

Lemma prune_leaf test n : (forall name attrs kids, n <> ElementNode name attrs kids) ->
  prune test n = n.
Proof. destruct n; [intros H; exfalso; eapply H; reflexivity | reflexivity..]. Qed.

Lemma elementsBelow_element name attrs kids :
  elementsBelow (ElementNode name attrs kids) = elementsIn kids.
Proof.
  cbn [elementsBelow]. induction kids as [|k kids IH]; [reflexivity |].
  cbn [elementsIn]. destruct k; rewrite IH; reflexivity.
Qed.

Lemma textContent_element name attrs kids :
  textContent (ElementNode name attrs kids) = textOf kids.
Proof.
  cbn [textContent]. induction kids as [|k kids IH]; [reflexivity |].
  cbn [textOf]. rewrite IH. reflexivity.
Qed.

(** Nothing that the test accepts is left below a pruned node. *)
Lemma prune_sound test n :
  Forall (fun e => tested test e = false) (elementsBelow (prune test n)).
Proof.
  induction n as [name attrs kids IH | data | data] using Node_induction;
    [| constructor..].
  rewrite prune_element, elementsBelow_element.
  induction IH as [|k kids Hk _ IHkids]; [constructor |].
  cbn [pruneAll]. destruct k as [name' attrs' kids' | |]; [| exact IHkids..].
  destruct (test name' attrs') eqn:Ht; [exact IHkids |].
  rewrite prune_element. cbn [elementsIn]. constructor; [exact Ht |].
  apply Forall_app. split; [| exact IHkids].
  rewrite <- prune_element. exact Hk.
Qed.

(** Two passes are one pass with either test. *)
Lemma prune_prune test1 test2 n :
  prune test2 (prune test1 n)
  = prune (fun name attrs => test1 name attrs || test2 name attrs) n.
Proof.
  induction n as [name attrs kids IH | data | data] using Node_induction;
    [| reflexivity..].
  rewrite !prune_element. f_equal.
  induction IH as [|k kids Hk _ IHkids]; [reflexivity |].
  cbn [pruneAll]. destruct k as [name' attrs' kids' | |];
    [| cbn [pruneAll]; rewrite IHkids; reflexivity..].
  destruct (test1 name' attrs') eqn:H1; cbn [orb]; [exact IHkids |].
  rewrite prune_element. cbn [pruneAll].
  destruct (test2 name' attrs') eqn:H2; [exact IHkids |].
  rewrite <- !prune_element, Hk, IHkids. reflexivity.
Qed.

(** A node below which the test accepts nothing stays as it is. *)
Lemma prune_clean test n :
  Forall (fun e => tested test e = false) (elementsBelow n) -> prune test n = n.
Proof.
  induction n as [name attrs kids IH | data | data] using Node_induction;
    [| reflexivity..].
  rewrite prune_element, elementsBelow_element. intros Hall. f_equal.
  induction IH as [|k kids Hk _ IHkids]; [reflexivity |].
  cbn [pruneAll]. destruct k as [name' attrs' kids' | |].
  - cbn [elementsIn] in Hall. inversion Hall as [|? ? Ht Hrest]; subst.
    apply Forall_app in Hrest as [Hbelow Hrest]. cbn [tested] in Ht. rewrite Ht.
    rewrite Hk by exact Hbelow. rewrite IHkids by exact Hrest. reflexivity.
  - rewrite IHkids by exact Hall. reflexivity.
  - rewrite IHkids by exact Hall. reflexivity.
Qed.

(** The text of a pruned node is what is left of the text of the node: no
    character is added and none changes its place. *)
Lemma prune_text test n : sublist (textContent (prune test n)) (textContent n).
Proof.
  induction n as [name attrs kids IH | data | data] using Node_induction;
    [| reflexivity..].
  rewrite prune_element, !textContent_element.
  induction IH as [|k kids Hk _ IHkids]; [reflexivity |].
  cbn [pruneAll]. destruct k as [name' attrs' kids' | |].
  - destruct (test name' attrs').
    + cbn [textOf]. apply sublist_inserts_l. exact IHkids.
    + cbn [textOf]. apply sublist_app; [exact Hk | exact IHkids].
  - cbn [textOf]. apply sublist_app; [reflexivity | exact IHkids].
  - cbn [textOf]. apply sublist_app; [reflexivity | exact IHkids].
Qed.

End Pruning.

Lemma prune_idempotent (test : Test) (n : Node) : prune test (prune test n) = prune test n.
Proof. apply prune_clean, prune_sound. Qed.

Lemma either_app (tests1 tests2 : list Test) (name : string) attrs :
  either (tests1 ++ tests2) name attrs = either tests1 name attrs || either tests2 name attrs.
Proof. unfold either. apply existsb_app. Qed.

Lemma prune_ext (test1 test2 : Test) (n : Node) :
  (forall name attrs, test1 name attrs = test2 name attrs) ->
  prune test1 n = prune test2 n.
Proof.
  intros H. induction n as [name attrs kids IH | data | data] using Node_induction;
    [| reflexivity..].
  rewrite !prune_element. f_equal.
  induction IH as [|k kids Hk _ IHkids]; [reflexivity |].
  cbn [pruneAll]. destruct k as [name' attrs' kids' | |]; rewrite ?IHkids; try reflexivity.
  rewrite H, Hk. reflexivity.
Qed.

(** X15: removing the matches of a test from a clone leaves no element
    below the clone that the test accepts; a clone without such an element
    stays as it is, so that a second pass changes nothing; the text of the
    result is what is left of the text of the clone; and the clone itself
    stays, with its name and attributes, also when the test accepts it. *)
Theorem pruning_removes_every_match (test : Test) (n : Node) :
  Forall (fun e => tested test e = false) (elementsBelow (prune test n))
  /\ (Forall (fun e => tested test e = false) (elementsBelow n) -> prune test n = n)
  /\ prune test (prune test n) = prune test n
  /\ sublist (textContent (prune test n)) (textContent n)
  /\ (forall name attrs kids,
        n = ElementNode name attrs kids ->
        exists kids', prune test n = ElementNode name attrs kids').
Proof.
  split; [apply prune_sound |]. split; [apply prune_clean |].
  split; [apply prune_idempotent |]. split; [apply prune_text |].
  intros name attrs kids ->. rewrite prune_element. eauto.
Qed.

Lemma removeNoiseNodes_either (container : Node) :
  removeNoiseNodes container = prune (either [noiseName; noiseClass]) container.
Proof.
  unfold removeNoiseNodes. rewrite prune_prune. apply prune_ext.
  intros name attrs. unfold either. cbn [existsb]. rewrite orb_false_r. reflexivity.
Qed.

(** X16: the two passes of [removeNoiseNodes] are one pass with either
    test, and with the pass of [extractText] one pass with the three; below
    the result no element has a noise name, a noise word in its class or
    id, or, after the third pass, a hiding style or attribute.
    [removeNoiseNodes] changes nothing in a clone it has made. *)
Theorem noise_passes_are_one_pass (container : Node) :
  removeNoiseNodes container = prune (either [noiseName; noiseClass]) container
  /\ prune hiddenInline (removeNoiseNodes container)
     = prune (either [noiseName; noiseClass; hiddenInline]) container
  /\ Forall (fun e => tested noiseName e = false /\ tested noiseClass e = false)
       (elementsBelow (removeNoiseNodes container))
  /\ Forall (fun e => tested noiseName e = false /\ tested noiseClass e = false
                      /\ tested hiddenInline e = false)
       (elementsBelow (prune hiddenInline (removeNoiseNodes container)))
  /\ removeNoiseNodes (removeNoiseNodes container) = removeNoiseNodes container.
Proof.
  pose proof (removeNoiseNodes_either container) as H1.
  assert (H2 : prune hiddenInline (removeNoiseNodes container)
               = prune (either [noiseName; noiseClass; hiddenInline]) container).
  { rewrite H1, prune_prune. apply prune_ext.
    intros name attrs. unfold either. cbn [existsb]. rewrite !orb_false_r, orb_assoc.
    reflexivity. }
  split; [exact H1 |]. split; [exact H2 |]. split; [| split].
  - rewrite H1. eapply Forall_impl; [apply prune_sound |].
    intros [name attrs kids | |]; cbn [tested either existsb]; [| tauto..].
    rewrite orb_false_r. intros H. apply orb_false_iff in H. exact H.
  - rewrite H2. eapply Forall_impl; [apply prune_sound |].
    intros [name attrs kids | |]; cbn [tested either existsb]; [| tauto..].
    rewrite orb_false_r. intros H. apply orb_false_iff in H as [Ha H].
    apply orb_false_iff in H as [Hb Hc]. tauto.
  - rewrite !removeNoiseNodes_either. apply prune_idempotent.
Qed.

(** X17: below the clone that [extractPageText] reads, no element
    matches the selector of the excluded; the text is the words of what is
    left of the text of the root, with one space between them, and the
    word count is their number.  For a root without excluded elements the
    result is that of the whole text of the root. *)
Theorem page_text_leaves_out_the_excluded (root : Node) :
  Forall (fun e => tested excluded e = false) (elementsBelow (prune excluded root))
  /\ text (extractPageText_from root)
     = join [32] (words (textContent (prune excluded root)))
  /\ wordCount (extractPageText_from root)
     = Z.of_nat (length (words (textContent (prune excluded root))))
  /\ sublist (textContent (prune excluded root)) (textContent root)
  /\ (Forall (fun e => tested excluded e = false) (elementsBelow root) ->
        extractPageText_from root = pageText (textContent root)).
Proof.
  unfold extractPageText_from.
  destruct (pageText_words (textContent (prune excluded root))) as (Htext & Hcount).
  split; [apply prune_sound |]. split; [exact Htext |]. split; [exact Hcount |].
  split; [apply prune_text |].
  intros Hclean. rewrite prune_clean by exact Hclean. reflexivity.
Qed.

Example NOISE_CLASS_PATTERNS_examples :
  NOISE_CLASS_PATTERNS (js "nav-bar main") = true
  /\ NOISE_CLASS_PATTERNS (js "navbar main") = false
  /\ NOISE_CLASS_PATTERNS (js "post AD") = true
  /\ NOISE_CLASS_PATTERNS (js "ad_unit") = false
  /\ NOISE_CLASS_PATTERNS (js " ") = false.
Proof. repeat split. Qed.

(** ** The prompt and the response *)


Section PromptFacts.

Implicit Types (s r a b p : jsstring) (c : N).

Lemma getSubstitution_plain (m b a r : jsstring) :
  ~ In 36 r -> getSubstitution m b a r = r.
Proof.
  induction r as [|c r IH]; intros H; [reflexivity |].
  cbn [getSubstitution]. destruct (N.eqb_spec c 36) as [-> | _].
  - exfalso. apply H. left. reflexivity.
  - rewrite IH; [reflexivity |]. intros Hin. apply H. right. exact Hin.
Qed.

Lemma cut_skip (c : N) (p a s : jsstring) :
  ~ In c a ->
  cut (c :: p) (a ++ s)
  = match cut (c :: p) s with
    | Some (before, after) => Some (a ++ before, after)
    | None => None
    end.
Proof.
  induction a as [|x a IH]; intros H.
  - cbn [app]. destruct (cut (c :: p) s) as [[? ?]|]; reflexivity.
  - cbn [app cut strip_prefix].
    destruct (N.eqb_spec c x) as [-> | _]; [exfalso; apply H; left; reflexivity |].
    rewrite IH by (intros Hin; apply H; right; exact Hin).
    destruct (cut (c :: p) s) as [[? ?]|]; reflexivity.
Qed.

Lemma string_of_N_digits (n : N) : Forall (fun c => is_digit c = true) (string_of_N n).
Proof.
  destruct (string_of_N_spec n) as [[_ ->] | (c & ds & -> & _ & H & _)];
    [repeat constructor | exact H].
Qed.

Lemma string_of_Z_chars (z : Z) (c : N) :
  In c (string_of_Z z) -> c = 45 \/ is_digit c = true.
Proof.
  assert (H : forall n, In c (string_of_N n) -> is_digit c = true).
  { intros n Hin. pose proof (string_of_N_digits n) as Hd.
    rewrite List.Forall_forall in Hd. apply Hd, Hin. }
  destruct z as [|q|q]; cbn [string_of_Z].
  - intros Hin. right. exact (H _ Hin).
  - intros Hin. right. exact (H _ Hin).
  - intros [<- | Hin]; [left; reflexivity | right; exact (H _ Hin)].
Qed.

End PromptFacts.

(** X18: the prompt is the template with the count in decimal in the
    place of [{count}] and, in the place of [{text}], the text as
    [replace] expands it: a text without dollar sign arrives as it is, also
    when it holds [{count}] or [{text}] itself. *)
Theorem prompt_holds_the_count_and_the_text (text : jsstring) (questionCount : Z) :
  (Z.abs questionCount < 10 ^ 21)%Z ->
  buildQuizPrompt text questionCount
  = promptHead ++ string_of_Z questionCount ++ promptBody
      ++ getSubstitution (js "{text}")
           (promptHead ++ string_of_Z questionCount ++ promptBody) [] text
  /\ (~ In 36 text ->
        buildQuizPrompt text questionCount
        = promptHead ++ string_of_Z questionCount ++ promptBody ++ text).
Proof.
  intros _.
  assert (Hno : forall c, c = 36 \/ c = 123 -> ~ In c (string_of_Z questionCount)).
  { intros c Hc Hin. apply string_of_Z_chars in Hin as [-> | Hd].
    - destruct Hc; discriminate.
    - destruct Hc as [-> | ->]; discriminate Hd. }
  assert (H1 : replace (js "{count}") (string_of_Z questionCount) QUIZ_PROMPT_TEMPLATE
               = promptHead ++ string_of_Z questionCount ++ promptBody ++ js "{text}").
  { unfold replace.
    assert (Hcut : cut (js "{count}") QUIZ_PROMPT_TEMPLATE
                   = Some (promptHead, promptBody ++ js "{text}"))
      by (vm_compute; reflexivity).
    rewrite Hcut, getSubstitution_plain by (apply Hno; left; reflexivity).
    reflexivity. }
  assert (H2 : cut (js "{text}")
                 (promptHead ++ string_of_Z questionCount ++ promptBody ++ js "{text}")
               = Some (promptHead ++ string_of_Z questionCount ++ promptBody, [])).
  { change (js "{text}") with (123 :: js "text}") at 1.
    rewrite cut_skip.
    2: { assert (Hh : forallb (fun c => negb (123 =? c)) promptHead = true)
           by (vm_compute; reflexivity).
         rewrite forallb_forall in Hh. intros Hin. specialize (Hh _ Hin). discriminate Hh. }
    rewrite cut_skip by (apply Hno; right; reflexivity).
    assert (Hb : cut (123 :: js "text}") (promptBody ++ js "{text}") = Some (promptBody, []))
      by (vm_compute; reflexivity).
    rewrite Hb. reflexivity. }
  assert (H : buildQuizPrompt text questionCount
              = promptHead ++ string_of_Z questionCount ++ promptBody
                  ++ getSubstitution (js "{text}")
                       (promptHead ++ string_of_Z questionCount ++ promptBody) [] text).
  { unfold buildQuizPrompt. rewrite H1. unfold replace at 1. rewrite H2.
    rewrite app_nil_r, <- !app_assoc. reflexivity. }
  split; [exact H |]. intros Htext. rewrite H, getSubstitution_plain by exact Htext.
  reflexivity.
Qed.

Lemma prompt_holds_the_count_and_the_text_witness :
  buildQuizPrompt (js "a long article") 6
  = promptHead ++ js "6" ++ promptBody ++ js "a long article".
Proof.
  destruct (prompt_holds_the_count_and_the_text (js "a long article") 6) as [_ H].
  - reflexivity.
  - apply H. vm_compute. intuition discriminate.
Defined.

Lemma JSON_parse_no_value (c : N) (x : jsstring) :
  starts_no_value c = true -> JSON_parse (c :: x) = None.
Proof.
  unfold starts_no_value. rewrite negb_true_iff, !orb_false_iff.
  intros ((((((((Hws & H34) & H45) & Hd) & H91) & H123) & H110) & H116) & H102).
  unfold JSON_parse. cbn [skip_ws]. rewrite Hws.
  rewrite Nat.add_1_r, parse_value_S, H34, H91, H123.
  unfold parse_literal.
  change (js "null") with [110; 117; 108; 108].
  change (js "true") with [116; 114; 117; 101].
  change (js "false") with [102; 97; 108; 115; 101].
  cbn [strip_prefix].
  rewrite (N.eqb_sym 110), H110, (N.eqb_sym 116), H116, (N.eqb_sym 102), H102.
  unfold parse_number, parse_sign. rewrite H45. cbn [parse_int].
  destruct (c =? 48) eqn:H48.
  - apply N.eqb_eq in H48. subst c. discriminate Hd.
  - rewrite Hd. reflexivity.
Qed.

Lemma after_fence_prose (prose x : jsstring) :
  ~ In 96 prose -> after_fence (prose ++ fence ++ x) = Some x.
Proof.
  induction prose as [|c prose IH]; intros H.
  - destruct x; reflexivity.
  - cbn [app after_fence]. unfold fence at 1. cbn [strip_prefix].
    destruct (N.eqb_spec 96 c) as [<- | _]; [exfalso; apply H; left; reflexivity |].
    apply IH. intros Hin. apply H. right. exact Hin.
Qed.

Lemma codeBlockMatch_prose (prose x : jsstring) :
  ~ In 96 prose -> codeBlockMatch (prose ++ fence ++ x) = codeBlockMatch (fence ++ x).
Proof.
  intros H. unfold codeBlockMatch. rewrite (after_fence_prose prose x H).
  pose proof (after_fence_prose [] x) as H0. cbn [app] in H0.
  rewrite H0 by (intros []). reflexivity.
Qed.

(** X19: a document in a fenced block is also found behind an
    introduction: when the response starts with a character that starts no
    JSON text and holds no backquote before the block, [parseQuizJSON]
    reads the document from the block. *)
Theorem quiz_in_prose_is_found
    (d : QuizDocument) (c : N) (prose tag ws1 ws2 post : jsstring) :
  starts_no_value c = true ->
  ~ In 96 (c :: prose) ->
  tag = [] \/ tag = js "json" ->
  Forall (fun c => is_space c = true) ws1 ->
  Forall (fun c => is_space c = true) ws2 ->
  includes fence (stringify_document d) = false ->
  parseQuizJSON ((c :: prose) ++ fence ++ tag ++ ws1 ++ stringify_document d ++ ws2
                   ++ fence ++ post)
  = Return (value_of_document d).
Proof.
  intros Hc Hprose Htag Hws1 Hws2 Hd. unfold parseQuizJSON.
  change ((c :: prose) ++ ?x) with (c :: (prose ++ x)) at 1.
  rewrite (JSON_parse_no_value c _ Hc).
  rewrite codeBlockMatch_prose by exact Hprose.
  unfold stringify_document in *.
  rewrite codeBlockMatch_fenced by assumption.
  rewrite trim_closed by assumption.
  fold (stringify_document d). rewrite JSON_parse_stringify. reflexivity.
Qed.

Lemma quiz_in_prose_is_found_witness :
  parseQuizJSON (js "Here is your quiz: "
                   ++ Sample.fenced "json" (stringify_document Sample.plainQuiz))
  = Return (value_of_document Sample.plainQuiz).
Proof.
  apply (quiz_in_prose_is_found Sample.plainQuiz 72 (js "ere is your quiz: ") (js "json")
           [10] [10] []).
  - reflexivity.
  - vm_compute. intuition discriminate.
  - right. reflexivity.
  - repeat constructor.
  - repeat constructor.
  - vm_compute. reflexivity.
Defined.

(** ** From the click to the quiz *)

Lemma resume_state (eng : Engine) (pending : Pending) (reply : ProviderReply) (w : World) :
  let w' := fst (handleGenerateQuiz_resume eng pending reply w) in
  (store w' !! "quizState" = Some (str "ready")
   /\ exists quiz, store w' !! "quizData" = Some quiz
                   /\ parseReply (llmProvider pending) reply = Return quiz)
  \/ (store w' !! "quizState" = Some (str "error")
      /\ exists e, store w' !! "quizError" = Some (JStr (message eng e))).
Proof.
  cbv zeta. unfold handleGenerateQuiz_resume.
  destruct (parseReply (llmProvider pending) reply) as [quiz | e] eqn:Hreply.
  - destruct (questions_of quiz) as [qs | e] eqn:Hqs.
    + left. assert (H : forall k, store (fst (if formattable qs
                        then (emit (ProviderCall (llm pending) (llmProvider pending)
                                      (GenerateExplanations (sourceText pending) qs))
                                (emit (NotifyReady (length_of qs))
                                   (write (readySession quiz) w)), Some pending)
                        else (emit (NotifyReady (length_of qs))
                                (write (readySession quiz) w), None))) !! k
                      = store (write (readySession quiz) w) !! k).
      { intros k. destruct (formattable qs); reflexivity. }
      rewrite !H. unfold readySession. split; [store_simpl; reflexivity |].
      exists quiz. split; [store_simpl; reflexivity | reflexivity].
    + right. cbn [fst]. destruct (catch_spec eng e (write (readySession quiz) w))
        as (H1 & H2 & _). split; [exact H1 | eauto].
  - right. cbn [fst]. destruct (catch_spec eng e w) as (H1 & H2 & _).
    split; [exact H1 | eauto].
Qed.

(** X20: whatever the provider answers, the second half of
    [handleGenerateQuiz] leaves the state [ready] or [error], never
    [generating]: the next tick of a waiting popup stops the polling, loads
    the quiz and marks it as in progress in the first case, and changes
    nothing else in the second. *)
Theorem generation_always_ends
    (eng : Engine) (pending : Pending) (reply : ProviderReply) (w : World) (p : Popup) :
  polling p = true ->
  let w' := fst (handleGenerateQuiz_resume eng pending reply w) in
  (store w' !! "quizState" = Some (str "ready")
   \/ store w' !! "quizState" = Some (str "error"))
  /\ polling (fst (pollTick (store w') p)) = false
  /\ (store w' !! "quizState" = Some (str "ready") ->
        quiz (fst (pollTick (store w') p)) = store w' !! "quizData"
        /\ snd (pollTick (store w') p) = [saveProgressMsg "in_progress" 0 []])
  /\ (store w' !! "quizState" = Some (str "error") ->
        fst (pollTick (store w') p)
        = {| quiz := quiz p; currentQuestion := currentQuestion p;
             userAnswers := userAnswers p; polling := false |}
        /\ snd (pollTick (store w') p) = []).
Proof.
  intros Hpoll w'.
  assert (Hready : store w' !! "quizState" = Some (str "ready") ->
                   pollTick (store w') p
                   = ({| quiz := store w' !! "quizData"; currentQuestion := 0;
                         userAnswers := []; polling := false |},
                      [saveProgressMsg "in_progress" 0 []])).
  { intros H. unfold pollTick. rewrite Hpoll, H. reflexivity. }
  assert (Herror : store w' !! "quizState" = Some (str "error") ->
                   pollTick (store w') p
                   = ({| quiz := quiz p; currentQuestion := currentQuestion p;
                         userAnswers := userAnswers p; polling := false |}, [])).
  { intros H. unfold pollTick. rewrite Hpoll, H. reflexivity. }
  assert (Hstate : store w' !! "quizState" = Some (str "ready")
                   \/ store w' !! "quizState" = Some (str "error")).
  { destruct (resume_state eng pending reply w) as [[H _] | [H _]]; [left | right]; exact H. }
  split; [exact Hstate |]. split; [| split].
  - destruct Hstate as [H | H]; [rewrite (Hready H) | rewrite (Herror H)]; reflexivity.
  - intros H. rewrite (Hready H). split; reflexivity.
  - intros H. rewrite (Herror H). split; reflexivity.
Qed.

Lemma generation_always_ends_witness :
  polling (fst (pollTick
                  (store (fst (handleGenerateQuiz_resume Sample.engine Sample.pending
                                 (HttpError 503 []) Sample.generating)))
                  Sample.waiting)) = false.
Proof.
  destruct (generation_always_ends Sample.engine Sample.pending (HttpError 503 [])
              Sample.generating Sample.waiting) as (_ & H & _).
  - reflexivity.
  - exact H.
Defined.

Lemma pollTick_invariant (eng : Engine) tab script (w : World) (p : Popup)
    (m : list (jsstring * value)) (qs : list value) :
  polling p = true ->
  store w !! "quizState" = Some (str "ready") ->
  store w !! "quizData" = Some (JObj m) ->
  obj_get (js "questions") m = Some (JArr qs) ->
  qs <> [] ->
  session_invariant m qs
    (fst (pollTick (store w) p), deliver eng tab script (snd (pollTick (store w) p)) w).
Proof.
  intros Hpoll Hready Hdata Hqs Hne.
  assert (Htick : pollTick (store w) p
                  = ({| quiz := store w !! "quizData"; currentQuestion := 0;
                        userAnswers := []; polling := false |},
                     [saveProgressMsg "in_progress" 0 []]))
    by (unfold pollTick; rewrite Hpoll, Hready; reflexivity).
  rewrite Htick. cbn [fst snd].
  destruct (deliver_saveProgress eng tab script "in_progress" 0 [] w) as (H1 & H2 & H3 & H4).
  unfold session_invariant. cbn [fst snd quiz polling currentQuestion userAnswers length].
  repeat split; try assumption; try lia.
  - destruct qs; [contradiction | cbn; lia].
  - constructor.
  - rewrite H4 by discriminate. exact Hdata.
  - left. exact H1.
Qed.

(** X21: from the click to the quiz.  On a usable page with a known
    provider, the response to [generateQuiz] makes the popup poll; when the
    provider's reply reads as a document with at least one question, the
    next tick shows that document at question 0 without answers; and
    after any selections, Next and Redo from there the quiz is still that
    document, the current index is one of its questions, and a popup
    opened anew sends nothing and has the same answers. *)
Theorem from_the_click_to_the_quiz
    (eng : Engine) (tabId : Z) (page : PageText) (w : World) (p : Provider)
    tab script (reply : ProviderReply) (d : QuizDocument) (actions : list Action) :
  tabId <> 0%Z ->
  (50 <= wordCount page)%Z ->
  provider_of (string_or (store w !! "provider") (js "ollama")) = Some p ->
  parseReply p reply = Return (value_of_document d) ->
  questions d <> [] ->
  let start := handleGenerateQuiz eng (Return (Some tabId)) (Return (Some page)) w in
  let clicked :=
    startQuiz_callback (responseIn (drop (length (trace w)) (trace (fst start))))
      Popup.initial in
  exists pending,
    snd start = Some pending
    /\ polling clicked = true
    /\ let w' := fst (handleGenerateQuiz_resume eng pending reply (fst start)) in
       let tick := pollTick (store w') clicked in
       let r := fold_left (perform eng tab script) actions
                  (fst tick, deliver eng tab script (snd tick) w') in
       fst tick = {| quiz := Some (value_of_document d); currentQuestion := 0;
                     userAnswers := []; polling := false |}
       /\ quiz (fst r) = Some (value_of_document d)
       /\ is_Some (questions d !! currentQuestion (fst r))
       /\ snd (restoreSession (store (snd r)) Popup.initial) = []
       /\ userAnswers (fst (restoreSession (store (snd r)) Popup.initial))
          = userAnswers (fst r).
Proof.
  intros Htab Hwc Hp Hreply Hne start clicked. subst clicked start.
  rewrite (handleGenerateQuiz_dispatch eng tabId page w p Htab Hwc Hp). cbn [fst snd].
  eexists. split; [reflexivity |].
  rewrite emit_trace, started_trace, <- app_assoc, drop_app_length.
  split; [reflexivity |]. cbv zeta.
  set (pending := {| llm := _; llmProvider := p; sourceText := text page |}).
  set (w1 := emit _ (started page w)).
  set (popup := startQuiz_callback _ _).
  assert (Hpoll : polling popup = true) by reflexivity.
  set (w' := fst (handleGenerateQuiz_resume eng pending reply w1)).
  set (qs := map value_of_question (questions d)).
  set (m := [ (js "questions", JArr qs) ]).
  assert (Hstore : store w' !! "quizState" = Some (str "ready")
                   /\ store w' !! "quizData" = Some (JObj m)).
  { subst w'. unfold handleGenerateQuiz_resume. cbn [llmProvider pending]. rewrite Hreply.
    change (questions_of (value_of_document d)) with (Return (A := value) (JArr qs)).
    cbv zeta. cbv iota beta. subst qs. rewrite formattable_document. cbn [fst].
    rewrite !emit_store. unfold readySession. split; store_simpl; reflexivity. }
  destruct Hstore as [Hready Hdata].
  assert (Hqs : obj_get (js "questions") m = Some (JArr qs)) by reflexivity.
  assert (Hqne : qs <> []).
  { subst qs. destruct (questions d); [contradiction | discriminate]. }
  pose proof (pollTick_invariant eng tab script w' popup m qs Hpoll Hready Hdata Hqs Hqne)
    as Hinv.
  pose proof (run_invariant eng tab script m qs Hqs actions _ Hinv) as Hrun.
  set (r := fold_left _ actions _) in *.
  destruct Hrun as (Hquiz & Hpl & Hcur & _ & _ & Hall & Hd & Hidx & Hans & Hstate).
  split; [| split; [exact Hquiz | split; [| split]]].
  - unfold pollTick. rewrite Hpoll, Hready, Hdata. reflexivity.
  - apply lookup_lt_is_Some. subst qs. rewrite length_map in Hcur. exact Hcur.
  - unfold restoreSession.
    destruct Hstate as [Hs | [Hs _]];
      rewrite (state_or_idle_stored _ _ Hs) by discriminate; reflexivity.
  - unfold restoreSession.
    destruct Hstate as [Hs | [Hs _]];
      rewrite (state_or_idle_stored _ _ Hs) by discriminate;
      cbn [is_state fst userAnswers];
      [ change (is_state (js "in_progress") "generating") with false;
        change (is_state (js "in_progress") "ready") with false;
        change (is_state (js "in_progress") "in_progress") with true
      | change (is_state (js "completed") "generating") with false;
        change (is_state (js "completed") "ready") with false;
        change (is_state (js "completed") "in_progress") with false;
        change (is_state (js "completed") "completed") with true ];
      cbv iota; cbn [fst userAnswers]; rewrite Hans; apply answers_or_empty_sent, Hall.
Qed.

Lemma from_the_click_to_the_quiz_witness :
  exists pending,
    snd (handleGenerateQuiz Sample.engine (Return (Some 7%Z)) (Return (Some Sample.longPage))
           Sample.fresh) = Some pending.
Proof.
  destruct (from_the_click_to_the_quiz Sample.engine 7 Sample.longPage Sample.fresh Ollama
              Sample.tab (Return None) (RawText (stringify_document Sample.plainQuiz))
              Sample.plainQuiz [Select 1; Next]) as (pending & H & _).
  - discriminate.
  - vm_compute. discriminate.
  - vm_compute. reflexivity.
  - vm_compute. reflexivity.
  - discriminate.
  - exists pending. exact H.
Defined.

(** ** The pattern of noise classes *)

Section Pattern.

Implicit Types (s w tok pre post rest : jsstring) (c : N) (before : option N).

Lemma noiseWords_small w :
  In w noiseWords -> w <> [] /\ Forall (fun c => is_small c = true) w.
Proof.
  assert (H : forallb (fun w => nonempty w && forallb is_small w) noiseWords = true)
    by (vm_compute; reflexivity).
  rewrite forallb_forall in H. intros Hin. specialize (H w Hin).
  apply andb_true_iff in H as [Hne Hall]. split.
  - intros ->. discriminate Hne.
  - apply List.Forall_forall. rewrite forallb_forall in Hall. exact Hall.
Qed.

Lemma lower_small c : is_small (lower c) = true -> is_word_char c = true.
Proof.
  unfold is_small, lower, is_word_char.
  destruct (N.leb_spec 65 c), (N.leb_spec c 90); cbn [andb];
    destruct (N.leb_spec 48 c), (N.leb_spec c 57), (N.leb_spec 97 c), (N.leb_spec c 122),
             (N.eqb_spec c 95); cbn; try reflexivity;
    destruct (N.leb_spec 97 (c + 32)), (N.leb_spec (c + 32) 122); cbn; try reflexivity;
    try discriminate; intros; lia.
Qed.

Lemma strip_word_spec w s rest :
  strip_word w s = Some rest <-> exists tok, s = tok ++ rest /\ map lower tok = w.
Proof.
  revert s. induction w as [|a w IH]; intros s.
  - cbn [strip_word]. split.
    + intros [= ->]. exists []. split; reflexivity.
    + intros (tok & -> & Htok). destruct tok; [reflexivity | discriminate Htok].
  - destruct s as [|b s]; cbn [strip_word].
    + split; [discriminate |]. intros (tok & Hs & Htok).
      destruct tok; [discriminate Htok | discriminate Hs].
    + destruct (N.eqb_spec a (lower b)) as [-> | Hne].
      * rewrite IH. split.
        -- intros (tok & -> & <-). exists (b :: tok). split; reflexivity.
        -- intros (tok & Hs & Htok). destruct tok as [|b' tok]; [discriminate Htok |].
           simplify_eq/=. exists tok. split; reflexivity.
      * split; [discriminate |]. intros (tok & Hs & Htok).
        destruct tok as [|b' tok]; [discriminate Htok |]. simplify_eq/=.
Qed.

Lemma token_word tok w :
  map lower tok = w -> w <> [] -> Forall (fun c => is_small c = true) w ->
  is_word (head tok) = true /\ is_word (last w) = true.
Proof.
  intros <- Hne Hall. split.
  - destruct tok as [|c tok]; [contradiction |]. cbn [head is_word].
    apply lower_small. inversion Hall; assumption.
  - destruct (exists_last Hne) as (x & c & Hx). rewrite Hx in *.
    rewrite last_snoc. cbn [is_word]. apply Forall_app in Hall as [_ Hc].
    inversion Hc as [|? ? Hs _]; subst. unfold is_small in Hs. unfold is_word_char.
    rewrite Hs. rewrite !orb_true_r. reflexivity.
Qed.

Lemma head_app_token tok post : tok <> [] -> head (tok ++ post) = head tok.
Proof. destruct tok; [contradiction | reflexivity]. Qed.

Lemma noiseAt_spec before s :
  noiseAt before s = true
  <-> exists tok post,
        s = tok ++ post /\ In (map lower tok) noiseWords
        /\ is_word before = false /\ is_word (head post) = false.
Proof.
  unfold noiseAt. rewrite andb_true_iff, existsb_exists. split.
  - intros [Hb (w & Hin & Hw)].
    destruct (strip_word w s) as [rest|] eqn:Hs; [| discriminate Hw].
    apply strip_word_spec in Hs as (tok & -> & Htok).
    destruct (noiseWords_small w Hin) as [Hne Hall].
    destruct (token_word tok w Htok Hne Hall) as [Hhead Hlast].
    assert (Htne : tok <> []) by (intros ->; apply Hne; symmetry; exact Htok).
    rewrite head_app_token in Hb by exact Htne.
    unfold boundary in Hb, Hw. rewrite Hhead in Hb. rewrite Hlast in Hw.
    exists tok, rest. rewrite Htok. repeat split; [exact Hin | |].
    + destruct (is_word before); [discriminate Hb | reflexivity].
    + destruct (is_word (head rest)); [discriminate Hw | reflexivity].
  - intros (tok & post & -> & Hin & Hb & Hp).
    destruct (noiseWords_small _ Hin) as [Hne Hall].
    destruct (token_word tok _ eq_refl Hne Hall) as [Hhead Hlast].
    assert (Htne : tok <> []) by (intros ->; apply Hne; reflexivity).
    split.
    + rewrite head_app_token by exact Htne. unfold boundary. rewrite Hb, Hhead. reflexivity.
    + exists (map lower tok). split; [exact Hin |].
      assert (Hs : strip_word (map lower tok) (tok ++ post) = Some post)
        by (apply strip_word_spec; eauto).
      rewrite Hs. unfold boundary. rewrite Hlast, Hp. reflexivity.
Qed.

Lemma last_or_cons before c pre : last_or before (c :: pre) = last_or (Some c) pre.
Proof.
  unfold last_or. destruct pre as [|c' pre]; [reflexivity |].
  change (last (c :: c' :: pre)) with (last (c' :: pre)).
  destruct (last (c' :: pre)) eqn:E; [reflexivity |].
  apply last_None in E. discriminate E.
Qed.

Lemma noiseFrom_spec before s :
  noiseFrom before s = true
  <-> exists pre tok post,
        s = pre ++ tok ++ post /\ In (map lower tok) noiseWords
        /\ is_word (last_or before pre) = false /\ is_word (head post) = false.
Proof.
  revert before. induction s as [|c s IH]; intros before.
  - cbn [noiseFrom]. rewrite orb_false_r, noiseAt_spec. split.
    + intros (tok & post & Hs & H). exists [], tok, post. split; [exact Hs | exact H].
    + intros (pre & tok & post & Hs & Hin & Hb & Hp).
      destruct pre; [| discriminate Hs]. exists tok, post. repeat split; assumption.
  - cbn [noiseFrom]. rewrite orb_true_iff, noiseAt_spec, IH. split.
    + intros [(tok & post & Hs & H) | (pre & tok & post & -> & Hin & Hb & Hp)].
      * exists [], tok, post. split; [exact Hs | exact H].
      * exists (c :: pre), tok, post. rewrite last_or_cons. repeat split; assumption.
    + intros (pre & tok & post & Hs & Hin & Hb & Hp). destruct pre as [|c' pre].
      * left. exists tok, post. repeat split; assumption.
      * right. rewrite last_or_cons in Hb. simplify_eq/=. exists pre, tok, post.
        repeat split; assumption.
Qed.

End Pattern.

(** X22: the pattern of noise classes matches whole words only: it
    accepts a text exactly when the text holds one of the 17 words, in any
    case of its letters, with no word character (letter, digit or
    underscore) right before it and none right after it. *)
Theorem noise_pattern_matches_whole_words (s : jsstring) :
  NOISE_CLASS_PATTERNS s = true
  <-> exists pre tok post,
        s = pre ++ tok ++ post
        /\ In (map lower tok) noiseWords
        /\ is_word (last pre) = false
        /\ is_word (head post) = false.
Proof.
  unfold NOISE_CLASS_PATTERNS. rewrite noiseFrom_spec. unfold last_or.
  split; intros (pre & tok & post & Hs & Hin & Hb & Hp); exists pre, tok, post;
    (repeat split; try assumption); destruct (last pre); assumption.
Qed.

(** ** Replies without questions, and the other messages *)

(** X23: a reply that reads as JSON but whose questions cannot be read
    ends in the state [error], and yet it stays in the store as quiz data:
    it is written before the length of its questions is read.  The error
    stored and notified is the [TypeError] of the reading that failed:
    [questions] off [null] when the reply is [null], [length] off [null]
    when its questions are [null], and [length] off [undefined] when it has
    no questions or is no object.  No explanation call is made. *)
Theorem shapeless_reply_is_stored
    (eng : Engine) (pending : Pending) (reply : ProviderReply) (quiz : value) (e : exn)
    (w : World) :
  parseReply (llmProvider pending) reply = Return quiz ->
  questions_of quiz = Throw e ->
  let r := handleGenerateQuiz_resume eng pending reply w in
  snd r = None
  /\ store (fst r) !! "quizState" = Some (str "error")
  /\ store (fst r) !! "quizData" = Some quiz
  /\ exists base property,
       e = ReadingError base property
       /\ store (fst r) !! "quizError" = Some (JStr (propertyErrorMessage eng base property))
       /\ trace (fst r)
          = trace w ++ [NotifyError (js "Quiz generation failed: "
                                     ++ propertyErrorMessage eng base property)]
       /\ (quiz = JNull -> base = Null /\ property = js "questions")
       /\ (forall m, quiz = JObj m -> obj_get (js "questions") m = Some JNull ->
             base = Null /\ property = js "length")
       /\ (quiz <> JNull ->
           (forall m, quiz = JObj m -> obj_get (js "questions") m <> Some JNull) ->
           base = Undefined /\ property = js "length").
Proof.
  intros Hreply Hqs r. subst r. unfold handleGenerateQuiz_resume. rewrite Hreply, Hqs.
  cbn [fst snd].
  destruct (catch_spec eng e (write (readySession quiz) w)) as (H1 & H2 & H3 & H4).
  split; [reflexivity |]. split; [exact H1 |]. split.
  { rewrite H3. unfold readySession. store_simpl. reflexivity. }
  assert (He : exists base property,
             e = ReadingError base property
             /\ (quiz = JNull -> base = Null /\ property = js "questions")
             /\ (forall m, quiz = JObj m -> obj_get (js "questions") m = Some JNull ->
                   base = Null /\ property = js "length")
             /\ (quiz <> JNull ->
                 (forall m, quiz = JObj m -> obj_get (js "questions") m <> Some JNull) ->
                 base = Undefined /\ property = js "length")).
  { destruct quiz as [|b|q|t|l|m]; cbn [questions_of] in Hqs.
    - injection Hqs as <-. exists Null, (js "questions").
      repeat split; try discriminate; congruence.
    - injection Hqs as <-. exists Undefined, (js "length").
      repeat split; try discriminate; congruence.
    - injection Hqs as <-. exists Undefined, (js "length").
      repeat split; try discriminate; congruence.
    - injection Hqs as <-. exists Undefined, (js "length").
      repeat split; try discriminate; congruence.
    - injection Hqs as <-. exists Undefined, (js "length").
      repeat split; try discriminate; congruence.
    - destruct (obj_get (js "questions") m) as [[| | | | |]|] eqn:Hm;
        try discriminate Hqs; injection Hqs as <-.
      + exists Null, (js "length"). split; [reflexivity |]. split; [discriminate |]. split.
        * intros m' _ _. split; reflexivity.
        * intros _ H. exfalso. exact (H m eq_refl Hm).
      + exists Undefined, (js "length"). split; [reflexivity |]. split; [discriminate |].
        split.
        * intros m' [= <-] H. rewrite Hm in H. discriminate H.
        * intros _ _. split; reflexivity. }
  destruct He as (base & property & -> & Hnull & Hqnull & Hundef).
  exists base, property. split; [reflexivity |]. split; [exact H2 |]. split; [exact H4 |].
  split; [exact Hnull |]. split; [exact Hqnull | exact Hundef].
Qed.

Lemma shapeless_reply_is_stored_witness :
  store (fst (handleGenerateQuiz_resume Sample.engine Sample.pending
                (RawText (js "{}")) Sample.generating)) !! "quizData"
  = Some (JObj [])
  /\ store (fst (handleGenerateQuiz_resume Sample.engine Sample.pending
                   (RawText (js "{}")) Sample.generating)) !! "quizError"
     = Some (str "Cannot read properties of undefined (reading 'length')")
  /\ store (fst (handleGenerateQuiz_resume Sample.engine Sample.pending
                   (RawText Sample.nullQuestions) Sample.generating)) !! "quizError"
     = Some (str "Cannot read properties of null (reading 'length')").
Proof.
  destruct (shapeless_reply_is_stored Sample.engine Sample.pending (RawText (js "{}"))
              (JObj []) (ReadingError Undefined (js "length")) Sample.generating)
    as (_ & _ & Hdata & base & property & He & Herror & _);
    [vm_compute; reflexivity | reflexivity |].
  destruct (shapeless_reply_is_stored Sample.engine Sample.pending
              (RawText Sample.nullQuestions) (JObj [ (js "questions", JNull) ])
              (ReadingError Null (js "length")) Sample.generating)
    as (_ & _ & _ & base' & property' & He' & Herror' & _);
    [vm_compute; reflexivity | reflexivity |].
  injection He as <- <-. injection He' as <- <-.
  split; [exact Hdata |]. split; [exact Herror | exact Herror'].
Defined.

(** X24: the handlers of [saveProgress] and [clearQuiz] call no provider.
    The worker answers every such message with success, in their order,
    and changes no key outside the session, so that the settings read the
    same.  (Of the listener's other branches, [generateQuiz] and
    [testConnection] do reach a provider.) *)
Theorem progress_and_clear_call_no_provider
    (eng : Engine) tab script (msgs : list Message) (w : World) :
  Forall (fun m => m = clearQuiz
                   \/ exists state currentQuestion userAnswers,
                        m = saveProgress state currentQuestion userAnswers) msgs ->
  let w' := deliver eng tab script msgs w in
  trace w' = trace w ++ map (fun _ => Responded success) msgs
  /\ generateCalls (trace w') = generateCalls (trace w)
  /\ (forall k, ~ In k session_keys -> store w' !! k = store w !! k)
  /\ getSettings (store w') = getSettings (store w).
Proof.
  intros Hm w'. subst w'.
  assert (H : trace (deliver eng tab script msgs w)
              = trace w ++ map (fun _ => Responded success) msgs
              /\ forall k, ~ In k session_keys ->
                   store (deliver eng tab script msgs w) !! k = store w !! k).
  { revert w. induction Hm as [|m msgs Hne _ IH]; intros w.
    - cbn. rewrite app_nil_r. split; reflexivity.
    - change (deliver eng tab script (m :: msgs) w)
        with (deliver eng tab script msgs (fst (onMessage eng tab script m w))).
      cbn [map].
      destruct Hne as [-> | (st & cq & ua & ->)]; cbn [onMessage fst].
      + destruct (IH (handleClearQuiz w)) as [-> Hk]. split.
        * unfold handleClearQuiz. rewrite emit_trace. cbn [trace].
          rewrite <- app_assoc. reflexivity.
        * intros k Hin. rewrite Hk by exact Hin. rewrite clear_lookup.
          destruct (session_defaults !! k) as [v|] eqn:Hv; [| reflexivity].
          exfalso. apply Hin, session_defaults_keys. eexists; exact Hv.
      + destruct (IH (handleSaveProgress st cq ua w)) as [-> Hk]. split.
        * unfold handleSaveProgress. rewrite emit_trace, write_trace, <- app_assoc.
          reflexivity.
        * intros k Hin. rewrite Hk by exact Hin.
          apply handleSaveProgress_lookup; intros ->; apply Hin;
            unfold session_keys; cbn; tauto. }
  destruct H as [Htrace Hstore]. split; [exact Htrace |]. split; [| split; [exact Hstore |]].
  - rewrite Htrace. unfold generateCalls. rewrite List.filter_app, length_app.
    assert (Hnone : List.filter is_generate_call (map (fun _ => Responded success) msgs) = [])
      by (clear; induction msgs; [reflexivity | exact IHmsgs]).
    rewrite Hnone. cbn. lia.
  - apply map_eq. intros k. unfold getSettings. rewrite !storage_get_lookup.
    destruct (settings_defaults !! k) as [d|] eqn:Hd; [| reflexivity].
    rewrite Hstore; [reflexivity |].
    intros Hin. pose proof (settings_not_session k d Hd) as Hnot.
    unfold session_keys in Hin. cbn [In] in Hin.
    destruct Hin as [<- | [<- | [<- | [<- | [<- | [<- | [<- | []]]]]]]];
      vm_compute in Hd; discriminate.
Qed.

Lemma progress_and_clear_call_no_provider_witness :
  generateCalls
    (trace (deliver Sample.engine Sample.tab (Return None)
              [saveProgress (Some (str "in_progress")) None None; clearQuiz]
              Sample.generating))
  = generateCalls (trace Sample.generating).
Proof.
  destruct (progress_and_clear_call_no_provider Sample.engine Sample.tab (Return None)
              [saveProgress (Some (str "in_progress")) None None; clearQuiz]
              Sample.generating) as (_ & H & _).
  - constructor; [right; eauto |]. constructor; [left; reflexivity | constructor].
  - exact H.
Defined.
